(** * QuantMarket-Lab: the analysis engine

    A shallow embedding of [src/analysis_engine.py] ([run_analysis] and
    [calculate_day_of_week_distribution]) together with the handful of
    pandas operations the two functions are written with.

    Conventions of the embedding:
    - a DataFrame is the list of its rows, in index order; a column (a
      Series) is the list of that column's values, obtained with [col];
    - Python integers are [Z]; a float64 value is the rational number it
      stands for, and there is no NaN.  [run_analysis] evaluates the
      arithmetic on the price columns exactly; what binary64 rounding does
      to the same expressions is made explicit with [Float64] below, for
      the point totals, the running sums of the charts and the percentages
      of the report;
    - the [Direction] column holds arbitrary strings, as in the source,
      which compares it with the literals 'UP', 'DOWN' and 'Break Even';
    - the empty dictionary returned for an empty frame is [None]. *)

From Stdlib Require Import List String Ascii ZArith QArith Qabs Qround Qpower Lia Lqa Bool Sorted Permutation.
From Stdlib Require SpecFloat.
Import ListNotations.

Local Open Scope Z_scope.

(** ** Data model *)

(** A calendar date (the [Date] column holds daily timestamps). *)
Record date : Type := mkDate { year : Z; month : Z; day : Z }.

(** One row of the cleaned input table. *)
Record PriceBar : Type := mkBar {
  Date : date;
  Open : Q;
  High : Q;
  Low : Q;
  Close : Q;
  Direction : string
}.

(** One row of [df_analysis]: the input columns and the four added ones. *)
Record AnalyzedBar : Type := mkAnalyzed {
  bar : PriceBar;
  Day_Name : string;
  Raw_Points : Q;
  Points_Display : Q;
  streak_group : Z
}.

(** The [summary_stats] dictionary.  The two date entries are kept as dates;
    their [strftime] rendering is not modelled. *)
Record SummaryStats : Type := mkStats {
  total_days : Z;
  up_days : Z;
  down_days : Z;
  break_even_days : Z;
  up_pct : Q;
  down_pct : Q;
  break_even_pct : Q;
  total_up_points_display : Q;
  total_down_points_display : Q;
  net_points_display : Q;
  longest_up_streak : Z;
  longest_down_streak : Z;
  longest_break_even_streak : Z;
  point_multiplier : Q;
  point_decimals : Z;
  actual_start_date : date;
  actual_end_date : date
}.

(** ** The pandas operations used by the engine *)

Module Pandas.

(** [df[c]]: a column of a frame. *)
Definition col {R A : Type} (f : R -> A) (df : list R) : list A := map f df.

(** Element-wise binary operation on two aligned Series. *)
Fixpoint map2 {A B C : Type} (f : A -> B -> C) (s : list A) (t : list B) : list C :=
  match s, t with
  | x :: s', y :: t' => f x y :: map2 f s' t'
  | _, _ => []
  end.

(** [Series.shift()]: every value moves one position down and the first
    position holds the missing value. *)
Fixpoint shift_from {A : Type} (prev : option A) (s : list A) : list (option A) :=
  match s with
  | [] => []
  | x :: s' => prev :: shift_from (Some x) s'
  end.

Definition shift {A : Type} (s : list A) : list (option A) := shift_from None s.

(** [x != y] where [y] may be missing: a missing value differs from
    every string. *)
Definition ne (x : string) (y : option string) : bool :=
  match y with
  | None => true
  | Some y' => negb (x =? y')%string
  end.

(** [Series.cumsum()] of a boolean Series ([True] counts as 1). *)
Fixpoint cumsum_from (acc : Z) (s : list bool) : list Z :=
  match s with
  | [] => []
  | b :: s' => (acc + Z.b2z b) :: cumsum_from (acc + Z.b2z b) s'
  end.

Definition cumsum (s : list bool) : list Z := cumsum_from 0 s.

(** [Series.sum()] of a boolean Series. *)
Fixpoint sum_bool (s : list bool) : Z :=
  match s with
  | [] => 0
  | b :: s' => Z.b2z b + sum_bool s'
  end.

(** [Series.sum()] of a numeric Series; the empty sum is 0. *)
Fixpoint sum (s : list Q) : Q :=
  match s with
  | [] => 0%Q
  | x :: s' => (x + sum s')%Q
  end.

(** [df.loc[mask, c]]: the values of a column at the rows the mask keeps. *)
Fixpoint loc {A : Type} (mask : list bool) (s : list A) : list A :=
  match mask, s with
  | b :: mask', x :: s' => if b then x :: loc mask' s' else loc mask' s'
  | _, _ => []
  end.

(** [Series.max()]: the missing value ([None]) on an empty Series. *)
Fixpoint max (s : list Z) : option Z :=
  match s with
  | [] => None
  | x :: s' => match max s' with
               | None => Some x
               | Some m => Some (Z.max x m)
               end
  end.

(** One row of [groupby(key)[c].agg(['first', 'size'])]. *)
Record group : Type := mkGroup { key : Z; first : string; size : Z }.

(** A row joins its group, or opens a new one, keeping the groups in
    ascending key order. *)
Fixpoint group_add (k : Z) (v : string) (gs : list group) : list group :=
  match gs with
  | [] => [mkGroup k v 1]
  | g :: gs' =>
      if k =? key g then mkGroup (key g) (first g) (size g + 1) :: gs'
      else if k <? key g then mkGroup k v 1 :: gs
      else g :: group_add k v gs'
  end.

Fixpoint agg_from (gs : list group) (keys : list Z) (s : list string) : list group :=
  match keys, s with
  | k :: keys', v :: s' => agg_from (group_add k v gs) keys' s'
  | _, _ => gs
  end.

(** [df.groupby(key)[c].agg(['first', 'size'])]: one row per distinct key,
    sorted by key, with the first value of the column seen in the group
    and the number of rows of the group. *)
Definition groupby_agg_first_size (keys : list Z) (s : list string) : list group :=
  agg_from [] keys s.

(** [Timestamp.day_name()], through pandas' [dayofweek] (Sakamoto's
    method over the proleptic Gregorian calendar, Monday = 0). *)
Definition sakamoto_arr : list Z := [0; 3; 2; 5; 0; 3; 5; 1; 4; 6; 2; 4].

Definition dayofweek (y m d : Z) : Z :=
  let y' := if m <? 3 then y - 1 else y in
  let wd := (y' + y' / 4 - y' / 100 + y' / 400
             + nth (Z.to_nat (m - 1)) sakamoto_arr 0 + d) mod 7 in
  (wd + 6) mod 7.

Definition DAYS_FULL : list string :=
  ["Monday"; "Tuesday"; "Wednesday"; "Thursday"; "Friday"; "Saturday"; "Sunday"]%string.

Definition day_name (t : date) : string :=
  nth (Z.to_nat (dayofweek (year t) (month t) (day t))) DAYS_FULL ""%string.

(** Lexicographic order on dates, for [Series.min()] and [Series.max()]
    of the [Date] column. *)
Definition date_leb (a b : date) : bool :=
  (year a <? year b)
  || ((year a =? year b)
      && ((month a <? month b) || ((month a =? month b) && (day a <=? day b)))).

Definition date_min (a b : date) : date := if date_leb a b then a else b.
Definition date_max (a b : date) : date := if date_leb a b then b else a.

(** A Series of counts indexed by pairs of labels, as
    [groupby(k)[c].value_counts()] returns. *)
Definition counts : Type := list (string * string * Z).

Definition label_pair_eqb (a b : string * string) : bool :=
  (fst a =? fst b)%string && (snd a =? snd b)%string.

Fixpoint count_add (k : string * string) (s : counts) : counts :=
  match s with
  | [] => [(k, 1)]
  | (k', n) :: s' =>
      if label_pair_eqb k k' then (k', n + 1) :: s' else (k', n) :: count_add k s'
  end.

(** [df.groupby(k)[c].value_counts()]: the number of rows of every
    (k, c) combination that occurs.  The entries are listed here in order
    of first occurrence; [unstack] sorts the labels anyway. *)
Definition groupby_value_counts (ks cs : list string) : counts :=
  fold_left (fun s kc => count_add kc s) (combine ks cs) [].

Fixpoint lookup (k : string * string) (s : counts) : option Z :=
  match s with
  | [] => None
  | (k', n) :: s' => if label_pair_eqb k k' then Some n else lookup k s'
  end.

(** A two-dimensional table of counts: row labels, column labels and the
    cells, row by row. *)
Record Table : Type := mkTable {
  index : list string;
  columns : list string;
  values : list (list Z)
}.

(** [pd.DataFrame()] *)
Definition empty_table : Table := mkTable [] [] [].

(** The distinct labels of a level, sorted. *)
Fixpoint label_add (x : string) (l : list string) : list string :=
  match l with
  | [] => [x]
  | y :: l' =>
      match String.compare x y with
      | Eq => l
      | Lt => x :: l
      | Gt => y :: label_add x l'
      end
  end.

Definition labels (l : list string) : list string := fold_right label_add [] l.

(** [Series.unstack(fill_value=v)]: the first level labels the rows,
    the second the columns, absent combinations hold [v]. *)
Definition unstack (s : counts) (fill_value : Z) : Table :=
  let idx := labels (map (fun e => fst (fst e)) s) in
  let cols := labels (map (fun e => snd (fst e)) s) in
  mkTable idx cols
    (map (fun d =>
            map (fun c => match lookup (d, c) s with
                          | Some n => n
                          | None => fill_value
                          end) cols) idx).

Fixpoint position (x : string) (l : list string) : option nat :=
  match l with
  | [] => None
  | y :: l' =>
      if (x =? y)%string then Some O
      else match position x l' with
           | Some i => Some (S i)
           | None => None
           end
  end.

(** [df.reindex(index=new, fill_value=v)]: the rows in the order of
    [new]; a label the table lacks gives a row of [v]. *)
Definition reindex_index (t : Table) (new : list string) (fill_value : Z) : Table :=
  mkTable new (columns t)
    (map (fun d => match position d (index t) with
                   | Some i => nth i (values t) []
                   | None => repeat fill_value (List.length (columns t))
                   end) new).

(** [df.reindex(columns=new, fill_value=v)]: the columns in the order
    of [new]; a label the table lacks gives a column of [v]. *)
Definition reindex_columns (t : Table) (new : list string) (fill_value : Z) : Table :=
  mkTable (index t) new
    (map (fun row =>
            map (fun c => match position c (columns t) with
                          | Some j => nth j row fill_value
                          | None => fill_value
                          end) new) (values t)).

End Pandas.

(** ** [run_analysis] *)

(** [(count / total_days) * 100 if total_days > 0 else 0] *)
Definition pct (count total : Z) : Q :=
  if 0 <? total then ((inject_Z count / inject_Z total) * 100)%Q else 0%Q.

(** [0 if pd.isna(x) else int(x)] *)
Definition nan_to_zero (x : option Z) : Z :=
  match x with
  | None => 0
  | Some v => v
  end.

(** The rows of [df_analysis] from the input rows and the added columns. *)
Fixpoint assemble (df : list PriceBar) (names : list string) (raw disp : list Q)
    (groups : list Z) : list AnalyzedBar :=
  match df, names, raw, disp, groups with
  | r :: df', n :: names', x :: raw', y :: disp', g :: groups' =>
      mkAnalyzed r n x y g :: assemble df' names' raw' disp' groups'
  | _, _, _, _, _ => []
  end.

(** [streaks[streaks['first'] == label]['size'].max()] *)
Definition longest (label : string) (streaks : list Pandas.group) : option Z :=
  Pandas.max (map Pandas.size
                (filter (fun g => (Pandas.first g =? label)%string) streaks)).

(** The [streak_group] column of line 34. *)
Definition streak_groups (directions : list string) : list Z :=
  Pandas.cumsum (Pandas.map2 Pandas.ne directions (Pandas.shift directions)).

Definition run_analysis (df : list PriceBar) (point_multiplier : Q) (point_decimals : Z)
    : list AnalyzedBar * option SummaryStats :=
  match df with
  | [] => ([], None)
  | r0 :: _ =>
      let names := map Pandas.day_name (Pandas.col Date df) in
      let raw := Pandas.map2 Qminus (Pandas.col Close df) (Pandas.col Open df) in
      let disp := map (fun x => (x * point_multiplier)%Q) raw in
      let directions := Pandas.col Direction df in
      let total_days := Z.of_nat (List.length df) in
      let up_days := Pandas.sum_bool (map (fun d => (d =? "UP")%string) directions) in
      let down_days := Pandas.sum_bool (map (fun d => (d =? "DOWN")%string) directions) in
      let break_even_days := total_days - up_days - down_days in
      let groups := streak_groups directions in
      let df_analysis := assemble df names raw disp groups in
      let streaks := Pandas.groupby_agg_first_size groups directions in
      let longest_up_streak := longest "UP" streaks in
      let longest_down_streak := longest "DOWN" streaks in
      let longest_break_even_streak := longest "Break Even" streaks in
      let is_up := map (fun a => (Direction (bar a) =? "UP")%string) df_analysis in
      let is_down := map (fun a => (Direction (bar a) =? "DOWN")%string) df_analysis in
      let points := Pandas.col Points_Display df_analysis in
      let dates := Pandas.col (fun a => Date (bar a)) df_analysis in
      (df_analysis,
       Some {|
         total_days := total_days;
         up_days := up_days;
         down_days := down_days;
         break_even_days := break_even_days;
         up_pct := pct up_days total_days;
         down_pct := pct down_days total_days;
         break_even_pct := pct break_even_days total_days;
         total_up_points_display := Pandas.sum (Pandas.loc is_up points);
         total_down_points_display := Pandas.sum (map Qabs (Pandas.loc is_down points));
         net_points_display := Pandas.sum points;
         longest_up_streak := nan_to_zero longest_up_streak;
         longest_down_streak := nan_to_zero longest_down_streak;
         longest_break_even_streak := nan_to_zero longest_break_even_streak;
         point_multiplier := point_multiplier;
         point_decimals := point_decimals;
         actual_start_date := fold_left Pandas.date_min dates (Date r0);
         actual_end_date := fold_left Pandas.date_max dates (Date r0)
       |})
  end.

(** ** [calculate_day_of_week_distribution] *)

Definition days_order : list string :=
  ["Monday"; "Tuesday"; "Wednesday"; "Thursday"; "Friday"]%string.

Definition directions_order : list string := ["UP"; "DOWN"; "Break Even"]%string.

(** Every frame of rows [AnalyzedBar] has a [Direction] column, so of the
    guard [df_analysis.empty or 'Direction' not in df_analysis.columns]
    only the emptiness test can hold. *)
Definition calculate_day_of_week_distribution (df_analysis : list AnalyzedBar)
    : Pandas.Table :=
  match df_analysis with
  | [] => Pandas.empty_table
  | _ :: _ =>
      let day_of_week_dist :=
        Pandas.unstack
          (Pandas.groupby_value_counts
             (Pandas.col Day_Name df_analysis)
             (Pandas.col (fun a => Direction (bar a)) df_analysis)) 0 in
      let day_of_week_dist := Pandas.reindex_index day_of_week_dist days_order 0 in
      let day_of_week_dist := Pandas.reindex_columns day_of_week_dist directions_order 0 in
      day_of_week_dist
  end.

(** ** Vocabulary of the statements *)

(** Number of elements of a list that satisfy a test. *)
Definition count {A : Type} (p : A -> bool) (l : list A) : Z :=
  Z.of_nat (List.length (filter p l)).

Arguments count : simpl never.

(** Sum of all the cells of a table. *)
Definition table_total (t : Pandas.Table) : Z :=
  fold_right Z.add 0 (map (fold_right Z.add 0) (Pandas.values t)).

Definition is_weekday (a : AnalyzedBar) : bool :=
  existsb (fun d => (Day_Name a =? d)%string) days_order.

Definition known_direction (a : AnalyzedBar) : bool :=
  existsb (fun c => (Direction (bar a) =? c)%string) directions_order.

(** The count an entry of a Series of counts stands for (0 when absent). *)
Definition count_of (o : option Z) : Z :=
  match o with
  | Some n => n
  | None => 0
  end.

(** The table the engine is meant to return for a non-empty frame: one row
    per weekday, one column per direction, each cell the number of rows of
    that weekday and direction. *)
Definition weekday_table (cell : string -> string -> Z) : Pandas.Table :=
  Pandas.mkTable days_order directions_order
    (map (fun d => map (fun c => cell d c) directions_order) days_order).

(** Number of rows of a given weekday and direction. *)
Definition cell_count (d c : string) (df : list AnalyzedBar) : Z :=
  count (fun a => (Day_Name a =? d)%string && (Direction (bar a) =? c)%string) df.

(** Number of rows of the enriched frame that carry a given [streak_group]. *)
Definition group_size (k : Z) (out : list AnalyzedBar) : Z :=
  count (fun a => streak_group a =? k) out.

(** [n] is the largest size of a streak group of direction [c] in [out], or
    0 when no row has direction [c]. *)
Definition longest_streak_of (c : string) (out : list AnalyzedBar) (n : Z) : Prop :=
  (forall a, In a out -> Direction (bar a) = c ->
             group_size (streak_group a) out <= n)
  /\ ((exists a, In a out /\ Direction (bar a) = c) ->
      exists a, In a out /\ Direction (bar a) = c
                /\ group_size (streak_group a) out = n)
  /\ ((forall a, In a out -> Direction (bar a) <> c) -> n = 0).

(** The rows of a grouped aggregate are in strictly ascending key order. *)
Definition groups_sorted (gs : list Pandas.group) : Prop :=
  StronglySorted (fun g h => Pandas.key g < Pandas.key h) gs.

(** *** Reference calendar

    The weekday of a date counted on the proleptic Gregorian calendar, the
    way Python's [datetime.date.weekday] is defined: the ordinal of a date
    is the number of days from 0001-01-01 (a Monday, ordinal 1), leap years
    being the multiples of 4 that are not multiples of 100, or are
    multiples of 400. *)
Definition is_leap (y : Z) : bool :=
  (y mod 4 =? 0) && (negb (y mod 100 =? 0) || (y mod 400 =? 0)).

Definition days_before_year (y : Z) : Z :=
  (y - 1) * 365 + (y - 1) / 4 - (y - 1) / 100 + (y - 1) / 400.

Definition days_before_month (y m : Z) : Z :=
  nth (Z.to_nat (m - 1)) [0; 31; 59; 90; 120; 151; 181; 212; 243; 273; 304; 334] 0
  + (if (2 <? m) && is_leap y then 1 else 0).

Definition ordinal (t : date) : Z :=
  days_before_year (year t) + days_before_month (year t) (month t) + day t.

Definition gregorian_day_name (t : date) : string :=
  nth (Z.to_nat ((ordinal t + 6) mod 7))
      ["Monday"; "Tuesday"; "Wednesday"; "Thursday"; "Friday"; "Saturday"; "Sunday"]%string
      ""%string.

(** A column of dates is strictly ascending. *)
Definition dates_ascending (dates : list date) : Prop :=
  StronglySorted
    (fun a b => Pandas.date_leb a b = true /\ Pandas.date_leb b a = false) dates.

(** The direction label of an enriched row. *)
Definition direction (a : AnalyzedBar) : string := Direction (bar a).

(** The grouped aggregate of line 35, from the enriched frame. *)
Definition streaks_of (out : list AnalyzedBar) : list Pandas.group :=
  Pandas.groupby_agg_first_size (map streak_group out) (map direction out).

Definition is_up (a : AnalyzedBar) : bool := (Direction (bar a) =? "UP")%string.

Definition is_down (a : AnalyzedBar) : bool := (Direction (bar a) =? "DOWN")%string.

(** The [Direction] column classifies [Close] against [Open], as the
    cleaning stage computes it. *)
Definition directions_classified (df : list PriceBar) : Prop :=
  forall r, In r df ->
    (Direction r = "UP"%string <-> (Open r < Close r)%Q)
    /\ (Direction r = "DOWN"%string <-> (Close r < Open r)%Q)
    /\ (Direction r = "Break Even"%string <-> (Close r == Open r)%Q).

(** ** Sample inputs *)

(** Scenario A of the specification. *)
Definition scenario_A : list PriceBar :=
  [ mkBar (mkDate 2024 1 1) 100 105 100 105 "UP";
    mkBar (mkDate 2024 1 2) 105 105 100 100 "DOWN";
    mkBar (mkDate 2024 1 3) 100 100 100 100 "Break Even" ].

(** Scenario B: five UP days, then two DOWN days. *)
Definition scenario_B : list PriceBar :=
  [ mkBar (mkDate 2024 1 1) 100 101 100 101 "UP";
    mkBar (mkDate 2024 1 2) 101 102 101 102 "UP";
    mkBar (mkDate 2024 1 3) 102 103 102 103 "UP";
    mkBar (mkDate 2024 1 4) 103 104 103 104 "UP";
    mkBar (mkDate 2024 1 5) 104 105 104 105 "UP";
    mkBar (mkDate 2024 1 8) 105 105 104 104 "DOWN";
    mkBar (mkDate 2024 1 9) 104 104 103 103 "DOWN" ].

(** A weekend-only frame (Scenario D) and a frame with a weekend row and an
    unrecognised direction label. *)
Definition scenario_D : list PriceBar :=
  [ mkBar (mkDate 2024 1 6) 100 105 100 105 "UP";
    mkBar (mkDate 2024 1 7) 105 105 100 100 "DOWN" ].

(** Two rows labelled DOWN, one of which closed above its open. *)
Definition mislabelled : list PriceBar :=
  [ mkBar (mkDate 2024 1 1) 100 105 100 105 "DOWN";
    mkBar (mkDate 2024 1 2) 105 105 100 100 "DOWN" ].

Definition odd_label : list PriceBar :=
  [ mkBar (mkDate 2024 1 5) 100 105 100 105 "UP";
    mkBar (mkDate 2024 1 6) 105 105 100 100 "DOWN";
    mkBar (mkDate 2024 1 8) 100 100 100 100 "FLAT" ].

(** * The rest of the pipeline: filtering, cleaning, reporting, plotting *)

(** ** More pandas operations *)

Module Frame.

(** Equality of two timestamps. *)
Definition date_eqb (a b : date) : bool :=
  (year a =? year b) && (month a =? month b) && (day a =? day b).

(** Equality of two cells of a date column, either of which may be missing;
    [drop_duplicates] treats two missing values as equal. *)
Definition cell_eqb (a b : option date) : bool :=
  match a, b with
  | Some x, Some y => date_eqb x y
  | None, None => true
  | _, _ => false
  end.

(** [df.drop_duplicates(subset=[k], keep='first')]: a row is kept when no
    earlier row has its key. *)
Fixpoint drop_duplicates_from {R K : Type} (eqb : K -> K -> bool) (key : R -> K)
    (seen : list K) (df : list R) : list R :=
  match df with
  | [] => []
  | r :: df' =>
      if existsb (eqb (key r)) seen
      then drop_duplicates_from eqb key seen df'
      else r :: drop_duplicates_from eqb key (key r :: seen) df'
  end.

Definition drop_duplicates_first {R K : Type} (eqb : K -> K -> bool) (key : R -> K)
    (df : list R) : list R :=
  drop_duplicates_from eqb key [] df.

(** [df.drop_duplicates(subset=[k], keep='last')]: a row is kept when no
    later row has its key. *)
Definition drop_duplicates_last {R K : Type} (eqb : K -> K -> bool) (key : R -> K)
    (df : list R) : list R :=
  rev (drop_duplicates_first eqb key (rev df)).

(** [df.sort_values(by=k)] on a date column.  Rows with equal keys keep
    their order here; pandas' default sort leaves that order unspecified,
    and every caller below sorts a frame whose keys are distinct. *)
Fixpoint insert_sorted {R : Type} (key : R -> date) (r : R) (l : list R) : list R :=
  match l with
  | [] => [r]
  | x :: l' =>
      if Pandas.date_leb (key r) (key x) then r :: l else x :: insert_sorted key r l'
  end.

Definition sort_values {R : Type} (key : R -> date) (df : list R) : list R :=
  fold_right (insert_sorted key) [] df.

(** [pd.notna] *)
Definition notna {A : Type} (x : option A) : bool :=
  match x with
  | Some _ => true
  | None => false
  end.

End Frame.

(** ** [filter_data_by_date] (src/utils.py) *)

(** The frame argument may be [None]; a bound that is [None] defaults to
    the first, respectively last, date of the frame. *)
Definition filter_data_by_date (df : option (list PriceBar))
    (start_date end_date : option date) : list PriceBar :=
  match df with
  | None => []
  | Some [] => []
  | Some ((r0 :: _) as rows) =>
      let dates := Pandas.col Date rows in
      let start_ts :=
        match start_date with
        | Some d => d
        | None => fold_left Pandas.date_min dates (Date r0)
        end in
      let end_ts :=
        match end_date with
        | Some d => d
        | None => fold_left Pandas.date_max dates (Date r0)
        end in
      let mask :=
        Pandas.map2 andb (map (fun d => Pandas.date_leb start_ts d) dates)
                         (map (fun d => Pandas.date_leb d end_ts) dates) in
      Pandas.loc mask rows
  end.

(** ** [clean_and_validate_data] (2_data_cleaning.py) *)

(** One row of the raw table once [pd.to_datetime(errors='coerce')] and
    [pd.to_numeric(errors='coerce')] have run: a cell that did not parse is
    missing. *)
Record RawBar : Type := mkRaw {
  raw_Date : option date;
  raw_Open : option Q;
  raw_High : option Q;
  raw_Low : option Q;
  raw_Close : option Q
}.

Definition price_cols : list (RawBar -> option Q) :=
  [raw_Open; raw_High; raw_Low; raw_Close].

(** [x != 0] on a cell (a missing value differs from 0). *)
Definition ne_zero (x : option Q) : bool :=
  match x with
  | Some v => negb (Qeq_bool v 0)
  | None => true
  end.

(** The content of a cell that is present. *)
Definition price_value (x : option Q) : Q :=
  match x with
  | Some v => v
  | None => 0%Q
  end.

Definition date_value (x : option date) : date :=
  match x with
  | Some d => d
  | None => mkDate 0 0 0
  end.

(** [x > y] on floats. *)
Definition Qgtb (x y : Q) : bool := negb (Qle_bool x y).

(** Step 5: 'Break Even', overwritten by 'UP' where [Close > Open], then by
    'DOWN' where [Close < Open]. *)
Definition engineer_direction (open close : Q) : string :=
  let direction := "Break Even"%string in
  let direction := if Qgtb close open then "UP"%string else direction in
  let direction := if Qgtb open close then "DOWN"%string else direction in
  direction.

(** The row of the final frame built from a raw row that passed the
    filters (all its cells are present). *)
Definition final_row (r : RawBar) : PriceBar :=
  mkBar (date_value (raw_Date r))
        (price_value (raw_Open r)) (price_value (raw_High r))
        (price_value (raw_Low r)) (price_value (raw_Close r))
        (engineer_direction (price_value (raw_Open r)) (price_value (raw_Close r))).

Definition clean_and_validate_data (df : list RawBar) (asset_name : string)
    : list PriceBar :=
  (* Step 1: rows without a valid date are dropped *)
  let df := filter (fun r => Frame.notna (raw_Date r)) df in
  (* Step 2: duplicate timestamps, the first one is kept *)
  let df := Frame.drop_duplicates_first Frame.cell_eqb raw_Date df in
  (* Step 4: rows with a missing or a zero price are dropped *)
  let df := filter (fun r => forallb (fun c => Frame.notna (c r)) price_cols) df in
  let df := filter (fun r => forallb (fun c => ne_zero (c r)) price_cols) df in
  (* Steps 5 and 6: Direction, column order, sort by date *)
  Frame.sort_values Date (map final_row df).

(** A raw row the cleaning can keep: every cell present, no price zero. *)
Definition raw_row_ok (r : RawBar) : bool :=
  Frame.notna (raw_Date r)
  && forallb (fun c => Frame.notna (c r)) price_cols
  && forallb (fun c => ne_zero (c r)) price_cols.

(** The raw row a cleaned row is written back as (the processed CSV read
    again). *)
Definition raw_of (p : PriceBar) : RawBar :=
  mkRaw (Some (Date p)) (Some (Open p)) (Some (High p)) (Some (Low p)) (Some (Close p)).

(** A raw frame with a duplicated date, a missing price and a zero price. *)
Definition raw_sample : list RawBar :=
  [ mkRaw (Some (mkDate 2024 1 3)) (Some 100%Q) (Some 105%Q) (Some 99%Q) (Some 104%Q);
    mkRaw (Some (mkDate 2024 1 2)) (Some 101%Q) (Some 101%Q) (Some 98%Q) (Some 99%Q);
    mkRaw (Some (mkDate 2024 1 3)) (Some 1%Q) (Some 1%Q) (Some 1%Q) (Some 1%Q);
    mkRaw None (Some 5%Q) (Some 5%Q) (Some 5%Q) (Some 5%Q);
    mkRaw (Some (mkDate 2024 1 4)) (Some 100%Q) None (Some 99%Q) (Some 100%Q);
    mkRaw (Some (mkDate 2024 1 5)) (Some 0%Q) (Some 3%Q) (Some 0%Q) (Some 3%Q);
    mkRaw (Some (mkDate 2024 1 8)) (Some 7%Q) (Some 7%Q) (Some 7%Q) (Some 7%Q) ].

(** ** [get_period_label] (src/utils.py) and the file names built on it *)

(** The decimal digit of the units of [n]. *)
Definition digit (n : Z) : ascii :=
  nth (Z.to_nat (n mod 10))
      ["0"; "1"; "2"; "3"; "4"; "5"; "6"; "7"; "8"; "9"]%char "0"%char.

(** [Timestamp.strftime('%Y%m%d')]: four digits of the year, two of the
    month, two of the day, zero padded. *)
Definition strftime_Ymd (t : date) : string :=
  String (digit (year t / 1000)) (String (digit (year t / 100))
    (String (digit (year t / 10)) (String (digit (year t))
      (String (digit (month t / 10)) (String (digit (month t))
        (String (digit (day t / 10)) (String (digit (day t)) EmptyString))))))).

(** A bound that is missing ([pd.notna] fails) is written 'Start' or 'End'. *)
Definition get_period_label (start_date end_date : option date) : string :=
  let start_str :=
    match start_date with
    | Some start_ts => strftime_Ymd start_ts
    | None => "Start"%string
    end in
  let end_str :=
    match end_date with
    | Some end_ts => strftime_Ymd end_ts
    | None => "End"%string
    end in
  (start_str ++ "_to_" ++ end_str)%string.

(** [s.replace(' ', '_')] *)
Fixpoint replace_space (s : string) : string :=
  match s with
  | EmptyString => EmptyString
  | String c s' => String (if Ascii.eqb c " " then "_"%char else c) (replace_space s')
  end.

(** The file name of [save_summary_report] (src/reporting.py, line 16). *)
Definition summary_report_filename (asset_name period_label : string) : string :=
  (asset_name ++ "_" ++ replace_space period_label ++ "_SummaryReport.txt")%string.

(** The file name of [save_processed_data_to_csv] (src/reporting.py, line 57). *)
Definition processed_data_filename (asset_name period_label : string) : string :=
  (asset_name ++ "_" ++ replace_space period_label ++ "_DailyDirectionData.csv")%string.

(** [filename_suffix] of [generate_plots] (src/visualization.py, line 27). *)
Definition filename_suffix (asset_name period_label : string) : string :=
  (asset_name ++ "_" ++ replace_space period_label)%string.

(** The dates a timestamp can hold have a four-digit year. *)
Definition date_in_range (t : date) : Prop :=
  0 <= year t <= 9999 /\ 0 <= month t <= 99 /\ 0 <= day t <= 99.

Definition bound_in_range (b : option date) : Prop :=
  match b with
  | Some t => date_in_range t
  | None => True
  end.

(** ** Binary64 arithmetic

    A finite double is the rational it stands for.  An operation of
    binary64 is the exact operation followed by a rounding to the nearest
    double, a tie going to the double with an even significand.  Doubles
    have 53 significant bits and the smallest positive one is [2^-1074];
    overflow (a result of magnitude [2^1024] or more) is not modelled. *)

(** [np.rint]: the nearest integer, a tie going to the even one. *)
Definition rint (x : Q) : Z :=
  let f := Qfloor x in
  match ((x - inject_Z f) ?= (1 # 2))%Q with
  | Lt => f
  | Gt => f + 1
  | Eq => if Z.even f then f else f + 1
  end.

Module Float64.

(** The integer [e] with [2^e <= x < 2^(e+1)], for a positive [x]. *)
Definition ilog2 (x : Q) : Z :=
  let e := Z.log2 (Qnum x) - Z.log2 (Zpos (Qden x)) in
  if Qle_bool (2 ^ e) x then e else e - 1.

(** The exponent of the spacing of the doubles around [x]. *)
Definition ulp_exp (x : Q) : Z := Z.max (ilog2 (Qabs x) - 52) (-1074).

(** Rounding to the nearest double. *)
Definition rnd (x : Q) : Q :=
  if Qeq_bool x 0 then 0%Q
  else let E := ulp_exp x in (inject_Z (rint (x / 2 ^ E)) * 2 ^ E)%Q.

Definition add (x y : Q) : Q := rnd (x + y).
Definition sub (x y : Q) : Q := rnd (x - y).
Definition mul (x y : Q) : Q := rnd (x * y).

(** The divisor is not zero where the code divides. *)
Definition div (x y : Q) : Q := rnd (x / y).

(** The conversion of an int64 to float64. *)
Definition of_int (z : Z) : Q := rnd (inject_Z z).

(** *** [Series.sum()]

    pandas hands a float64 column without missing values to numpy's
    [add.reduce], which starts from 0 and adds the [pairwise_sum] of the
    values (numpy/core/src/umath/loops_utils.h.src): fewer than 8 values
    are added in order, up to 128 values with eight accumulators, more by
    splitting the array in two. *)

(** [res += a[i]] for the values of [a], in order. *)
Fixpoint sum_from (res : Q) (a : list Q) : Q :=
  match a with
  | [] => res
  | x :: a' => sum_from (add res x) a'
  end.

(** The unrolled loop of the pairwise sum: [r[j] += a[i + j]], [j < 8],
    for [blocks] blocks of eight values; the values not yet added are
    returned with the eight accumulators. *)
Fixpoint accumulate (r a : list Q) (blocks : nat) : list Q * list Q :=
  match blocks with
  | O => (r, a)
  | S k => accumulate (Pandas.map2 add r (firstn 8 a)) (skipn 8 a) k
  end.

(** [((r[0] + r[1]) + (r[2] + r[3])) + ((r[4] + r[5]) + (r[6] + r[7]))] *)
Definition combine8 (r : list Q) : Q :=
  match r with
  | [r0; r1; r2; r3; r4; r5; r6; r7] =>
      add (add (add r0 r1) (add r2 r3)) (add (add r4 r5) (add r6 r7))
  | _ => 0%Q
  end.

(** The branch [8 <= n <= 128]. *)
Definition unrolled_sum (a : list Q) : Q :=
  let n := List.length a in
  let '(r, rest) := accumulate (firstn 8 a) (skipn 8 a) (n / 8 - 1) in
  sum_from (combine8 r) rest.

(** numpy's [pairwise_sum]; [fuel] bounds the depth of the recursion and
    is not exhausted when it is at least the number of values. *)
Fixpoint pairwise_sum (fuel : nat) (a : list Q) : Q :=
  let n := List.length a in
  if (n <? 8)%nat then sum_from 0 a
  else if (n <=? 128)%nat then unrolled_sum a
  else
    match fuel with
    | O => sum_from 0 a
    | S fuel' =>
        let n2 := (n / 2)%nat in
        let n2 := (n2 - n2 mod 8)%nat in
        add (pairwise_sum fuel' (firstn n2 a)) (pairwise_sum fuel' (skipn n2 a))
    end.

(** [Series.sum()] of a float64 column without missing values: the
    reduction starts from 0 and adds the pairwise sum of the values. *)
Definition sum (a : list Q) : Q := add 0 (pairwise_sum (List.length a) a).

(** [Series.cumsum()]: a running sum, left to right. *)
Fixpoint cumsum_after (acc : Q) (s : list Q) : list Q :=
  match s with
  | [] => []
  | x :: s' => add acc x :: cumsum_after (add acc x) s'
  end.

Definition cumsum (s : list Q) : list Q :=
  match s with
  | [] => []
  | x :: s' => x :: cumsum_after x s'
  end.

End Float64.

(** *** The reference

    The standard library specifies IEEE 754 arithmetic on [spec_float];
    with precision 53 and maximal exponent 1024 it is binary64.  These
    definitions read its finite values as rationals, so that [Float64] can
    be checked against it on sample operands. *)

Definition spec_of_Z (z : Z) : SpecFloat.spec_float :=
  SpecFloat.binary_normalize 53 1024 z 0 false.

Definition spec_to_Q (x : SpecFloat.spec_float) : Q :=
  match x with
  | SpecFloat.S754_finite s m e => ((if s then -1 else 1) * inject_Z (Zpos m) * 2 ^ e)%Q
  | _ => 0%Q
  end.

(** The double nearest to [n / d]. *)
Definition spec_ratio (n d : Z) : SpecFloat.spec_float :=
  SpecFloat.SFdiv 53 1024 (spec_of_Z n) (spec_of_Z d).

Definition reference_ratios : list (Z * Z) :=
  [(1, 10); (11, 10); (7, 10); (-3, 7); (23, 160); (100, 1); (1, 3); (2, 3);
   (10000, 7); (-1, 1000000); (123456789, 1000); (1, 1000000007)].

Definition agree (op : SpecFloat.spec_float -> SpecFloat.spec_float -> SpecFloat.spec_float)
    (f : Q -> Q -> Q) (x y : SpecFloat.spec_float) : bool :=
  Qeq_bool (spec_to_Q (op x y)) (f (spec_to_Q x) (spec_to_Q y)).

(** [sums_to l v]: [v] is what adding the values of [l] in binary64 gives,
    for some order and some grouping of the additions. *)
Inductive sums_to : list Q -> Q -> Prop :=
| sums_nil : sums_to [] 0%Q
| sums_one (x : Q) : sums_to [x] x
| sums_add (l1 l2 : list Q) (v1 v2 : Q) :
    sums_to l1 v1 -> sums_to l2 v2 -> sums_to (l1 ++ l2) (Float64.add v1 v2)
| sums_perm (l l' : list Q) (v : Q) :
    Permutation l l' -> sums_to l v -> sums_to l' v.

(** A multiple of [2^t]. *)
Definition on_grid (t : Z) (x : Q) : Prop := exists m : Z, (x == inject_Z m * 2 ^ t)%Q.

(** A value that binary64 represents exactly. *)
Definition is_double (x : Q) : Prop := (Float64.rnd x == x)%Q.

(** The relative error of one rounding is at most [2^-53]; [growth n] is
    what [n] roundings in a row can add up to, [(1 + 2^-53)^n - 1]. *)
Definition unit_roundoff : Q := 1 # 9007199254740992.

Fixpoint growth (n : nat) : Q :=
  match n with
  | O => 0%Q
  | S k => (growth k + unit_roundoff * (1 + growth k))%Q
  end.

(** *** Lines 22-23 and 50-52 of [run_analysis] in binary64 *)

(** A row of [df_analysis] with its two float columns as binary64 computes
    them: [Close - Open], and that times the multiplier. *)
Definition with_binary64_points (point_multiplier : Q) (a : AnalyzedBar) : AnalyzedBar :=
  let raw := Float64.sub (Close (bar a)) (Open (bar a)) in
  mkAnalyzed (bar a) (Day_Name a) raw (Float64.mul raw point_multiplier) (streak_group a).

Definition df_analysis_binary64 (df : list PriceBar) (point_multiplier : Q)
    (point_decimals : Z) : list AnalyzedBar :=
  map (with_binary64_points point_multiplier)
      (fst (run_analysis df point_multiplier point_decimals)).

(** The three point totals of the summary, as binary64 computes them from
    the [Points_Display] column. *)
Record PointTotals : Type := mkTotals {
  total_up_points : Q;
  total_down_points : Q;
  net_points : Q
}.

Definition point_totals (df_analysis : list AnalyzedBar) : PointTotals :=
  let is_up := map (fun a => (Direction (bar a) =? "UP")%string) df_analysis in
  let is_down := map (fun a => (Direction (bar a) =? "DOWN")%string) df_analysis in
  let points := Pandas.col Points_Display df_analysis in
  {| total_up_points := Float64.sum (Pandas.loc is_up points);
     total_down_points := Float64.sum (map Qabs (Pandas.loc is_down points));
     net_points := Float64.sum points |}.

(** The range in which [Float64] is binary64: the prices are below
    [2^1000] in magnitude and so are the magnitudes of the scaled points
    taken together, so that no operation of the analysis overflows. *)
Definition no_overflow (df : list PriceBar) (point_multiplier : Q) : Prop :=
  (forall r, In r df -> (Qabs (Open r) <= 2 ^ 1000)%Q /\ (Qabs (Close r) <= 2 ^ 1000)%Q)
  /\ (Pandas.sum (map (fun r => Qabs ((Close r - Open r) * point_multiplier)) df)
      <= 2 ^ 1000)%Q.

(** Three correctly classified rows whose prices are the doubles nearest to
    1.0, 1.1 and 0.7. *)
Definition rounding_sample : list PriceBar :=
  let p10 := Float64.rnd (10 # 10) in
  let p11 := Float64.rnd (11 # 10) in
  let p07 := Float64.rnd (7 # 10) in
  [ mkBar (mkDate 2024 1 1) p10 p11 p10 p11 "UP";
    mkBar (mkDate 2024 1 2) p11 p11 p07 p07 "DOWN";
    mkBar (mkDate 2024 1 3) p07 p10 p07 p10 "UP" ].

(** Eight UP rows that open at the double nearest to 1.1 and close at the
    double nearest to 1.2. *)
Definition steady_sample : list PriceBar :=
  let p11 := Float64.rnd (11 # 10) in
  let p12 := Float64.rnd (12 # 10) in
  map (fun i => mkBar (mkDate 2024 1 i) p11 p12 p11 p12 "UP") [1; 2; 3; 4; 5; 8; 9; 10].

(** ** The series the plots draw (src/visualization.py)

    Each plotting function first derives the columns it draws; these
    definitions return those columns.  The drawing itself is not modelled. *)

Module Series.

(** [df.where(mask)[c]]: the column, missing where the mask is false. *)
Definition where_ {A : Type} (mask : list bool) (s : list A) : list (option A) :=
  Pandas.map2 (fun (b : bool) (x : A) => if b then Some x else None) mask s.

(** [Series.abs()] on a column with missing values. *)
Definition abs (s : list (option Q)) : list (option Q) := map (option_map Qabs) s.

(** [Series.fillna(v)] *)
Definition fillna {A : Type} (v : A) (s : list (option A)) : list A :=
  map (fun x => match x with Some y => y | None => v end) s.

(** [Series.value_counts()]: the number of occurrences of every label that
    occurs (listed here in order of first occurrence). *)
Fixpoint count_label (k : string) (s : list (string * Z)) : list (string * Z) :=
  match s with
  | [] => [(k, 1)]
  | (k', n) :: s' =>
      if (k =? k')%string then (k', n + 1) :: s' else (k', n) :: count_label k s'
  end.

Definition value_counts (s : list string) : list (string * Z) :=
  fold_left (fun acc k => count_label k acc) s [].

Fixpoint lookup (k : string) (s : list (string * Z)) : option Z :=
  match s with
  | [] => None
  | (k', n) :: s' => if (k =? k')%string then Some n else lookup k s'
  end.

(** [Series.reindex(labels)]: the values at the labels, missing where the
    Series has none. *)
Definition reindex (s : list (string * Z)) (labels : list string) : list (option Z) :=
  map (fun k => lookup k s) labels.

End Series.

(** Lines 98-101: the three cumulative day counts that are stacked. *)
Record DaysTrend : Type := mkDaysTrend {
  UP_Cumulative : list Z;
  DOWN_Cumulative : list Z;
  BreakEven_Cumulative : list Z
}.

Definition plot_cumulative_days_trend (df : list AnalyzedBar) : DaysTrend :=
  let directions := Pandas.col (fun a => Direction (bar a)) df in
  {| UP_Cumulative := Pandas.cumsum (map (fun d => (d =? "UP")%string) directions);
     DOWN_Cumulative := Pandas.cumsum (map (fun d => (d =? "DOWN")%string) directions);
     BreakEven_Cumulative :=
       Pandas.cumsum (map (fun d => (d =? "Break Even")%string) directions) |}.

(** Lines 75-79: the points of UP days, the magnitudes of the points of
    DOWN days, and their running totals, which are binary64 sums. *)
Record PointsTrend : Type := mkPointsTrend {
  UP_Points : list Q;
  DOWN_Points : list Q;
  CUM_UP_Points : list Q;
  CUM_DOWN_Points : list Q
}.

Definition plot_cumulative_points_trend (df : list AnalyzedBar) : PointsTrend :=
  let directions := Pandas.col (fun a => Direction (bar a)) df in
  let points := Pandas.col Points_Display df in
  let up_points :=
    Series.fillna 0%Q
      (Series.where_ (map (fun d => (d =? "UP")%string) directions) points) in
  let down_points :=
    Series.fillna 0%Q
      (Series.abs
         (Series.where_ (map (fun d => (d =? "DOWN")%string) directions) points)) in
  {| UP_Points := up_points;
     DOWN_Points := down_points;
     CUM_UP_Points := Float64.cumsum up_points;
     CUM_DOWN_Points := Float64.cumsum down_points |}.

(** Line 38: the sizes of the three slices of the pie,
    [value_counts().reindex(['UP', 'DOWN', 'Break Even']).fillna(0)]. *)
Definition plot_overall_distribution_pie (df : list AnalyzedBar) : list Z :=
  let direction_counts :=
    Series.fillna 0
      (Series.reindex
         (Series.value_counts (Pandas.col (fun a => Direction (bar a)) df))
         ["UP"; "DOWN"; "Break Even"]%string) in
  direction_counts.

(** ** The distribution table of the report (src/reporting.py, lines 44-48)

    [save_summary_report] prints the day-of-week table with a [Total]
    column and, per direction, a percentage column.  The percentages are
    binary64 values. *)

(** [Series.round(2)], which is numpy's [round]: multiply by 100, round to
    the nearest integer, divide by 100, each step in binary64. *)
Definition round2 (x : Q) : Q :=
  Float64.div (inject_Z (rint (Float64.mul x 100))) 100.

(** [Series.replace(0, np.nan)] *)
Definition replace_zero (s : list Z) : list (option Z) :=
  map (fun t => if t =? 0 then None else Some t) s.

(** [a / b] on aligned Series, an int64 column by a float64 one; a missing
    divisor gives a missing value. *)
Definition div_series (a : list Z) (b : list (option Z)) : list (option Q) :=
  Pandas.map2
    (fun c t => option_map (fun t' => Float64.div (Float64.of_int c) (Float64.of_int t')) t)
    a b.

(** [Series.mul(k)] *)
Definition mul_series (k : Q) (s : list (option Q)) : list (option Q) :=
  map (option_map (fun x => Float64.mul x k)) s.

(** [df[col]] when the table has the column. *)
Definition table_column (t : Pandas.Table) (col : string) : option (list Z) :=
  match Pandas.position col (Pandas.columns t) with
  | Some j => Some (map (fun row => nth j row 0) (Pandas.values t))
  | None => None
  end.

(** The printed table: the counts, the [Total] column and the percentage
    columns that were added, in order. *)
Record ReportTable : Type := mkReport {
  counts_table : Pandas.Table;
  Total : list Z;
  percent_columns : list (string * list Q)
}.

Definition dist_with_pct (day_of_week_dist : Pandas.Table) : ReportTable :=
  let total := map (fold_right Z.add 0) (Pandas.values day_of_week_dist) in
  let percent :=
    fold_left
      (fun added col =>
         match table_column day_of_week_dist col with
         | Some counts =>
             if 0 <? fold_right Z.add 0 total
             then added
                  ++ [((col ++ "_%")%string,
                       map round2
                         (Series.fillna 0%Q
                            (mul_series 100 (div_series counts (replace_zero total)))))]
             else added
         | None => added
         end)
      ["UP"; "DOWN"; "Break Even"]%string [] in
  mkReport day_of_week_dist total percent.

(** The percentage the report shows for a count out of a row total. *)
Definition share (c t : Z) : Q :=
  if t =? 0 then round2 0
  else round2 (Float64.mul (Float64.div (Float64.of_int c) (Float64.of_int t)) 100).

(** Number of rows of a weekday whose direction is one of the three labels. *)
Definition day_total (d : string) (df : list AnalyzedBar) : Z :=
  count (fun a => (Day_Name a =? d)%string && known_direction a) df.

(** ** [manage_backups] (1_data_acquisition.py)

    The backup directory is the list of the backup files of the asset, in
    the order [glob] yields them, each with its modification time; the
    function's effect is the directory it leaves behind. *)

Record BackupFile : Type := mkFile { file_name : string; mtime : Z }.

Record BackupSettings : Type := mkSettings {
  enable_backups : bool;
  max_backups_per_asset : Z
}.

(** [sorted(files, key=os.path.getmtime)]; Python's sort is stable. *)
Fixpoint insert_by_mtime (f : BackupFile) (l : list BackupFile) : list BackupFile :=
  match l with
  | [] => [f]
  | g :: l' => if mtime f <=? mtime g then f :: l else g :: insert_by_mtime f l'
  end.

Definition sorted_by_mtime (files : list BackupFile) : list BackupFile :=
  fold_right insert_by_mtime [] files.

(** The loop [while len(existing_backups) >= max: existing_backups.pop(0).unlink()]:
    the files left, or [None] when [pop(0)] is reached on an empty list and
    raises (by then every file has been deleted). *)
Fixpoint delete_oldest (existing_backups : list BackupFile) (max_backups : Z)
    : option (list BackupFile) :=
  match existing_backups with
  | [] => if 0 >=? max_backups then None else Some []
  | _ :: rest =>
      if Z.of_nat (List.length existing_backups) >=? max_backups
      then delete_oldest rest max_backups
      else Some existing_backups
  end.

(** [source_file] is the modification time of the raw file, or [None] when
    the file does not exist.  An exception is caught and printed, so the
    function always returns. *)
Definition manage_backups (backup_dir : list BackupFile) (source_file : option Z)
    (asset_name today_str : string) (config : BackupSettings) : list BackupFile :=
  if negb (enable_backups config) then backup_dir
  else
    match source_file with
    | None => backup_dir
    | Some source_mtime =>
        let existing_backups := sorted_by_mtime backup_dir in
        match delete_oldest existing_backups (max_backups_per_asset config) with
        | None => []
        | Some remaining =>
            let backup_name :=
              (asset_name ++ "_backup_" ++ today_str ++ ".csv")%string in
            if existsb (fun f => (file_name f =? backup_name)%string) remaining
            then remaining
            else remaining ++ [mkFile backup_name source_mtime]
        end
    end.

(** Three backups of GOLD, listed out of order. *)
Definition backups_sample : list BackupFile :=
  [ mkFile "GOLD_backup_2024-01-03.csv" 30;
    mkFile "GOLD_backup_2024-01-01.csv" 10;
    mkFile "GOLD_backup_2024-01-02.csv" 20 ].

(** ** The merge of [fetch_and_update_asset] (1_data_acquisition.py, lines 107-114)

    Once the response is parsed, the stored frame and the fetched frame
    are concatenated, duplicate dates are dropped keeping the last row, and
    the result is sorted by date.  Only the [Date] column is looked at, so
    the rows are left abstract. *)

Definition df_combined {R : Type} (Date_of : R -> date)
    (df_existing df_new : list R) : list R :=
  Frame.sort_values Date_of
    (Frame.drop_duplicates_last Frame.date_eqb Date_of (df_existing ++ df_new)).

Definition newly_added_count {R : Type} (Date_of : R -> date)
    (df_existing df_new : list R) : Z :=
  Z.of_nat (List.length (df_combined Date_of df_existing df_new))
  - Z.of_nat (List.length df_existing).

(** The last row of a frame that carries the date of [r]. *)
Definition last_of_date {R : Type} (Date_of : R -> date) (r : R) (df : list R)
    : option R :=
  find (fun x => Frame.date_eqb (Date_of x) (Date_of r)) (rev df).

(** ** The scenarios of the specification, evaluated *)

Example scenario_A_rows :
  let out := fst (run_analysis scenario_A 10 2) in
  map Raw_Points out = [5; -5; 0]%Q
  /\ map Points_Display out = [50; -50; 0]%Q
  /\ map streak_group out = [1; 2; 3]
  /\ map Day_Name out = ["Monday"; "Tuesday"; "Wednesday"]%string.
Proof. repeat split. Qed.

Example scenario_A_stats :
  exists s,
    snd (run_analysis scenario_A 10 2) = Some s
    /\ total_up_points_display s = 50%Q
    /\ total_down_points_display s = 50%Q
    /\ net_points_display s = 0%Q
    /\ longest_up_streak s = 1
    /\ longest_down_streak s = 1
    /\ longest_break_even_streak s = 1.
Proof. eexists; repeat split. Qed.

Example scenario_D_table :
  let out := fst (run_analysis scenario_D 10 2) in
  map Day_Name out = ["Saturday"; "Sunday"]%string
  /\ calculate_day_of_week_distribution out = weekday_table (fun _ _ => 0)
  /\ option_map total_days (snd (run_analysis scenario_D 10 2)) = Some 2.
Proof. repeat split. Qed.

(** ** Columns of the enriched frame *)

Section Columns.

Lemma map2_length {A B C : Type} (f : A -> B -> C) (s : list A) (t : list B) :
  List.length s = List.length t ->
  List.length (Pandas.map2 f s t) = List.length s.
Proof.
  revert t; induction s as [|x s IH]; intros [|y t] H; simpl in *;
    try discriminate; auto.
Qed.

Lemma map2_map {R A B C : Type} (f : A -> B -> C) (g : R -> A) (h : R -> B)
    (l : list R) :
  Pandas.map2 f (map g l) (map h l) = map (fun r => f (g r) (h r)) l.
Proof.
  induction l as [|r l IH]; simpl; [reflexivity | now rewrite IH].
Qed.

Lemma shift_from_length {A : Type} (prev : option A) (s : list A) :
  List.length (Pandas.shift_from prev s) = List.length s.
Proof.
  revert prev; induction s as [|x s IH]; intros prev; simpl; auto.
Qed.

Lemma cumsum_from_length (acc : Z) (s : list bool) :
  List.length (Pandas.cumsum_from acc s) = List.length s.
Proof.
  revert acc; induction s as [|b s IH]; intros acc; simpl; auto.
Qed.

Lemma streak_groups_length (directions : list string) :
  List.length (streak_groups directions) = List.length directions.
Proof.
  unfold streak_groups, Pandas.cumsum, Pandas.shift.
  rewrite cumsum_from_length, map2_length; auto.
  now rewrite shift_from_length.
Qed.

Lemma assemble_columns (df : list PriceBar) :
  forall names raw disp groups,
    List.length names = List.length df ->
    List.length raw = List.length df ->
    List.length disp = List.length df ->
    List.length groups = List.length df ->
    map bar (assemble df names raw disp groups) = df
    /\ map Day_Name (assemble df names raw disp groups) = names
    /\ map Raw_Points (assemble df names raw disp groups) = raw
    /\ map Points_Display (assemble df names raw disp groups) = disp
    /\ map streak_group (assemble df names raw disp groups) = groups.
Proof.
  induction df as [|r df IH]; intros [|n names] [|x raw] [|y disp] [|g groups];
    simpl; intros Hn Hr Hd Hg; try discriminate; auto.
  destruct (IH names raw disp groups) as (H1 & H2 & H3 & H4 & H5); try lia.
  now rewrite H1, H2, H3, H4, H5.
Qed.

End Columns.

(** The enriched frame, column by column. *)
Lemma run_analysis_columns (df : list PriceBar) (pm : Q) (pd : Z) :
  let out := fst (run_analysis df pm pd) in
  map bar out = df
  /\ map Day_Name out = map (fun r => Pandas.day_name (Date r)) df
  /\ map Raw_Points out = map (fun r => (Close r - Open r)%Q) df
  /\ map Points_Display out = map (fun r => ((Close r - Open r) * pm)%Q) df
  /\ map streak_group out = streak_groups (map Direction df).
Proof.
  destruct df as [|r0 df']; [now simpl|].
  set (df := r0 :: df').
  cbv zeta. unfold run_analysis. fold df. cbv zeta. cbn [fst]. unfold Pandas.col.
  rewrite map2_map, !map_map.
  apply assemble_columns; rewrite ?length_map, ?streak_groups_length, ?length_map;
    reflexivity.
Qed.

(** ** Counting *)

Lemma count_nonneg {A : Type} (p : A -> bool) (l : list A) : 0 <= count p l.
Proof. unfold count; lia. Qed.

Lemma count_cons {A : Type} (p : A -> bool) (x : A) (l : list A) :
  count p (x :: l) = Z.b2z (p x) + count p l.
Proof.
  unfold count; simpl; destruct (p x); simpl List.length; simpl Z.b2z; lia.
Qed.

Lemma count_le_length {A : Type} (p : A -> bool) (l : list A) :
  count p l <= Z.of_nat (List.length l).
Proof.
  induction l as [|x l IH]; [unfold count; simpl; lia|].
  rewrite count_cons; simpl List.length; destruct (p x); simpl Z.b2z; lia.
Qed.

Lemma count_ext {A : Type} (p q : A -> bool) (l : list A) :
  (forall x, In x l -> p x = q x) -> count p l = count q l.
Proof.
  induction l as [|x l IH]; intros H; [reflexivity|].
  rewrite !count_cons, (H x (or_introl eq_refl)), IH; auto.
  intros y Hy; apply H; now right.
Qed.

Lemma count_split {A : Type} (p q : A -> bool) (l : list A) :
  count p l = count (fun x => p x && q x) l + count (fun x => p x && negb (q x)) l.
Proof.
  induction l as [|x l IH]; [reflexivity|].
  rewrite !count_cons, IH; destruct (p x), (q x); cbn [Z.b2z andb negb]; lia.
Qed.

Lemma count_pos_In {A : Type} (p : A -> bool) (l : list A) :
  0 < count p l <-> exists x, In x l /\ p x = true.
Proof.
  induction l as [|x l IH]; [unfold count; simpl; split; [lia | intros (x & [] & _)]|].
  rewrite count_cons; split.
  - intros H; destruct (p x) eqn:Hx; [exists x; simpl; auto|].
    cbn [Z.b2z] in H; apply IH in H as (y & Hy & Hp); exists y; simpl; auto.
  - intros (y & [-> | Hy] & Hp).
    + rewrite Hp; pose proof (count_nonneg p l); cbn [Z.b2z]; lia.
    + assert (0 < count p l) by (apply IH; eauto).
      destruct (p x); cbn [Z.b2z]; lia.
Qed.

Lemma count_map {A B : Type} (f : A -> B) (p : B -> bool) (l : list A) :
  count p (map f l) = count (fun x => p (f x)) l.
Proof.
  induction l as [|x l IH]; [reflexivity|].
  simpl map; now rewrite !count_cons, IH.
Qed.

Lemma sum_bool_map {A : Type} (p : A -> bool) (l : list A) :
  Pandas.sum_bool (map p l) = count p l.
Proof.
  induction l as [|x l IH]; [reflexivity|].
  simpl; now rewrite count_cons, IH.
Qed.

(** ** Percentages *)

Lemma pct_zero_total (c : Z) : pct c 0 = 0%Q.
Proof. reflexivity. Qed.

Lemma pct_pos (c t : Z) :
  0 < t -> (pct c t == inject_Z c / inject_Z t * 100)%Q.
Proof.
  intros Ht; unfold pct.
  destruct (0 <? t) eqn:E; [reflexivity | apply Z.ltb_ge in E; lia].
Qed.

Lemma pct_bounds (c t : Z) :
  0 <= c <= t -> 0 < t -> (0 <= pct c t)%Q /\ (pct c t <= 100)%Q.
Proof.
  intros Hc Ht; unfold pct.
  destruct (0 <? t) eqn:E; [|apply Z.ltb_ge in E; lia].
  destruct t as [|p|p]; try lia.
  unfold Qle, Qdiv, Qmult, Qinv, inject_Z; cbn [Qnum Qden].
  rewrite !Pos2Z.inj_mul; split; nia.
Qed.

Lemma pct_sum (u d t : Z) :
  0 < t -> (pct u t + pct d t + pct (t - u - d) t == 100)%Q.
Proof.
  intros Ht; rewrite !pct_pos by assumption.
  unfold Z.sub; rewrite !inject_Z_plus, !inject_Z_opp.
  field.
  intros H; change 0%Q with (inject_Z 0) in H.
  rewrite inject_Z_injective in H; lia.
Qed.

(** ** Weekday names *)

Lemma leap_step (y : Z) :
  y / 4 - y / 100 + y / 400
  = (y - 1) / 4 - (y - 1) / 100 + (y - 1) / 400 + (if is_leap y then 1 else 0).
Proof.
  unfold is_leap.
  destruct (Z.eqb_spec (y mod 4) 0), (Z.eqb_spec (y mod 100) 0),
           (Z.eqb_spec (y mod 400) 0);
    cbn [andb orb negb]; Z.div_mod_to_equations; lia.
Qed.

(** Sakamoto's formula computes the weekday of the ordinal. *)
Lemma dayofweek_ordinal (y m d : Z) :
  1 <= m <= 12 ->
  Pandas.dayofweek y m d
  = (days_before_year y + days_before_month y m + d + 6) mod 7.
Proof.
  intros Hm; unfold Pandas.dayofweek, days_before_year, days_before_month.
  assert (Hcases : m = 1 \/ m = 2 \/ m = 3 \/ m = 4 \/ m = 5 \/ m = 6 \/ m = 7
                   \/ m = 8 \/ m = 9 \/ m = 10 \/ m = 11 \/ m = 12) by lia.
  destruct Hcases
    as [-> | [-> | [-> | [-> | [-> | [-> | [-> | [-> | [-> | [-> | [-> | ->]]]]]]]]]]];
    repeat match goal with
           | |- context [nth ?i ?l 0] =>
               let v := eval vm_compute in (nth i l 0) in change (nth i l 0) with v
           | |- context [(?a <? ?b)] =>
               let v := eval vm_compute in (a <? b) in change (a <? b) with v
           end;
    cbn [andb]; cbv iota; pose proof (leap_step y) as L; destruct (is_leap y);
    Z.div_mod_to_equations; lia.
Qed.

Lemma day_name_gregorian (t : date) :
  1 <= month t <= 12 -> Pandas.day_name t = gregorian_day_name t.
Proof.
  intros Hm; unfold Pandas.day_name, gregorian_day_name, ordinal.
  now rewrite (dayofweek_ordinal _ _ _ Hm).
Qed.

(** ** The statistics of a non-empty frame *)

Lemma columns_rowwise {A B C : Type} (f : A -> C) (h : A -> B) (g : B -> C)
    (l : list A) (l' : list B) :
  map h l = l' -> map f l = map g l' -> forall a, In a l -> f a = g (h a).
Proof.
  intros <-; rewrite map_map.
  induction l as [|x l IH]; simpl; intros H a Ha; [contradiction|].
  injection H as Hx Hl; destruct Ha as [<- | Ha]; auto.
Qed.

Lemma enriched_length (df : list PriceBar) (pm : Q) (pd : Z) :
  List.length (fst (run_analysis df pm pd)) = List.length df.
Proof.
  destruct (run_analysis_columns df pm pd) as (H & _).
  rewrite <- H at 2; now rewrite length_map.
Qed.

(** The counts of the summary, in terms of the input rows. *)
Lemma run_analysis_counts (df : list PriceBar) (pm : Q) (pd : Z) :
  df <> [] ->
  exists s,
    snd (run_analysis df pm pd) = Some s
    /\ total_days s = Z.of_nat (List.length df)
    /\ up_days s = count (fun r => (Direction r =? "UP")%string) df
    /\ down_days s = count (fun r => (Direction r =? "DOWN")%string) df
    /\ break_even_days s = total_days s - up_days s - down_days s
    /\ up_pct s = pct (up_days s) (total_days s)
    /\ down_pct s = pct (down_days s) (total_days s)
    /\ break_even_pct s = pct (break_even_days s) (total_days s).
Proof.
  intros Hne; destruct df as [|r0 df']; [contradiction|].
  eexists; split; [reflexivity|]; cbn [total_days up_days down_days break_even_days
    up_pct down_pct break_even_pct].
  unfold Pandas.col; rewrite !sum_bool_map, !count_map.
  repeat split; reflexivity.
Qed.

Lemma up_down_disjoint (df : list PriceBar) :
  count (fun r => (Direction r =? "UP")%string) df
  + count (fun r => (Direction r =? "DOWN")%string) df
  + count (fun r => negb (Direction r =? "UP")%string
                    && negb (Direction r =? "DOWN")%string) df
  = Z.of_nat (List.length df).
Proof.
  induction df as [|r df IH]; [reflexivity|].
  rewrite !count_cons; simpl List.length.
  destruct (String.eqb_spec (Direction r) "UP") as [E|E];
    [rewrite E|]; cbn [String.eqb Ascii.eqb Bool.eqb Z.b2z negb andb];
    [|destruct (Direction r =? "DOWN")%string; cbn [Z.b2z negb andb]]; lia.
Qed.

(** C3.  For a non-empty input, [run_analysis] returns an enriched frame
    with as many rows as the input, carrying the input rows unchanged and
    in the same order (hence the same, ascending, sequence of dates); in
    each row [Raw_Points] is [Close - Open], [Points_Display] is
    [Raw_Points * point_multiplier] and [Day_Name] is the name pandas gives
    the weekday of the row's date, which is the English name of its
    weekday on the Gregorian calendar. *)
Theorem C3_row_enrichment (df : list PriceBar) (pm : Q) (pd : Z) :
  df <> [] ->
  let out := fst (run_analysis df pm pd) in
  List.length out = List.length df
  /\ map bar out = df
  /\ map (fun a => Date (bar a)) out = map Date df
  /\ (dates_ascending (map Date df) ->
      dates_ascending (map (fun a => Date (bar a)) out))
  /\ (forall a, In a out ->
        Raw_Points a = (Close (bar a) - Open (bar a))%Q
        /\ Points_Display a = (Raw_Points a * pm)%Q
        /\ Day_Name a = Pandas.day_name (Date (bar a))
        /\ (1 <= month (Date (bar a)) <= 12 ->
            Day_Name a = gregorian_day_name (Date (bar a)))).
Proof.
  intros _ out.
  destruct (run_analysis_columns df pm pd) as (Hb & Hn & Hr & Hd & _).
  fold out in Hb, Hn, Hr, Hd.
  split; [apply enriched_length|].
  split; [exact Hb|].
  assert (Hdates : map (fun a => Date (bar a)) out = map Date df)
    by now rewrite <- (map_map bar Date out), Hb.
  split; [exact Hdates|].
  split; [now rewrite Hdates|].
  intros a Ha.
  pose proof (columns_rowwise Raw_Points bar _ out df Hb Hr a Ha) as Hraw.
  split; [exact Hraw|]; split.
  - rewrite Hraw.
    exact (columns_rowwise Points_Display bar _ out df Hb Hd a Ha).
  - pose proof (columns_rowwise Day_Name bar _ out df Hb Hn a Ha) as Hname.
    split; [exact Hname|].
    intros Hm; rewrite Hname; now apply day_name_gregorian.
Qed.

Lemma C3_row_enrichment_witness :
  scenario_A <> []
  /\ let out := fst (run_analysis scenario_A 10 2) in
     List.length out = List.length scenario_A
     /\ map bar out = scenario_A
     /\ map (fun a => Date (bar a)) out = map Date scenario_A
     /\ (dates_ascending (map Date scenario_A) ->
         dates_ascending (map (fun a => Date (bar a)) out))
     /\ (forall a, In a out ->
           Raw_Points a = (Close (bar a) - Open (bar a))%Q
           /\ Points_Display a = (Raw_Points a * 10)%Q
           /\ Day_Name a = Pandas.day_name (Date (bar a))
           /\ (1 <= month (Date (bar a)) <= 12 ->
               Day_Name a = gregorian_day_name (Date (bar a)))).
Proof.
  split; [discriminate | apply (C3_row_enrichment scenario_A 10 2); discriminate].
Defined.

(** C4.  For a non-empty input, [up_days] and [down_days] are the numbers
    of rows whose direction is exactly 'UP', respectively 'DOWN';
    [break_even_days] is [total_days - up_days - down_days], which is the
    number of rows with any other label; the three counts add up to
    [total_days]. *)
Theorem C4_day_counts (df : list PriceBar) (pm : Q) (pd : Z) :
  df <> [] ->
  exists s,
    snd (run_analysis df pm pd) = Some s
    /\ total_days s = Z.of_nat (List.length df)
    /\ up_days s = count (fun r => (Direction r =? "UP")%string) df
    /\ down_days s = count (fun r => (Direction r =? "DOWN")%string) df
    /\ break_even_days s = total_days s - up_days s - down_days s
    /\ break_even_days s
       = count (fun r => negb (Direction r =? "UP")%string
                         && negb (Direction r =? "DOWN")%string) df
    /\ up_days s + down_days s + break_even_days s = total_days s.
Proof.
  intros Hne.
  destruct (run_analysis_counts df pm pd Hne) as (s & Hs & Ht & Hu & Hd & Hb & _).
  pose proof (up_down_disjoint df) as Hsum.
  exists s; repeat split; auto; lia.
Qed.

Lemma C4_day_counts_witness :
  odd_label <> []
  /\ exists s,
       snd (run_analysis odd_label 10 2) = Some s
       /\ total_days s = Z.of_nat (List.length odd_label)
       /\ up_days s = count (fun r => (Direction r =? "UP")%string) odd_label
       /\ down_days s = count (fun r => (Direction r =? "DOWN")%string) odd_label
       /\ break_even_days s = total_days s - up_days s - down_days s
       /\ break_even_days s
          = count (fun r => negb (Direction r =? "UP")%string
                            && negb (Direction r =? "DOWN")%string) odd_label
       /\ up_days s + down_days s + break_even_days s = total_days s.
Proof.
  split; [discriminate | apply (C4_day_counts odd_label 10 2); discriminate].
Defined.

(** C5.  For a non-empty input each percentage is its count divided by
    [total_days], times 100; it lies between 0 and 100 and the three add up
    to 100 (exactly, over the rationals).  The percentage expression
    evaluates to 0 when [total_days] is 0. *)
Theorem C5_percentages :
  (forall (df : list PriceBar) (pm : Q) (pd : Z),
      df <> [] ->
      exists s,
        snd (run_analysis df pm pd) = Some s
        /\ up_pct s = pct (up_days s) (total_days s)
        /\ down_pct s = pct (down_days s) (total_days s)
        /\ break_even_pct s = pct (break_even_days s) (total_days s)
        /\ (up_pct s == inject_Z (up_days s) / inject_Z (total_days s) * 100)%Q
        /\ (down_pct s == inject_Z (down_days s) / inject_Z (total_days s) * 100)%Q
        /\ (break_even_pct s
            == inject_Z (break_even_days s) / inject_Z (total_days s) * 100)%Q
        /\ (0 <= up_pct s)%Q /\ (up_pct s <= 100)%Q
        /\ (0 <= down_pct s)%Q /\ (down_pct s <= 100)%Q
        /\ (0 <= break_even_pct s)%Q /\ (break_even_pct s <= 100)%Q
        /\ (up_pct s + down_pct s + break_even_pct s == 100)%Q)
  /\ (forall count : Z, pct count 0 = 0%Q).
Proof.
  split; [|exact pct_zero_total].
  intros df pm pd Hne.
  destruct (run_analysis_counts df pm pd Hne)
    as (s & Hs & Ht & Hu & Hd & Hb & Hpu & Hpd & Hpb).
  pose proof (up_down_disjoint df) as Hsum.
  pose proof (count_nonneg (fun r => (Direction r =? "UP")%string) df) as Hu0.
  pose proof (count_nonneg (fun r => (Direction r =? "DOWN")%string) df) as Hd0.
  pose proof (count_nonneg (fun r => negb (Direction r =? "UP")%string
                            && negb (Direction r =? "DOWN")%string) df) as Hb0.
  assert (Hpos : 0 < total_days s).
  { rewrite Ht; destruct df; [contradiction | simpl List.length; lia]. }
  assert (Hub : 0 <= up_days s <= total_days s) by lia.
  assert (Hdb : 0 <= down_days s <= total_days s) by lia.
  assert (Hbb : 0 <= break_even_days s <= total_days s) by lia.
  exists s; split; [exact Hs|].
  rewrite Hpu, Hpd, Hpb.
  repeat (split; [first [reflexivity | now apply pct_pos | now apply pct_bounds]|]).
  rewrite Hb; now apply pct_sum.
Qed.

Lemma C5_percentages_witness :
  scenario_B <> []
  /\ exists s,
       snd (run_analysis scenario_B 10 2) = Some s
       /\ up_pct s = pct (up_days s) (total_days s)
       /\ down_pct s = pct (down_days s) (total_days s)
       /\ break_even_pct s = pct (break_even_days s) (total_days s)
       /\ (up_pct s == inject_Z (up_days s) / inject_Z (total_days s) * 100)%Q
       /\ (down_pct s == inject_Z (down_days s) / inject_Z (total_days s) * 100)%Q
       /\ (break_even_pct s
           == inject_Z (break_even_days s) / inject_Z (total_days s) * 100)%Q
       /\ (0 <= up_pct s)%Q /\ (up_pct s <= 100)%Q
       /\ (0 <= down_pct s)%Q /\ (down_pct s <= 100)%Q
       /\ (0 <= break_even_pct s)%Q /\ (break_even_pct s <= 100)%Q
       /\ (up_pct s + down_pct s + break_even_pct s == 100)%Q.
Proof.
  split; [discriminate | apply (proj1 C5_percentages scenario_B 10%Q 2); discriminate].
Defined.

(** ** Streak groups *)

Lemma streak_from_step (s : list string) :
  forall (prev : option string) (acc : Z) (i : nat) (x y : string),
    nth_error s i = Some x ->
    nth_error s (S i) = Some y ->
    exists g,
      nth_error (Pandas.cumsum_from acc (Pandas.map2 Pandas.ne s (Pandas.shift_from prev s))) i
      = Some g
      /\ nth_error (Pandas.cumsum_from acc (Pandas.map2 Pandas.ne s (Pandas.shift_from prev s)))
           (S i)
         = Some (g + Z.b2z (negb (y =? x)%string)).
Proof.
  induction s as [|x0 s IH]; intros prev acc i x y Hx Hy; [now destruct i|].
  destruct i as [|i].
  - destruct s as [|x1 s]; [discriminate|].
    simpl in Hx, Hy; injection Hx as <-; injection Hy as <-.
    eexists; split; reflexivity.
  - simpl in Hx; change (nth_error s (S i) = Some y) in Hy.
    destruct (IH (Some x0) (acc + Z.b2z (Pandas.ne x0 prev)) i x y Hx Hy) as (g & H1 & H2).
    exists g; split; assumption.
Qed.

Section Streaks.

Variable out : list AnalyzedBar.

Hypothesis groups_of_out :
  map streak_group out = streak_groups (map direction out).


Lemma group_step (i : nat) (a b : AnalyzedBar) :
  nth_error out i = Some a ->
  nth_error out (S i) = Some b ->
  streak_group b
  = streak_group a + Z.b2z (negb (direction b =? direction a)%string).
Proof using groups_of_out.
  intros Ha Hb.
  pose proof (map_nth_error streak_group _ _ Ha) as Ga.
  pose proof (map_nth_error streak_group _ _ Hb) as Gb.
  pose proof (map_nth_error direction _ _ Ha) as Da.
  pose proof (map_nth_error direction _ _ Hb) as Db.
  rewrite groups_of_out in Ga, Gb.
  destruct (streak_from_step _ None 0 i _ _ Da Db) as (g & H1 & H2).
  unfold streak_groups, Pandas.cumsum, Pandas.shift in Ga, Gb.
  congruence.
Qed.

Lemma group_mono (i j : nat) (a b : AnalyzedBar) :
  (i <= j)%nat ->
  nth_error out i = Some a ->
  nth_error out j = Some b ->
  streak_group a <= streak_group b.
Proof using groups_of_out.
  intros Hij Ha; revert b; induction Hij as [|j Hij IH]; intros b Hb.
  - assert (a = b) by congruence; subst; lia.
  - destruct (nth_error out j) as [c|] eqn:Hc.
    + specialize (IH c eq_refl).
      rewrite (group_step j c b Hc Hb).
      destruct (negb (direction b =? direction c)%string); simpl; lia.
    + apply nth_error_None in Hc.
      assert (nth_error out (S j) <> None) by congruence.
      apply nth_error_Some in H; lia.
Qed.

Lemma group_same_direction (i j : nat) (a b : AnalyzedBar) :
  (i <= j)%nat ->
  nth_error out i = Some a ->
  nth_error out j = Some b ->
  streak_group a = streak_group b ->
  direction a = direction b.
Proof using groups_of_out.
  intros Hij Ha; revert b; induction Hij as [|j Hij IH]; intros b Hb Hg.
  - congruence.
  - destruct (nth_error out j) as [c|] eqn:Hc.
    + pose proof (group_mono i j a c Hij Ha Hc) as Hac.
      pose proof (group_step j c b Hc Hb) as Hcb.
      destruct (String.eqb_spec (direction b) (direction c)) as [E|E];
        simpl in Hcb; [|lia].
      rewrite E; apply IH; [reflexivity | lia].
    + apply nth_error_None in Hc.
      assert (nth_error out (S j) <> None) by congruence.
      apply nth_error_Some in H; lia.
Qed.

Lemma group_constant_direction (a b : AnalyzedBar) :
  In a out -> In b out -> streak_group a = streak_group b ->
  direction a = direction b.
Proof using groups_of_out.
  intros Ha Hb Hg.
  apply In_nth_error in Ha as (i & Ha); apply In_nth_error in Hb as (j & Hb).
  destruct (Nat.le_ge_cases i j) as [Hij|Hij].
  - exact (group_same_direction i j a b Hij Ha Hb Hg).
  - symmetry; exact (group_same_direction j i b a Hij Hb Ha (eq_sym Hg)).
Qed.

End Streaks.

Lemma enriched_groups (df : list PriceBar) (pm : Q) (pd : Z) :
  let out := fst (run_analysis df pm pd) in
  map streak_group out = streak_groups (map (fun a => Direction (bar a)) out).
Proof.
  intros out.
  destruct (run_analysis_columns df pm pd) as (Hb & _ & _ & _ & Hg).
  fold out in Hb, Hg.
  now rewrite <- (map_map bar Direction out), Hb.
Qed.



(** ** Grouped aggregation *)

Lemma count_rev {A : Type} (p : A -> bool) (l : list A) :
  count p (rev l) = count p l.
Proof. unfold count; now rewrite filter_rev, length_rev. Qed.

Lemma max_None (s : list Z) : Pandas.max s = None <-> s = [].
Proof.
  destruct s as [|x s]; simpl; [tauto|].
  destruct (Pandas.max s); split; discriminate.
Qed.

Lemma max_Some (s : list Z) (m : Z) :
  Pandas.max s = Some m -> In m s /\ forall x, In x s -> x <= m.
Proof.
  revert m; induction s as [|x s IH]; intros m H; [discriminate|].
  simpl in H; destruct (Pandas.max s) as [m'|] eqn:E.
  - injection H as <-; destruct (IH m' eq_refl) as (Hin & Hle); split.
    + destruct (Z.max_spec x m') as [(_ & ->) | (_ & ->)]; simpl; auto.
    + intros y [<- | Hy]; [lia | specialize (Hle y Hy); lia].
  - injection H as <-; apply max_None in E; subst s; split; [now left|].
    intros y [<- | []]; lia.
Qed.

Section GroupAdd.

Import Pandas.

Variables (k : Z) (v : string).

Lemma group_add_keys (gs : list group) (G : group) :
  In G (group_add k v gs) ->
  key G = k \/ exists G0, In G0 gs /\ key G = key G0.
Proof.
  induction gs as [|g gs IH]; simpl.
  - intros [<- | []]; now left.
  - destruct (k =? key g) eqn:E; [|destruct (k <? key g)].
    + intros [<- | H]; [right; exists g | right; exists G]; simpl; auto.
    + intros [<- | [<- | H]];
        [now left | right; exists g; simpl; auto | right; exists G; simpl; auto].
    + intros [<- | H]; [right; exists g; simpl; auto|].
      destruct (IH H) as [Hk | (G0 & H0 & Hk)]; [now left|].
      right; exists G0; simpl; auto.
Qed.

Lemma group_add_sorted (gs : list group) :
  groups_sorted gs -> groups_sorted (group_add k v gs).
Proof.
  unfold groups_sorted; induction 1 as [|g gs Hs IH Hg]; simpl.
  - repeat constructor.
  - destruct (k =? key g) eqn:E; [|destruct (k <? key g) eqn:L].
    + constructor; [exact Hs | exact Hg].
    + apply Z.ltb_lt in L; constructor; [now constructor|].
      constructor; [exact L|].
      rewrite Forall_forall in Hg |- *; intros h Hh; simpl.
      specialize (Hg h Hh); simpl in Hg; lia.
    + apply Z.eqb_neq in E; apply Z.ltb_ge in L.
      constructor; [exact IH|].
      rewrite Forall_forall in Hg |- *; intros h Hh.
      destruct (group_add_keys gs h Hh) as [Hk | (h0 & H0 & Hk)];
        [lia | rewrite Hk; exact (Hg h0 H0)].
Qed.

Lemma group_add_In (gs : list group) (G : group) :
  groups_sorted gs ->
  In G (group_add k v gs) ->
  (In G gs /\ key G <> k)
  \/ (key G = k /\ exists G0, In G0 gs /\ key G0 = k
                            /\ first G = first G0 /\ size G = size G0 + 1)
  \/ (key G = k /\ first G = v /\ size G = 1
      /\ forall G0, In G0 gs -> key G0 <> k).
Proof.
  unfold groups_sorted; induction 1 as [|g gs Hs IH Hg]; simpl.
  - intros [<- | []]; right; right; simpl; tauto.
  - rewrite Forall_forall in Hg.
    destruct (k =? key g) eqn:E; [|destruct (k <? key g) eqn:L].
    + apply Z.eqb_eq in E; intros [<- | H].
      * right; left; simpl; split; [auto|]; exists g; auto.
      * left; split; [auto|]; specialize (Hg G H); simpl in Hg; lia.
    + apply Z.ltb_lt in L; intros [<- | [<- | H]].
      * right; right; simpl; repeat split; auto.
        intros G0 [<- | H0]; [lia | specialize (Hg G0 H0); simpl in Hg; lia].
      * left; split; [auto | lia].
      * left; split; [auto|]; specialize (Hg G H); simpl in Hg; lia.
    + apply Z.eqb_neq in E; intros [<- | H]; [left; split; auto|].
      destruct (IH H) as [(H1 & H2) | [(H1 & G0 & H2 & H3) | (H1 & H2 & H3 & H4)]].
      * left; auto.
      * right; left; split; [auto|]; exists G0; auto.
      * right; right; repeat split; auto.
        intros G0 [<- | H0]; auto.
Qed.

Lemma group_add_covers (gs : list group) :
  (exists G, In G (group_add k v gs) /\ key G = k)
  /\ (forall G0, In G0 gs -> exists G, In G (group_add k v gs) /\ key G = key G0).
Proof.
  induction gs as [|g gs (IHk & IHg)]; simpl.
  - split; [eexists; split; [now left | reflexivity] | intros G0 []].
  - destruct (k =? key g) eqn:E; [|destruct (k <? key g)].
    + apply Z.eqb_eq in E; split.
      * eexists; split; [now left | simpl; auto].
      * intros G0 [<- | H0]; eexists; split;
          [now left | reflexivity | right; exact H0 | reflexivity].
    + split; [eexists; split; [now left | reflexivity]|].
      intros G0 H0; exists G0; split; [now right | reflexivity].
    + split.
      * destruct IHk as (G & HG & Hk); exists G; split; [now right | exact Hk].
      * intros G0 [<- | H0]; [exists g; split; [now left | reflexivity]|].
        destruct (IHg G0 H0) as (G & HG & Hk); exists G; split; [now right | exact Hk].
Qed.

End GroupAdd.

Lemma agg_from_fold (gs : list Pandas.group) (keys : list Z) (s : list string) :
  Pandas.agg_from gs keys s
  = fold_left (fun gs p => Pandas.group_add (fst p) (snd p) gs) (combine keys s) gs.
Proof.
  revert gs s; induction keys as [|k keys IH]; intros gs [|v s]; simpl; auto.
Qed.

Lemma agg_invariant (l : list (Z * string)) :
  let R := fold_right (fun p gs => Pandas.group_add (fst p) (snd p) gs) [] l in
  groups_sorted R
  /\ (forall G, In G R ->
        In (Pandas.key G, Pandas.first G) l
        /\ Pandas.size G = count (fun p => fst p =? Pandas.key G) l)
  /\ (forall p, In p l -> exists G, In G R /\ Pandas.key G = fst p).
Proof.
  induction l as [|[k v] l IH]; cbn zeta.
  - split; [constructor|]; split; [intros G [] | intros p []].
  - cbn zeta in IH; cbn [fold_right fst snd].
    set (R := fold_right _ [] l) in *.
    destruct IH as (Hs & Hb & Hc).
    split; [now apply group_add_sorted|]; split.
    + intros G HG; rewrite count_cons; cbn [fst].
      destruct (group_add_In k v R G Hs HG)
        as [(H1 & H2) | [(H1 & G0 & H2 & H3 & H4 & H5) | (H1 & H2 & H3 & H4)]].
      * destruct (Hb G H1) as (Hin & Hsz); split; [now right|].
        rewrite Hsz; apply Z.eqb_neq in H2; rewrite Z.eqb_sym, H2; cbn [Z.b2z]; lia.
      * destruct (Hb G0 H2) as (Hin & Hsz); split.
        -- right; now rewrite H1, H4, <- H3.
        -- rewrite H1, Z.eqb_refl, H5, Hsz, H3; cbn [Z.b2z]; lia.
      * split; [left; now rewrite H1, H2|].
        rewrite H1, Z.eqb_refl, H3.
        pose proof (count_nonneg (fun p => fst p =? k) l) as H0.
        cbn [Z.b2z].
        destruct (Z.eq_dec (count (fun p => fst p =? k) l) 0) as [->|Hn]; [reflexivity|].
        assert (Hpos : 0 < count (fun p => fst p =? k) l) by lia.
        apply count_pos_In in Hpos as (p & Hp & Hk); apply Z.eqb_eq in Hk.
        destruct (Hc p Hp) as (G0 & HG0 & HkG0).
        exfalso; apply (H4 G0 HG0); congruence.
    + destruct (group_add_covers k v R) as (Hk & Hg).
      intros p [<- | Hp]; [exact Hk|].
      destruct (Hc p Hp) as (G0 & HG0 & HkG0).
      destruct (Hg G0 HG0) as (G & HG & HkG); exists G; split; [exact HG | congruence].
Qed.

(** What [groupby(key)[c].agg(['first', 'size'])] holds. *)
Lemma groupby_agg_spec (keys : list Z) (s : list string) :
  let R := Pandas.groupby_agg_first_size keys s in
  groups_sorted R
  /\ (forall G, In G R ->
        In (Pandas.key G, Pandas.first G) (combine keys s)
        /\ Pandas.size G = count (fun p => fst p =? Pandas.key G) (combine keys s))
  /\ (forall p, In p (combine keys s) -> exists G, In G R /\ Pandas.key G = fst p).
Proof.
  cbn zeta; unfold Pandas.groupby_agg_first_size.
  rewrite agg_from_fold, <- fold_left_rev_right.
  destruct (agg_invariant (rev (combine keys s))) as (Hs & Hb & Hc).
  split; [exact Hs|]; split.
  - intros G HG; destruct (Hb G HG) as (Hin & Hsz); split.
    + now apply in_rev.
    + now rewrite Hsz, count_rev.
  - intros p Hp; apply Hc; now apply in_rev in Hp.
Qed.

(** ** Longest streaks *)

Lemma combine_columns {R A B : Type} (f : R -> A) (g : R -> B) (l : list R) :
  combine (map f l) (map g l) = map (fun r => (f r, g r)) l.
Proof.
  induction l as [|r l IH]; simpl; [reflexivity | now rewrite IH].
Qed.

Section LongestStreak.

Variable out : list AnalyzedBar.

Hypothesis groups_of_out :
  map streak_group out = streak_groups (map direction out).

Lemma streaks_rows (G : Pandas.group) :
  In G (streaks_of out) ->
  (exists a, In a out /\ streak_group a = Pandas.key G
             /\ direction a = Pandas.first G)
  /\ Pandas.size G = group_size (Pandas.key G) out.
Proof using Type.
  intros HG.
  destruct (groupby_agg_spec (map streak_group out) (map direction out))
    as (_ & Hb & _).
  destruct (Hb G HG) as (Hin & Hsz).
  rewrite combine_columns in Hin, Hsz; split.
  - apply in_map_iff in Hin as (a & Ha & Hin).
    injection Ha as H1 H2; exists a; auto.
  - now rewrite Hsz, count_map.
Qed.

Lemma streaks_cover (a : AnalyzedBar) :
  In a out -> exists G, In G (streaks_of out) /\ Pandas.key G = streak_group a.
Proof using Type.
  intros Ha.
  destruct (groupby_agg_spec (map streak_group out) (map direction out))
    as (_ & _ & Hc).
  rewrite combine_columns in Hc.
  apply (Hc (streak_group a, direction a)).
  apply in_map_iff; exists a; auto.
Qed.

Lemma streaks_of_direction (c : string) (a : AnalyzedBar) :
  In a out -> direction a = c ->
  exists G, In G (filter (fun g => (Pandas.first g =? c)%string) (streaks_of out))
            /\ Pandas.size G = group_size (streak_group a) out.
Proof using groups_of_out.
  intros Ha Hd.
  destruct (streaks_cover a Ha) as (G & HG & Hk).
  destruct (streaks_rows G HG) as ((a' & Ha' & Hk' & Hf) & Hsz).
  exists G; split; [|now rewrite Hsz, Hk].
  apply filter_In; split; [exact HG|].
  apply String.eqb_eq; rewrite <- Hf, <- Hd.
  apply (group_constant_direction out groups_of_out); congruence.
Qed.

Lemma longest_is_longest (c : string) :
  longest_streak_of c out (nan_to_zero (longest c (streaks_of out))).
Proof using groups_of_out.
  unfold longest_streak_of, longest.
  set (sizes := map Pandas.size (filter _ (streaks_of out))).
  assert (Hmax : forall a, In a out -> direction a = c ->
            exists m, Pandas.max sizes = Some m
                      /\ group_size (streak_group a) out <= m).
  { intros a Ha Hd.
    destruct (streaks_of_direction c a Ha Hd) as (G & HG & Hsz).
    assert (Hin : In (Pandas.size G) sizes) by now apply in_map.
    destruct (Pandas.max sizes) as [m|] eqn:E.
    - exists m; split; [reflexivity|].
      rewrite <- Hsz; now apply (max_Some sizes m E).
    - apply max_None in E; rewrite E in Hin; contradiction. }
  assert (Hrow : forall m, Pandas.max sizes = Some m ->
            exists a, In a out /\ direction a = c
                      /\ group_size (streak_group a) out = m).
  { intros m E.
    destruct (max_Some sizes m E) as (Hin & _).
    apply in_map_iff in Hin as (G & Hsz & HG).
    apply filter_In in HG as (HG & Hf); apply String.eqb_eq in Hf.
    destruct (streaks_rows G HG) as ((a & Ha & Hk & Hd) & Hsz').
    exists a; repeat split; [exact Ha | congruence | congruence]. }
  split; [|split].
  - intros a Ha Hd.
    destruct (Hmax a Ha Hd) as (m & -> & Hle); exact Hle.
  - intros (a & Ha & Hd).
    destruct (Hmax a Ha Hd) as (m & E & _); rewrite E; now apply Hrow.
  - intros Hnone.
    destruct (Pandas.max sizes) as [m|] eqn:E; [|reflexivity].
    destruct (Hrow m eq_refl) as (a & Ha & Hd & _).
    exfalso; exact (Hnone a Ha Hd).
Qed.

End LongestStreak.

(** The streak entries of the summary depend on the [Direction] column only. *)
Lemma run_analysis_streaks_directions (df : list PriceBar) (pm : Q) (pd : Z) :
  df <> [] ->
  let directions := map Direction df in
  let streaks := Pandas.groupby_agg_first_size (streak_groups directions) directions in
  exists s,
    snd (run_analysis df pm pd) = Some s
    /\ longest_up_streak s = nan_to_zero (longest "UP" streaks)
    /\ longest_down_streak s = nan_to_zero (longest "DOWN" streaks)
    /\ longest_break_even_streak s = nan_to_zero (longest "Break Even" streaks).
Proof.
  intros Hne; destruct df as [|r0 df']; [contradiction|].
  eexists; split; [reflexivity|]; repeat split.
Qed.

(** The streak entries of the summary, in terms of the enriched frame. *)
Lemma run_analysis_streaks (df : list PriceBar) (pm : Q) (pd : Z) :
  df <> [] ->
  let out := fst (run_analysis df pm pd) in
  let streaks :=
    Pandas.groupby_agg_first_size
      (map streak_group out) (map (fun a => Direction (bar a)) out) in
  exists s,
    snd (run_analysis df pm pd) = Some s
    /\ longest_up_streak s = nan_to_zero (longest "UP" streaks)
    /\ longest_down_streak s = nan_to_zero (longest "DOWN" streaks)
    /\ longest_break_even_streak s = nan_to_zero (longest "Break Even" streaks).
Proof.
  intros Hne out streaks.
  destruct (run_analysis_columns df pm pd) as (Hb & _ & _ & _ & Hg).
  fold out in Hb, Hg.
  assert (Hd : map (fun a => Direction (bar a)) out = map Direction df)
    by now rewrite <- (map_map bar Direction out), Hb.
  subst streaks; rewrite Hg, Hd.
  exact (run_analysis_streaks_directions df pm pd Hne).
Qed.

(** C2.  For a non-empty input every streak group has one direction, and
    each of [longest_up_streak], [longest_down_streak] and
    [longest_break_even_streak] is the largest size of a streak group of
    that direction, or 0 when the direction does not occur.  A single row
    gives 1 for its own direction and 0 for the others; five UP rows
    followed by two DOWN rows give 5, 2 and 0. *)
Theorem C2_longest_streaks :
  (forall (df : list PriceBar) (pm : Q) (pd : Z),
      df <> [] ->
      let out := fst (run_analysis df pm pd) in
      exists s,
        snd (run_analysis df pm pd) = Some s
        /\ (forall a b, In a out -> In b out ->
                        streak_group a = streak_group b ->
                        Direction (bar a) = Direction (bar b))
        /\ longest_streak_of "UP" out (longest_up_streak s)
        /\ longest_streak_of "DOWN" out (longest_down_streak s)
        /\ longest_streak_of "Break Even" out (longest_break_even_streak s))
  /\ (forall (r : PriceBar) (pm : Q) (pd : Z),
        exists s,
          snd (run_analysis [r] pm pd) = Some s
          /\ longest_up_streak s = (if (Direction r =? "UP")%string then 1 else 0)
          /\ longest_down_streak s = (if (Direction r =? "DOWN")%string then 1 else 0)
          /\ longest_break_even_streak s
             = (if (Direction r =? "Break Even")%string then 1 else 0))
  /\ (forall (df : list PriceBar) (pm : Q) (pd : Z),
        map Direction df = ["UP"; "UP"; "UP"; "UP"; "UP"; "DOWN"; "DOWN"]%string ->
        exists s,
          snd (run_analysis df pm pd) = Some s
          /\ longest_up_streak s = 5
          /\ longest_down_streak s = 2
          /\ longest_break_even_streak s = 0).
Proof.
  split; [|split].
  - intros df pm pd Hne out.
    pose proof (enriched_groups df pm pd) as Hg; fold out in Hg.
    destruct (run_analysis_streaks df pm pd Hne) as (s & Hs & Hu & Hd & Hb).
    fold out in Hu, Hd, Hb.
    exists s; split; [exact Hs|]; split.
    + exact (group_constant_direction out Hg).
    + rewrite Hu, Hd, Hb; repeat split; apply (longest_is_longest out Hg).
  - intros r pm pd.
    eexists; split; [reflexivity|].
    cbn [longest_up_streak longest_down_streak longest_break_even_streak].
    unfold longest, Pandas.col; cbn [map streak_groups Pandas.groupby_agg_first_size
      Pandas.agg_from Pandas.group_add Pandas.cumsum Pandas.cumsum_from Pandas.shift
      Pandas.shift_from Pandas.map2 filter Pandas.first].
    repeat split; match goal with |- context [(?a =? ?b)%string] =>
      destruct (a =? b)%string end; reflexivity.
  - intros df pm pd Hdirs.
    assert (Hne : df <> []) by (intros ->; discriminate).
    destruct (run_analysis_streaks_directions df pm pd Hne) as (s & Hs & Hu & Hd & Hb).
    rewrite Hdirs in Hu, Hd, Hb.
    exists s; repeat split; assumption.
Qed.

Lemma C2_longest_streaks_witness :
  scenario_B <> []
  /\ map Direction scenario_B = ["UP"; "UP"; "UP"; "UP"; "UP"; "DOWN"; "DOWN"]%string
  /\ (let out := fst (run_analysis scenario_B 10 2) in
      exists s,
        snd (run_analysis scenario_B 10 2) = Some s
        /\ (forall a b, In a out -> In b out ->
                        streak_group a = streak_group b ->
                        Direction (bar a) = Direction (bar b))
        /\ longest_streak_of "UP" out (longest_up_streak s)
        /\ longest_streak_of "DOWN" out (longest_down_streak s)
        /\ longest_streak_of "Break Even" out (longest_break_even_streak s))
  /\ (exists s,
        snd (run_analysis scenario_B 10 2) = Some s
        /\ longest_up_streak s = 5
        /\ longest_down_streak s = 2
        /\ longest_break_even_streak s = 0).
Proof.
  split; [discriminate|]; split; [reflexivity|]; split.
  - apply (proj1 C2_longest_streaks scenario_B 10%Q 2); discriminate.
  - apply (proj2 (proj2 C2_longest_streaks) scenario_B 10%Q 2); reflexivity.
Defined.

(** ** Point totals *)

Lemma loc_map_filter {R A : Type} (p : R -> bool) (f : R -> A) (l : list R) :
  Pandas.loc (map p l) (map f l) = map f (filter p l).
Proof.
  induction l as [|r l IH]; simpl; [reflexivity|].
  destruct (p r); simpl; now rewrite IH.
Qed.

(** The point totals of the summary, in terms of the enriched frame. *)
Lemma run_analysis_points (df : list PriceBar) (pm : Q) (pd : Z) :
  df <> [] ->
  let out := fst (run_analysis df pm pd) in
  exists s,
    snd (run_analysis df pm pd) = Some s
    /\ total_up_points_display s
       = Pandas.sum (map Points_Display (filter is_up out))
    /\ total_down_points_display s
       = Pandas.sum (map (fun a => Qabs (Points_Display a)) (filter is_down out))
    /\ net_points_display s = Pandas.sum (map Points_Display out).
Proof.
  intros Hne; destruct df as [|r0 df']; [contradiction|].
  cbv zeta; eexists; split; [reflexivity|].
  cbn [total_up_points_display total_down_points_display net_points_display fst].
  unfold Pandas.col; rewrite !loc_map_filter.
  repeat split; rewrite ?(map_map Points_Display Qabs); reflexivity.
Qed.

Lemma sum_abs_nonpos (l : list Q) :
  (forall x, In x l -> (x <= 0)%Q) ->
  (Pandas.sum (map Qabs l) == - Pandas.sum l)%Q.
Proof.
  induction l as [|x l IH]; intros H; simpl; [reflexivity|].
  rewrite IH by (intros y Hy; apply H; now right).
  rewrite (Qabs_neg x) by (apply H; now left).
  ring.
Qed.

Lemma sum_abs_nonneg (l : list Q) :
  (forall x, In x l -> (0 <= x)%Q) ->
  (Pandas.sum (map Qabs l) == Pandas.sum l)%Q.
Proof.
  induction l as [|x l IH]; intros H; simpl; [reflexivity|].
  rewrite IH by (intros y Hy; apply H; now right).
  rewrite (Qabs_pos x) by (apply H; now left).
  reflexivity.
Qed.

(** The global sum splits along the masks when every other row is flat. *)
Lemma sum_by_direction (l : list AnalyzedBar) :
  (forall a, In a l -> is_up a = false -> is_down a = false ->
             (Points_Display a == 0)%Q) ->
  (Pandas.sum (map Points_Display l)
   == Pandas.sum (map Points_Display (filter is_up l))
      + Pandas.sum (map Points_Display (filter is_down l)))%Q.
Proof.
  induction l as [|a l IH]; intros H; simpl; [reflexivity|].
  rewrite IH by (intros b Hb; apply H; now right).
  destruct (is_up a) eqn:U.
  - assert (D : is_down a = false).
    { unfold is_up, is_down in *; apply String.eqb_eq in U; now rewrite U. }
    rewrite D; simpl; ring.
  - destruct (is_down a) eqn:D; simpl; [ring|].
    rewrite (H a (or_introl eq_refl) U D); ring.
Qed.

Lemma sum_nonneg (l : list Q) :
  (forall x, In x l -> (0 <= x)%Q) -> (0 <= Pandas.sum l)%Q.
Proof.
  induction l as [|x l IH]; intros H; simpl; [apply Qle_refl|].
  replace 0%Q with (0 + 0)%Q by reflexivity.
  apply Qplus_le_compat; [apply H; now left | apply IH; intros y Hy; apply H; now right].
Qed.

Lemma sum_abs_same_sign (l : list Q) :
  (forall x, In x l -> (x <= 0)%Q) \/ (forall x, In x l -> (0 <= x)%Q) ->
  (Pandas.sum (map Qabs l) == Qabs (Pandas.sum l))%Q.
Proof.
  assert (Habs : (0 <= Pandas.sum (map Qabs l))%Q).
  { apply sum_nonneg; intros x Hx.
    apply in_map_iff in Hx as (y & <- & _); apply Qabs_nonneg. }
  intros [H | H].
  - pose proof (sum_abs_nonpos l H) as E.
    rewrite <- (Qabs_pos _ Habs), E; apply Qabs_opp.
  - pose proof (sum_abs_nonneg l H) as E.
    rewrite <- (Qabs_pos _ Habs), E; reflexivity.
Qed.

Lemma Qmult_nonpos_nonneg (x y : Q) : (x <= 0)%Q -> (0 <= y)%Q -> (x * y <= 0)%Q.
Proof.
  destruct x as [a b], y as [c d]; unfold Qle, Qmult; cbn [Qnum Qden]; nia.
Qed.

Lemma Qmult_nonpos_nonpos (x y : Q) : (x <= 0)%Q -> (y <= 0)%Q -> (0 <= x * y)%Q.
Proof.
  destruct x as [a b], y as [c d]; unfold Qle, Qmult; cbn [Qnum Qden]; nia.
Qed.

Lemma Qminus_neg (x y : Q) : (x < y)%Q -> (x - y <= 0)%Q.
Proof.
  intros H; apply Qlt_le_weak; now apply Qlt_minus_iff in H as H';
    rewrite Qlt_minus_iff; setoid_replace (0 - (x - y))%Q with (y + - x)%Q by ring.
Qed.

(** What the classification says about a row of the enriched frame. *)
Lemma classified_row (df : list PriceBar) (pm : Q) (pd : Z) (a : AnalyzedBar) :
  directions_classified df ->
  In a (fst (run_analysis df pm pd)) ->
  Points_Display a = ((Close (bar a) - Open (bar a)) * pm)%Q
  /\ (is_down a = true -> (Close (bar a) - Open (bar a) <= 0)%Q)
  /\ (is_up a = false -> is_down a = false -> (Points_Display a == 0)%Q).
Proof.
  intros Hc Ha.
  destruct (run_analysis_columns df pm pd) as (Hb & _ & _ & Hd & _).
  pose proof (columns_rowwise Points_Display bar _ _ df Hb Hd a Ha) as Hp.
  assert (Hin : In (bar a) df) by (rewrite <- Hb; now apply in_map).
  destruct (Hc (bar a) Hin) as (Hu & Hdn & He).
  split; [exact Hp|]; split.
  - intros D; apply String.eqb_eq in D; apply Qminus_neg; now apply Hdn.
  - intros U D; rewrite Hp.
    apply String.eqb_neq in U, D.
    destruct (Q_dec (Close (bar a)) (Open (bar a))) as [[L | L] | E].
    + exfalso; apply D; now apply Hdn.
    + exfalso; apply U; now apply Hu.
    + rewrite E; ring.
Qed.

Lemma down_points_same_sign (df : list PriceBar) (pm : Q) (pd : Z) :
  directions_classified df ->
  let l := map Points_Display (filter is_down (fst (run_analysis df pm pd))) in
  ((0 <= pm)%Q -> forall x, In x l -> (x <= 0)%Q)
  /\ ((pm <= 0)%Q -> forall x, In x l -> (0 <= x)%Q).
Proof.
  intros Hc l; split; intros Hpm x Hx;
    apply in_map_iff in Hx as (a & <- & Ha);
    apply filter_In in Ha as (Ha & D);
    destruct (classified_row df pm pd a Hc Ha) as (-> & Hneg & _).
  - apply Qmult_nonpos_nonneg; auto.
  - apply Qmult_nonpos_nonpos; auto.
Qed.

(** With classified directions every row's points are what the row adds to
    the up total minus (for a non-negative multiplier) or plus (for a
    non-positive one) what it adds to the down total. *)
Lemma classified_points_by_direction (df : list PriceBar) (pm : Q) (pd : Z)
    (a : AnalyzedBar) :
  directions_classified df ->
  In a (fst (run_analysis df pm pd)) ->
  ((0 <= pm)%Q ->
   (Points_Display a
    == (if is_up a then Points_Display a else 0)
       - (if is_down a then Qabs (Points_Display a) else 0))%Q)
  /\ ((pm <= 0)%Q ->
      (Points_Display a
       == (if is_up a then Points_Display a else 0)
          + (if is_down a then Qabs (Points_Display a) else 0))%Q).
Proof.
  intros Hc Ha.
  destruct (classified_row df pm pd a Hc Ha) as (Hp & Hdown & Hzero).
  assert (Hex : is_up a = true -> is_down a = true -> False).
  { unfold is_up, is_down; intros U D.
    apply String.eqb_eq in U; rewrite U in D; discriminate. }
  split; intros Hpm; destruct (is_up a) eqn:U, (is_down a) eqn:D;
    try (exfalso; now apply Hex); try ring;
    try (rewrite (Hzero eq_refl eq_refl); reflexivity).
  - assert (L : (Points_Display a <= 0)%Q)
      by (rewrite Hp; apply Qmult_nonpos_nonneg; auto).
    rewrite (Qabs_neg _ L); ring.
  - assert (L : (0 <= Points_Display a)%Q)
      by (rewrite Hp; apply Qmult_nonpos_nonpos; auto).
    rewrite (Qabs_pos _ L); ring.
Qed.

(** C6 (as the code has it).  For a non-empty input
    [total_up_points_display] is the plain sum of [Points_Display] over the
    rows of direction UP, and [total_down_points_display] is the sum of the
    absolute values of [Points_Display] over the rows of direction DOWN:
    the absolute value is taken row by row, before the sum.  It equals the
    absolute value of the sum when the DOWN rows' points all have the same
    sign, in particular when the directions classify close against open. *)
Theorem C6_point_totals (df : list PriceBar) (pm : Q) (pd : Z) :
  df <> [] ->
  let out := fst (run_analysis df pm pd) in
  let down_points := map Points_Display (filter is_down out) in
  exists s,
    snd (run_analysis df pm pd) = Some s
    /\ total_up_points_display s = Pandas.sum (map Points_Display (filter is_up out))
    /\ total_down_points_display s = Pandas.sum (map Qabs down_points)
    /\ ((forall x, In x down_points -> (x <= 0)%Q)
        \/ (forall x, In x down_points -> (0 <= x)%Q) ->
        (total_down_points_display s == Qabs (Pandas.sum down_points))%Q)
    /\ (directions_classified df ->
        (total_down_points_display s == Qabs (Pandas.sum down_points))%Q).
Proof.
  intros Hne out down_points.
  destruct (run_analysis_points df pm pd Hne) as (s & Hs & Hu & Hd & _).
  fold out in Hu, Hd.
  assert (Hd' : total_down_points_display s = Pandas.sum (map Qabs down_points))
    by (unfold down_points; now rewrite map_map).
  exists s; repeat split; try assumption.
  - intros Hsign; rewrite Hd'; now apply sum_abs_same_sign.
  - intros Hc; rewrite Hd'; apply sum_abs_same_sign.
    destruct (down_points_same_sign df pm pd Hc) as (Hpos & Hneg).
    destruct (Qlt_le_dec pm 0) as [L | L];
      [right; apply Hneg; now apply Qlt_le_weak | left; now apply Hpos].
Qed.

Lemma C6_point_totals_witness :
  scenario_A <> []
  /\ let out := fst (run_analysis scenario_A 10 2) in
     let down_points := map Points_Display (filter is_down out) in
     exists s,
       snd (run_analysis scenario_A 10 2) = Some s
       /\ total_up_points_display s = Pandas.sum (map Points_Display (filter is_up out))
       /\ total_down_points_display s = Pandas.sum (map Qabs down_points)
       /\ ((forall x, In x down_points -> (x <= 0)%Q)
           \/ (forall x, In x down_points -> (0 <= x)%Q) ->
           (total_down_points_display s == Qabs (Pandas.sum down_points))%Q)
       /\ (directions_classified scenario_A ->
           (total_down_points_display s == Qabs (Pandas.sum down_points))%Q).
Proof.
  split; [discriminate | apply (C6_point_totals scenario_A 10 2); discriminate].
Defined.

(** C6, as stated, fails: on two rows labelled DOWN with points +50 and
    -50 the code reports 100, while the absolute value of their sum is 0. *)
Lemma C6_sum_then_abs_counterexample :
  mislabelled <> []
  /\ exists s,
       snd (run_analysis mislabelled 10 2) = Some s
       /\ (total_down_points_display s == 100)%Q
       /\ (Qabs (Pandas.sum (map Points_Display
                   (filter is_down (fst (run_analysis mislabelled 10 2))))) == 0)%Q
       /\ ~ (total_down_points_display s
             == Qabs (Pandas.sum (map Points_Display
                        (filter is_down (fst (run_analysis mislabelled 10 2))))))%Q.
Proof.
  split; [discriminate|].
  eexists; split; [reflexivity|]; repeat split; discriminate.
Qed.

(** C7 (amended).  For a non-empty input [net_points_display] is the sum
    of [Points_Display] over all rows, that is the sum of
    [(Close - Open) * point_multiplier] over the input rows, whatever their
    directions.  When the directions classify close against open and the
    multiplier is non-negative, every row's points are what the row adds to
    [total_up_points_display] minus what it adds to
    [total_down_points_display] (plus, for a non-positive multiplier).
    The three totals are sums of these columns, each rounded on its own:
    the net and the difference of the two totals agree up to that
    rounding, which is why no equality between them is stated. *)
Theorem C7_net_points (df : list PriceBar) (pm : Q) (pd : Z) :
  df <> [] ->
  let out := fst (run_analysis df pm pd) in
  exists s,
    snd (run_analysis df pm pd) = Some s
    /\ net_points_display s = Pandas.sum (map Points_Display out)
    /\ net_points_display s
       = Pandas.sum (map (fun r => ((Close r - Open r) * pm)%Q) df)
    /\ total_up_points_display s = Pandas.sum (map Points_Display (filter is_up out))
    /\ total_down_points_display s
       = Pandas.sum (map (fun a => Qabs (Points_Display a)) (filter is_down out))
    /\ (directions_classified df -> (0 <= pm)%Q ->
        forall a, In a out ->
          (Points_Display a
           == (if is_up a then Points_Display a else 0)
              - (if is_down a then Qabs (Points_Display a) else 0))%Q)
    /\ (directions_classified df -> (pm <= 0)%Q ->
        forall a, In a out ->
          (Points_Display a
           == (if is_up a then Points_Display a else 0)
              + (if is_down a then Qabs (Points_Display a) else 0))%Q).
Proof.
  intros Hne out.
  destruct (run_analysis_points df pm pd Hne) as (s & Hs & Hu & Hd & Hn).
  fold out in Hu, Hd, Hn.
  destruct (run_analysis_columns df pm pd) as (_ & _ & _ & Hcol & _).
  fold out in Hcol.
  exists s; split; [exact Hs|]; split; [exact Hn|]; split; [now rewrite Hn, Hcol|].
  split; [exact Hu|]; split; [exact Hd|].
  split; intros Hc Hpm a Ha;
    now apply (classified_points_by_direction df pm pd a Hc Ha).
Qed.

Lemma scenario_A_classified : directions_classified scenario_A.
Proof.
  intros r [<- | [<- | [<- | []]]]; cbn [Direction Open Close];
    repeat split; intros H;
    first [ reflexivity | discriminate H
          | unfold Qlt, Qeq in *; cbn [Qnum Qden] in *; lia ].
Qed.

Lemma C7_net_points_witness :
  scenario_A <> []
  /\ directions_classified scenario_A
  /\ let out := fst (run_analysis scenario_A 10 2) in
     exists s,
       snd (run_analysis scenario_A 10 2) = Some s
       /\ net_points_display s = Pandas.sum (map Points_Display out)
       /\ net_points_display s
          = Pandas.sum (map (fun r => ((Close r - Open r) * 10)%Q) scenario_A)
       /\ total_up_points_display s = Pandas.sum (map Points_Display (filter is_up out))
       /\ total_down_points_display s
          = Pandas.sum (map (fun a => Qabs (Points_Display a)) (filter is_down out))
       /\ (directions_classified scenario_A -> (0 <= 10)%Q ->
           forall a, In a out ->
             (Points_Display a
              == (if is_up a then Points_Display a else 0)
                 - (if is_down a then Qabs (Points_Display a) else 0))%Q)
       /\ (directions_classified scenario_A -> (10 <= 0)%Q ->
           forall a, In a out ->
             (Points_Display a
              == (if is_up a then Points_Display a else 0)
                 + (if is_down a then Qabs (Points_Display a) else 0))%Q).
Proof.
  split; [discriminate|]; split; [exact scenario_A_classified|].
  apply (C7_net_points scenario_A 10 2); discriminate.
Defined.

(** C7, as stated, fails for a negative multiplier: on Scenario A with
    multiplier -10 the net is 0 while the difference of the two totals
    is -100. *)
Lemma C7_negative_multiplier_counterexample :
  scenario_A <> []
  /\ directions_classified scenario_A
  /\ exists s,
       snd (run_analysis scenario_A (-10) 2) = Some s
       /\ (net_points_display s == 0)%Q
       /\ (total_up_points_display s - total_down_points_display s == -100)%Q
       /\ ~ (net_points_display s
             == total_up_points_display s - total_down_points_display s)%Q.
Proof.
  split; [discriminate|]; split; [exact scenario_A_classified|].
  eexists; split; [reflexivity|]; repeat split; discriminate.
Qed.

(** ** Cross-tabulation *)

Section CrossTab.

Import Pandas.

Lemma label_pair_eqb_spec (a b : string * string) :
  reflect (a = b) (label_pair_eqb a b).
Proof.
  destruct a as [a1 a2], b as [b1 b2]; unfold label_pair_eqb; cbn [fst snd].
  destruct (String.eqb_spec a1 b1) as [->|N1];
    [destruct (String.eqb_spec a2 b2) as [->|N2]|]; constructor; congruence.
Qed.

Lemma lookup_count_add (k k' : string * string) (s : counts) :
  lookup k (count_add k' s)
  = if label_pair_eqb k k' then Some (count_of (lookup k s) + 1) else lookup k s.
Proof.
  induction s as [|[k0 n] s IH]; cbn [count_add lookup].
  - destruct (label_pair_eqb k k'); reflexivity.
  - destruct (label_pair_eqb_spec k' k0) as [->|N]; cbn [lookup].
    + destruct (label_pair_eqb k k0); reflexivity.
    + rewrite IH.
      destruct (label_pair_eqb_spec k k0) as [->|N0]; [|reflexivity].
      destruct (label_pair_eqb_spec k0 k') as [E|_]; [congruence | reflexivity].
Qed.

Lemma lookup_fold_count_add (k : string * string) (l : list (string * string)) :
  forall s : counts,
    count_of (lookup k (fold_left (fun s kc => count_add kc s) l s))
    = count_of (lookup k s) + count (label_pair_eqb k) l.
Proof.
  induction l as [|k' l IH]; intros s; cbn [fold_left].
  - unfold count; simpl; lia.
  - rewrite IH, lookup_count_add, count_cons.
    destruct (label_pair_eqb k k'); cbn [count_of Z.b2z]; lia.
Qed.

Lemma count_add_keys (k k' : string * string) (s : counts) :
  In k (map fst (count_add k' s)) <-> k = k' \/ In k (map fst s).
Proof.
  induction s as [|[k0 n] s IH]; cbn [count_add map fst In].
  - intuition auto.
  - destruct (label_pair_eqb_spec k' k0) as [->|N]; cbn [map fst In].
    + intuition auto.
    + rewrite IH; intuition auto.
Qed.

Lemma fold_count_add_keys (k : string * string) (l : list (string * string)) :
  forall s : counts,
    In k (map fst (fold_left (fun s kc => count_add kc s) l s))
    <-> In k l \/ In k (map fst s).
Proof.
  induction l as [|k' l IH]; intros s; cbn [fold_left In].
  - intuition auto.
  - rewrite IH, count_add_keys; intuition auto.
Qed.

Lemma label_add_In (x y : string) (l : list string) :
  In y (label_add x l) <-> y = x \/ In y l.
Proof.
  induction l as [|z l IH]; cbn [label_add In]; [intuition auto|].
  destruct (String.compare x z) eqn:E; cbn [In].
  - apply String.compare_eq_iff in E; subst z; intuition auto.
  - intuition auto.
  - rewrite IH; intuition auto.
Qed.

Lemma labels_In (y : string) (l : list string) : In y (labels l) <-> In y l.
Proof.
  induction l as [|x l IH]; cbn [labels fold_right In]; [tauto|].
  fold (labels l); rewrite label_add_In, IH; intuition auto.
Qed.

Lemma position_Some (x : string) (l : list string) (i : nat) :
  position x l = Some i -> nth_error l i = Some x.
Proof.
  revert i; induction l as [|y l IH]; intros i; cbn [position]; [discriminate|].
  destruct (String.eqb_spec x y) as [->|N].
  - intros H; injection H as <-; reflexivity.
  - destruct (position x l) as [j|]; [|discriminate].
    intros H; injection H as <-; cbn [nth_error]; now apply IH.
Qed.

Lemma position_None (x : string) (l : list string) :
  position x l = None -> ~ In x l.
Proof.
  induction l as [|y l IH]; cbn [position In]; [tauto|].
  destruct (String.eqb_spec x y) as [->|N]; [discriminate|].
  destruct (position x l); [discriminate|].
  intros _ [E | H]; [congruence | now apply IH].
Qed.

Lemma nth_map_at {A B : Type} (g : A -> B) (l : list A) (i : nat) (x : A) (d : B) :
  nth_error l i = Some x -> nth i (map g l) d = g x.
Proof.
  intros H; apply nth_error_nth; rewrite nth_error_map, H; reflexivity.
Qed.

Lemma nth_repeat_same {A : Type} (x : A) (n i : nat) : nth i (repeat x n) x = x.
Proof.
  revert i; induction n as [|n IH]; intros [|i]; cbn [repeat nth]; auto.
Qed.

(** The table [unstack] builds from the counts of a list of label pairs,
    reindexed on both axes, holds in each cell the number of
    occurrences of the cell's pair of labels. *)
Lemma reindexed_counts (ks cs new_index new_columns : list string) :
  reindex_columns
    (reindex_index (unstack (groupby_value_counts ks cs) 0) new_index 0)
    new_columns 0
  = mkTable new_index new_columns
      (map (fun d => map (fun c => count (label_pair_eqb (d, c)) (combine ks cs))
                         new_columns) new_index).
Proof.
  unfold reindex_columns, reindex_index, unstack; cbn [index columns values].
  set (vc := groupby_value_counts ks cs).
  set (idx := labels (map (fun e => fst (fst e)) vc)).
  set (cols := labels (map (fun e => snd (fst e)) vc)).
  assert (Hcell : forall d c,
            count_of (lookup (d, c) vc) = count (label_pair_eqb (d, c)) (combine ks cs)).
  { intros d c; unfold vc, groupby_value_counts.
    rewrite lookup_fold_count_add; cbn [lookup count_of]; lia. }
  assert (Hkeys : forall d c,
            0 < count (label_pair_eqb (d, c)) (combine ks cs) ->
            In d idx /\ In c cols).
  { intros d c Hpos.
    apply count_pos_In in Hpos as (p & Hp & E).
    destruct (label_pair_eqb_spec (d, c) p) as [<-|]; [|discriminate].
    assert (Hin : In (d, c) (map fst vc)).
    { unfold vc, groupby_value_counts; apply fold_count_add_keys; now left. }
    apply in_map_iff in Hin as (e & He & Hin).
    split; [apply labels_In | apply labels_In]; apply in_map_iff; exists e;
      rewrite He; auto. }
  f_equal; rewrite map_map; apply map_ext; intros d.
  apply map_ext; intros c.
  pose proof (count_nonneg (label_pair_eqb (d, c)) (combine ks cs)) as H0.
  assert (Hzero : ~ (In d idx /\ In c cols) ->
            0 = count (label_pair_eqb (d, c)) (combine ks cs)).
  { intros Hn.
    destruct (Z.eq_dec (count (label_pair_eqb (d, c)) (combine ks cs)) 0)
      as [E|E]; [now rewrite E|].
    exfalso; apply Hn, Hkeys; lia. }
  destruct (position c cols) as [j|] eqn:Pc.
  2:{ apply position_None in Pc; apply Hzero; tauto. }
  apply position_Some in Pc.
  destruct (position d idx) as [i|] eqn:Pd.
  2:{ apply position_None in Pd; rewrite nth_repeat_same; apply Hzero; tauto. }
  apply position_Some in Pd.
  rewrite (nth_map_at _ idx i d [] Pd), (nth_map_at _ cols j c 0 Pc).
  rewrite <- Hcell; destruct (lookup (d, c) vc); reflexivity.
Qed.

End CrossTab.

(** ** The day-of-week distribution *)

Lemma distribution_closed_form (df : list AnalyzedBar) :
  df <> [] ->
  calculate_day_of_week_distribution df = weekday_table (fun d c => cell_count d c df).
Proof.
  intros Hne; destruct df as [|a0 df']; [contradiction|].
  unfold calculate_day_of_week_distribution, Pandas.col.
  rewrite reindexed_counts, combine_columns.
  unfold weekday_table; f_equal.
  apply map_ext; intros d; apply map_ext; intros c.
  rewrite count_map; apply count_ext; intros a _.
  unfold Pandas.label_pair_eqb; cbn [fst snd].
  now rewrite (String.eqb_sym d), (String.eqb_sym c).
Qed.

Lemma cell_count_cons (d c : string) (a : AnalyzedBar) (df : list AnalyzedBar) :
  cell_count d c (a :: df)
  = Z.b2z ((Day_Name a =? d)%string && (Direction (bar a) =? c)%string)
    + cell_count d c df.
Proof. unfold cell_count; now rewrite count_cons. Qed.

Lemma weekday_table_total (df : list AnalyzedBar) :
  table_total (weekday_table (fun d c => cell_count d c df))
  = count (fun a => is_weekday a && known_direction a) df.
Proof.
  unfold table_total, weekday_table, days_order, directions_order;
    cbn [Pandas.values map fold_right].
  induction df as [|a df IH]; [reflexivity|].
  rewrite count_cons, <- IH, !cell_count_cons.
  unfold is_weekday, known_direction, days_order, directions_order;
    cbn [existsb].
  assert (Hdir : forall b1 : bool,
    Z.b2z (b1 && (Direction (bar a) =? "UP")%string)
    + Z.b2z (b1 && (Direction (bar a) =? "DOWN")%string)
    + Z.b2z (b1 && (Direction (bar a) =? "Break Even")%string)
    = Z.b2z (b1 && ((Direction (bar a) =? "UP")%string
                    || ((Direction (bar a) =? "DOWN")%string
                        || ((Direction (bar a) =? "Break Even")%string || false))))).
  { intros b1.
    destruct (String.eqb_spec (Direction (bar a)) "UP") as [->|];
      [destruct b1; reflexivity|].
    destruct (String.eqb_spec (Direction (bar a)) "DOWN") as [->|];
      [destruct b1; reflexivity|].
    destruct (Direction (bar a) =? "Break Even")%string; destruct b1; reflexivity. }
  set (k := (Direction (bar a) =? "UP")%string
            || ((Direction (bar a) =? "DOWN")%string
                || ((Direction (bar a) =? "Break Even")%string || false))) in *.
  assert (Hday :
    Z.b2z ((Day_Name a =? "Monday")%string && k)
    + Z.b2z ((Day_Name a =? "Tuesday")%string && k)
    + Z.b2z ((Day_Name a =? "Wednesday")%string && k)
    + Z.b2z ((Day_Name a =? "Thursday")%string && k)
    + Z.b2z ((Day_Name a =? "Friday")%string && k)
    = Z.b2z (((Day_Name a =? "Monday")%string
              || ((Day_Name a =? "Tuesday")%string
                  || ((Day_Name a =? "Wednesday")%string
                      || ((Day_Name a =? "Thursday")%string
                          || ((Day_Name a =? "Friday")%string || false))))) && k)).
  { destruct (String.eqb_spec (Day_Name a) "Monday") as [->|];
      [destruct k; reflexivity|].
    destruct (String.eqb_spec (Day_Name a) "Tuesday") as [->|];
      [destruct k; reflexivity|].
    destruct (String.eqb_spec (Day_Name a) "Wednesday") as [->|];
      [destruct k; reflexivity|].
    destruct (String.eqb_spec (Day_Name a) "Thursday") as [->|];
      [destruct k; reflexivity|].
    destruct (Day_Name a =? "Friday")%string; destruct k; reflexivity. }
  rewrite <- Hday.
  rewrite <- !Hdir.
  lia.
Qed.

Lemma distribution_total (df : list AnalyzedBar) :
  df <> [] ->
  table_total (calculate_day_of_week_distribution df)
  = count (fun a => is_weekday a && known_direction a) df.
Proof.
  intros Hne; rewrite (distribution_closed_form df Hne); apply weekday_table_total.
Qed.

(** C8 (amended).  For a non-empty enriched frame the distribution has
    exactly the rows Monday..Friday and the columns UP, DOWN, Break Even,
    in these orders, and each cell holds the number of rows of that
    weekday and direction (0 when there is none).  The cells add up to the
    number of weekday rows whose direction is one of the three labels; this
    is at most the number of weekday rows, which is at most the number of
    rows, and it is the number of weekday rows when every weekday row
    carries one of the three labels. *)
Theorem C8_day_of_week_distribution (df : list AnalyzedBar) :
  df <> [] ->
  let t := calculate_day_of_week_distribution df in
  Pandas.index t = ["Monday"; "Tuesday"; "Wednesday"; "Thursday"; "Friday"]%string
  /\ Pandas.columns t = ["UP"; "DOWN"; "Break Even"]%string
  /\ Pandas.values t
     = map (fun d => map (fun c => cell_count d c df) directions_order) days_order
  /\ table_total t = count (fun a => is_weekday a && known_direction a) df
  /\ table_total t <= count is_weekday df
  /\ count is_weekday df <= Z.of_nat (List.length df)
  /\ ((forall a, In a df -> is_weekday a = true -> known_direction a = true) ->
      table_total t = count is_weekday df).
Proof.
  intros Hne t.
  pose proof (distribution_total df Hne) as Htot; fold t in Htot.
  pose proof (count_split is_weekday known_direction df) as Hsplit.
  pose proof (count_nonneg (fun a => is_weekday a && negb (known_direction a)) df) as H0.
  unfold t at 1 2 3; rewrite (distribution_closed_form df Hne).
  repeat split; try reflexivity; try assumption; try lia.
  - apply count_le_length.
  - intros Hknown; rewrite Htot; apply count_ext; intros a Ha.
    destruct (is_weekday a) eqn:W; [now rewrite (Hknown a Ha W) | reflexivity].
Qed.

Lemma C8_day_of_week_distribution_witness :
  fst (run_analysis scenario_B 10 2) <> []
  /\ let df := fst (run_analysis scenario_B 10 2) in
     let t := calculate_day_of_week_distribution df in
     Pandas.index t = ["Monday"; "Tuesday"; "Wednesday"; "Thursday"; "Friday"]%string
     /\ Pandas.columns t = ["UP"; "DOWN"; "Break Even"]%string
     /\ Pandas.values t
        = map (fun d => map (fun c => cell_count d c df) directions_order) days_order
     /\ table_total t = count (fun a => is_weekday a && known_direction a) df
     /\ table_total t <= count is_weekday df
     /\ count is_weekday df <= Z.of_nat (List.length df)
     /\ ((forall a, In a df -> is_weekday a = true -> known_direction a = true) ->
         table_total t = count is_weekday df).
Proof.
  split; [discriminate|].
  apply (C8_day_of_week_distribution (fst (run_analysis scenario_B 10 2)));
    discriminate.
Defined.

(** C8, as stated, fails: with a Monday row labelled 'FLAT' next to a
    Friday UP row and a Saturday row, the cells add up to 1 while there are
    2 weekday rows. *)
Lemma C8_total_counterexample :
  let df := fst (run_analysis odd_label 10 2) in
  df <> []
  /\ table_total (calculate_day_of_week_distribution df) = 1
  /\ count is_weekday df = 2
  /\ table_total (calculate_day_of_week_distribution df) <> count is_weekday df.
Proof.
  cbv zeta; split; [discriminate|]; split; [reflexivity|]; split; [reflexivity|].
  discriminate.
Qed.

Lemma distribution_without_weekdays (df : list AnalyzedBar) :
  df <> [] ->
  (forall a, In a df -> is_weekday a = false) ->
  calculate_day_of_week_distribution df = weekday_table (fun _ _ => 0).
Proof.
  intros Hne Hweekend.
  rewrite (distribution_closed_form df Hne); unfold weekday_table; f_equal.
  apply map_ext_in; intros d Hd; apply map_ext; intros c.
  unfold cell_count.
  set (p := fun a => (Day_Name a =? d)%string && (Direction (bar a) =? c)%string).
  pose proof (count_nonneg p df) as Hn.
  destruct (Z.eq_dec (count p df) 0) as [E|E]; [exact E|].
  assert (Hpos : 0 < count p df) by lia.
  apply count_pos_In in Hpos as (a & Ha & Hp).
  apply andb_true_iff in Hp as (Hday & _); apply String.eqb_eq in Hday.
  specialize (Hweekend a Ha); unfold is_weekday in Hweekend.
  assert (Hw : existsb (fun d0 => (Day_Name a =? d0)%string) days_order = true).
  { apply existsb_exists; exists d; split; [exact Hd | now apply String.eqb_eq]. }
  congruence.
Qed.

(** C9.  On an empty frame [run_analysis] returns an empty frame and no
    statistics, without failing, and [calculate_day_of_week_distribution]
    returns the empty table, with no rows and no columns.  A non-empty
    frame without weekday rows gives instead the five weekday rows, all
    zero. *)
Theorem C9_empty_input :
  (forall (pm : Q) (pd : Z), run_analysis [] pm pd = ([], None))
  /\ calculate_day_of_week_distribution [] = Pandas.empty_table
  /\ (forall (pm : Q) (pd : Z),
        calculate_day_of_week_distribution (fst (run_analysis [] pm pd))
        = Pandas.empty_table)
  /\ Pandas.index Pandas.empty_table = []
  /\ Pandas.columns Pandas.empty_table = []
  /\ Pandas.values Pandas.empty_table = []
  /\ (forall df : list AnalyzedBar,
        df <> [] ->
        (forall a, In a df -> is_weekday a = false) ->
        Pandas.index (calculate_day_of_week_distribution df) = days_order
        /\ Pandas.columns (calculate_day_of_week_distribution df) = directions_order
        /\ Pandas.values (calculate_day_of_week_distribution df)
           = [[0; 0; 0]; [0; 0; 0]; [0; 0; 0]; [0; 0; 0]; [0; 0; 0]]
        /\ calculate_day_of_week_distribution df <> Pandas.empty_table).
Proof.
  repeat split; try reflexivity;
    rewrite (distribution_without_weekdays df H H0); try reflexivity.
  discriminate.
Qed.

Lemma C9_empty_input_witness :
  let df := fst (run_analysis scenario_D 10 2) in
  df <> []
  /\ (forall a, In a df -> is_weekday a = false)
  /\ Pandas.index (calculate_day_of_week_distribution df) = days_order
  /\ Pandas.columns (calculate_day_of_week_distribution df) = directions_order
  /\ Pandas.values (calculate_day_of_week_distribution df)
     = [[0; 0; 0]; [0; 0; 0]; [0; 0; 0]; [0; 0; 0]; [0; 0; 0]]
  /\ calculate_day_of_week_distribution df <> Pandas.empty_table.
Proof.
  cbv zeta.
  assert (Hne : fst (run_analysis scenario_D 10 2) <> []) by discriminate.
  assert (Hweekend : forall a, In a (fst (run_analysis scenario_D 10 2)) ->
                               is_weekday a = false).
  { intros a [<- | [<- | []]]; reflexivity. }
  split; [exact Hne|]; split; [exact Hweekend|].
  exact (proj2 (proj2 (proj2 (proj2 (proj2 (proj2 C9_empty_input)))))
           (fst (run_analysis scenario_D 10 2)) Hne Hweekend).
Defined.

Lemma unknown_direction_labels (a : AnalyzedBar) :
  known_direction a = false ->
  (Direction (bar a) =? "UP")%string = false
  /\ (Direction (bar a) =? "DOWN")%string = false
  /\ (Direction (bar a) =? "Break Even")%string = false.
Proof.
  unfold known_direction, directions_order; cbn [existsb].
  destruct (Direction (bar a) =? "UP")%string,
           (Direction (bar a) =? "DOWN")%string,
           (Direction (bar a) =? "Break Even")%string; cbn [orb];
    intros H; try discriminate H; auto.
Qed.

(** C10.  When some weekday row of the enriched frame carries a direction
    label other than 'UP', 'DOWN' and 'Break Even', that row falls in no
    cell of the distribution, whose cells add up to strictly less than the
    number of weekday rows.  [run_analysis] nevertheless counts the row in
    [total_days] and, being neither UP nor DOWN, in [break_even_days]. *)
Theorem C10_unrecognised_direction
    (df : list PriceBar) (pm : Q) (pd : Z) (a : AnalyzedBar) :
  let out := fst (run_analysis df pm pd) in
  In a out ->
  is_weekday a = true ->
  known_direction a = false ->
  table_total (calculate_day_of_week_distribution out) < count is_weekday out
  /\ (forall d c, In c directions_order ->
        (Day_Name a =? d)%string && (Direction (bar a) =? c)%string = false)
  /\ exists s,
       snd (run_analysis df pm pd) = Some s
       /\ In (bar a) df
       /\ total_days s = Z.of_nat (List.length df)
       /\ break_even_days s
          = count (fun r => negb (Direction r =? "UP")%string
                            && negb (Direction r =? "DOWN")%string) df
       /\ negb (Direction (bar a) =? "UP")%string
          && negb (Direction (bar a) =? "DOWN")%string = true
       /\ 0 < break_even_days s.
Proof.
  intros out Ha Hw Hk.
  destruct (unknown_direction_labels a Hk) as (Hu & Hd & Hb).
  assert (Hout : out <> []) by (intros E; rewrite E in Ha; exact Ha).
  assert (Hne : df <> []) by (intros E; apply Hout; unfold out; now rewrite E).
  destruct (run_analysis_columns df pm pd) as (Hbar & _); fold out in Hbar.
  assert (Hin : In (bar a) df) by (rewrite <- Hbar; now apply in_map).
  split; [|split].
  - rewrite (distribution_total out Hout).
    rewrite (count_split is_weekday known_direction out).
    assert (0 < count (fun x => is_weekday x && negb (known_direction x)) out); [|lia].
    apply count_pos_In; exists a; split; [exact Ha | now rewrite Hw, Hk].
  - intros d c [<- | [<- | [<- | []]]];
      rewrite ?Hu, ?Hd, ?Hb; apply andb_false_r.
  - destruct (run_analysis_counts df pm pd Hne) as (s & Hs & Ht & Hup & Hdn & Hbe & _).
    pose proof (up_down_disjoint df) as Hsum.
    assert (Hcount : break_even_days s
                     = count (fun r => negb (Direction r =? "UP")%string
                                       && negb (Direction r =? "DOWN")%string) df) by lia.
    exists s; repeat split; auto.
    + now rewrite Hu, Hd.
    + rewrite Hcount; apply count_pos_In; exists (bar a); split; [exact Hin|].
      now rewrite Hu, Hd.
Qed.

Lemma C10_unrecognised_direction_witness :
  let a := mkAnalyzed (mkBar (mkDate 2024 1 8) 100 100 100 100 "FLAT")
                      "Monday" 0 0 3 in
  let out := fst (run_analysis odd_label 10 2) in
  In a out
  /\ is_weekday a = true
  /\ known_direction a = false
  /\ table_total (calculate_day_of_week_distribution out) < count is_weekday out
  /\ (forall d c, In c directions_order ->
        (Day_Name a =? d)%string && (Direction (bar a) =? c)%string = false)
  /\ exists s,
       snd (run_analysis odd_label 10 2) = Some s
       /\ In (bar a) odd_label
       /\ total_days s = Z.of_nat (List.length odd_label)
       /\ break_even_days s
          = count (fun r => negb (Direction r =? "UP")%string
                            && negb (Direction r =? "DOWN")%string) odd_label
       /\ negb (Direction (bar a) =? "UP")%string
          && negb (Direction (bar a) =? "DOWN")%string = true
       /\ 0 < break_even_days s.
Proof.
  cbv zeta.
  assert (Hin : In (mkAnalyzed (mkBar (mkDate 2024 1 8) 100 100 100 100 "FLAT")
                               "Monday" 0 0 3)
                   (fst (run_analysis odd_label 10 2))).
  { right; right; left.
    cbn [nth]. reflexivity. }
  split; [exact Hin|]; split; [reflexivity|]; split; [reflexivity|].
  exact (C10_unrecognised_direction odd_label 10 2 _ Hin eq_refl eq_refl).
Defined.

(** * The rest of the pipeline *)

(** ** The order on dates *)

Ltac date_order :=
  unfold Pandas.date_leb, Frame.date_eqb;
  repeat match goal with d : date |- _ => destruct d end;
  cbn [year month day];
  repeat rewrite ?orb_true_iff, ?andb_true_iff, ?orb_false_iff, ?andb_false_iff,
    ?Z.ltb_lt, ?Z.eqb_eq, ?Z.leb_le, ?Z.ltb_ge, ?Z.eqb_neq, ?Z.leb_gt.

Lemma date_leb_refl (a : date) : Pandas.date_leb a a = true.
Proof. date_order; lia. Qed.

Lemma date_leb_total (a b : date) :
  Pandas.date_leb a b = true \/ Pandas.date_leb b a = true.
Proof. date_order; lia. Qed.

Lemma date_leb_trans (a b c : date) :
  Pandas.date_leb a b = true -> Pandas.date_leb b c = true ->
  Pandas.date_leb a c = true.
Proof. date_order; lia. Qed.

Lemma date_leb_antisym (a b : date) :
  Pandas.date_leb a b = true -> Pandas.date_leb b a = true -> a = b.
Proof.
  date_order; intros H1 H2.
  assert (year0 = year1 /\ month0 = month1 /\ day0 = day1) as (-> & -> & ->) by lia.
  reflexivity.
Qed.

Lemma date_leb_false (a b : date) :
  Pandas.date_leb a b = false -> Pandas.date_leb b a = true.
Proof.
  intros H; destruct (date_leb_total a b) as [E | E]; [congruence | exact E].
Qed.

Lemma date_eqb_eq (a b : date) : Frame.date_eqb a b = true <-> a = b.
Proof.
  split.
  - date_order; intros ((-> & ->) & ->); reflexivity.
  - intros ->; date_order; lia.
Qed.

Lemma date_min_spec (a b : date) :
  (Pandas.date_min a b = a \/ Pandas.date_min a b = b)
  /\ Pandas.date_leb (Pandas.date_min a b) a = true
  /\ Pandas.date_leb (Pandas.date_min a b) b = true.
Proof.
  unfold Pandas.date_min; destruct (Pandas.date_leb a b) eqn:E;
    repeat split; auto using date_leb_refl, date_leb_false.
Qed.

Lemma date_max_spec (a b : date) :
  (Pandas.date_max a b = a \/ Pandas.date_max a b = b)
  /\ Pandas.date_leb a (Pandas.date_max a b) = true
  /\ Pandas.date_leb b (Pandas.date_max a b) = true.
Proof.
  unfold Pandas.date_max; destruct (Pandas.date_leb a b) eqn:E;
    repeat split; auto using date_leb_refl, date_leb_false.
Qed.

Lemma fold_date_min (l : list date) :
  forall d,
    In (fold_left Pandas.date_min l d) (d :: l)
    /\ forall x, In x (d :: l) ->
                 Pandas.date_leb (fold_left Pandas.date_min l d) x = true.
Proof.
  induction l as [|y l IH]; intros d; cbn [fold_left].
  - split; [now left | intros x [<- | []]; apply date_leb_refl].
  - destruct (IH (Pandas.date_min d y)) as (Hin & Hle).
    destruct (date_min_spec d y) as (Hcase & Hd & Hy).
    split.
    + destruct Hin as [Hin | Hin]; [|right; now right].
      rewrite <- Hin; destruct Hcase as [-> | ->]; simpl; auto.
    + intros x [<- | [<- | Hx]].
      * eapply date_leb_trans; [apply Hle; now left | exact Hd].
      * eapply date_leb_trans; [apply Hle; now left | exact Hy].
      * apply Hle; now right.
Qed.

Lemma fold_date_max (l : list date) :
  forall d,
    In (fold_left Pandas.date_max l d) (d :: l)
    /\ forall x, In x (d :: l) ->
                 Pandas.date_leb x (fold_left Pandas.date_max l d) = true.
Proof.
  induction l as [|y l IH]; intros d; cbn [fold_left].
  - split; [now left | intros x [<- | []]; apply date_leb_refl].
  - destruct (IH (Pandas.date_max d y)) as (Hin & Hle).
    destruct (date_max_spec d y) as (Hcase & Hd & Hy).
    split.
    + destruct Hin as [Hin | Hin]; [|right; now right].
      rewrite <- Hin; destruct Hcase as [-> | ->]; simpl; auto.
    + intros x [<- | [<- | Hx]].
      * eapply date_leb_trans; [exact Hd | apply Hle; now left].
      * eapply date_leb_trans; [exact Hy | apply Hle; now left].
      * apply Hle; now right.
Qed.

(** ** The analysed period *)

Lemma run_analysis_dates (r0 : PriceBar) (rest : list PriceBar) (pm : Q) (pd : Z) :
  exists s,
    snd (run_analysis (r0 :: rest) pm pd) = Some s
    /\ total_days s = Z.of_nat (List.length (r0 :: rest))
    /\ actual_start_date s
       = fold_left Pandas.date_min (map Date (r0 :: rest)) (Date r0)
    /\ actual_end_date s
       = fold_left Pandas.date_max (map Date (r0 :: rest)) (Date r0).
Proof.
  destruct (run_analysis_columns (r0 :: rest) pm pd) as (Hb & _).
  assert (Hd : map (fun a => Date (bar a)) (fst (run_analysis (r0 :: rest) pm pd))
               = map Date (r0 :: rest))
    by now rewrite <- (map_map bar Date), Hb.
  eexists; split; [reflexivity|].
  cbn [total_days actual_start_date actual_end_date]; unfold Pandas.col.
  split; [reflexivity|].
  change (assemble (r0 :: rest) _ _ _ _) with (fst (run_analysis (r0 :: rest) pm pd)).
  now rewrite Hd.
Qed.

(** [actual_start_date] and [actual_end_date] are dates of the frame and
    bracket every row. *)
Theorem actual_period_brackets_rows (df : list PriceBar) (pm : Q) (pd : Z) :
  df <> [] ->
  exists s,
    snd (run_analysis df pm pd) = Some s
    /\ In (actual_start_date s) (map Date df)
    /\ In (actual_end_date s) (map Date df)
    /\ Pandas.date_leb (actual_start_date s) (actual_end_date s) = true
    /\ forall r, In r df ->
         Pandas.date_leb (actual_start_date s) (Date r) = true
         /\ Pandas.date_leb (Date r) (actual_end_date s) = true.
Proof.
  intros Hne; destruct df as [|r0 rest]; [contradiction|].
  destruct (run_analysis_dates r0 rest pm pd) as (s & Hs & _ & Hmin & Hmax).
  destruct (fold_date_min (map Date (r0 :: rest)) (Date r0)) as (Imin & Lmin).
  destruct (fold_date_max (map Date (r0 :: rest)) (Date r0)) as (Imax & Lmax).
  rewrite <- Hmin in Imin, Lmin; rewrite <- Hmax in Imax, Lmax.
  assert (Hin : forall x, In x (Date r0 :: map Date (r0 :: rest)) ->
                          In x (map Date (r0 :: rest))).
  { intros x [<- | Hx]; [now left | exact Hx]. }
  exists s; split; [exact Hs|]; split; [now apply Hin|]; split; [now apply Hin|].
  split.
  - apply Lmin; right; now apply Hin.
  - intros r Hr; split; [apply Lmin | apply Lmax]; right; now apply in_map.
Qed.

Lemma actual_period_brackets_rows_witness :
  scenario_B <> []
  /\ exists s,
       snd (run_analysis scenario_B 10 2) = Some s
       /\ In (actual_start_date s) (map Date scenario_B)
       /\ In (actual_end_date s) (map Date scenario_B)
       /\ Pandas.date_leb (actual_start_date s) (actual_end_date s) = true
       /\ forall r, In r scenario_B ->
            Pandas.date_leb (actual_start_date s) (Date r) = true
            /\ Pandas.date_leb (Date r) (actual_end_date s) = true.
Proof.
  split; [discriminate | apply (actual_period_brackets_rows scenario_B 10 2); discriminate].
Defined.

Lemma last_In {A : Type} (l : list A) (d : A) : l <> [] -> In (last l d) l.
Proof.
  induction l as [|a l IH]; intros H; [contradiction|].
  destruct l as [|b l]; [now left|].
  right; apply IH; discriminate.
Qed.

Lemma last_of_map {A B : Type} (f : A -> B) (l : list A) (d : A) :
  last (map f l) (f d) = f (last l d).
Proof.
  induction l as [|a l IH]; [reflexivity|].
  destruct l as [|b l]; [reflexivity | exact IH].
Qed.

Lemma ascending_head_least (d : date) (l : list date) :
  dates_ascending (d :: l) -> forall x, In x (d :: l) -> Pandas.date_leb d x = true.
Proof.
  intros H x [<- | Hx]; [apply date_leb_refl|].
  apply StronglySorted_inv in H as (_ & H).
  rewrite Forall_forall in H; now apply H.
Qed.

Lemma ascending_last_greatest (l : list date) :
  dates_ascending l ->
  forall d x, In x l -> Pandas.date_leb x (last l d) = true.
Proof.
  induction 1 as [|a l Hs IH Ha]; intros d x Hx; [contradiction|].
  rewrite Forall_forall in Ha.
  destruct l as [|b l]; [destruct Hx as [<- | []]; apply date_leb_refl|].
  change (last (a :: b :: l) d) with (last (b :: l) d).
  destruct Hx as [<- | Hx]; [|now apply IH].
  apply Ha, last_In; discriminate.
Qed.

(** On a frame sorted by date (the engine's input contract) the analysed
    period runs from the first row's date to the last row's date. *)
Theorem actual_period_of_sorted_frame (r0 : PriceBar) (rest : list PriceBar)
    (pm : Q) (pd : Z) :
  dates_ascending (map Date (r0 :: rest)) ->
  exists s,
    snd (run_analysis (r0 :: rest) pm pd) = Some s
    /\ actual_start_date s = Date r0
    /\ actual_end_date s = Date (last rest r0).
Proof.
  intros Hasc.
  destruct (run_analysis_dates r0 rest pm pd) as (s & Hs & _ & Hmin & Hmax).
  destruct (fold_date_min (map Date (r0 :: rest)) (Date r0)) as (Imin & Lmin).
  destruct (fold_date_max (map Date (r0 :: rest)) (Date r0)) as (Imax & Lmax).
  rewrite <- Hmin in Imin, Lmin; rewrite <- Hmax in Imax, Lmax.
  exists s; split; [exact Hs|]; split.
  - apply date_leb_antisym; [apply Lmin; now left|].
    apply (ascending_head_least _ _ Hasc).
    destruct Imin as [<- | H]; [now left | exact H].
  - assert (Hlast : last (map Date (r0 :: rest)) (Date r0) = Date (last rest r0)).
    { rewrite last_of_map; destruct rest; reflexivity. }
    rewrite <- Hlast; apply date_leb_antisym.
    + apply (ascending_last_greatest _ Hasc).
      destruct Imax as [<- | H]; [now left | exact H].
    + apply Lmax; right; apply last_In; discriminate.
Qed.

Lemma scenario_B_ascending : dates_ascending (map Date scenario_B).
Proof.
  unfold dates_ascending; repeat constructor.
Qed.

Lemma actual_period_of_sorted_frame_witness :
  dates_ascending (map Date scenario_B)
  /\ exists s,
       snd (run_analysis scenario_B 10 2) = Some s
       /\ actual_start_date s = mkDate 2024 1 1
       /\ actual_end_date s = mkDate 2024 1 9.
Proof.
  split; [exact scenario_B_ascending|].
  exact (actual_period_of_sorted_frame _ _ 10 2 scenario_B_ascending).
Defined.

(** ** Filtering by date *)

Lemma loc_mask_filter {R : Type} (p : R -> bool) (l : list R) :
  Pandas.loc (map p l) l = filter p l.
Proof.
  rewrite <- (map_id l) at 2; rewrite loc_map_filter; apply map_id.
Qed.

(** The bounds the filter compares with, and the filter as a selection. *)
Lemma filter_data_by_date_selection (r0 : PriceBar) (rest : list PriceBar)
    (start_date end_date : option date) :
  exists lo hi,
    filter_data_by_date (Some (r0 :: rest)) start_date end_date
    = filter (fun r => Pandas.date_leb lo (Date r) && Pandas.date_leb (Date r) hi)
             (r0 :: rest)
    /\ match start_date with
       | Some d => lo = d
       | None => forall r, In r (r0 :: rest) -> Pandas.date_leb lo (Date r) = true
       end
    /\ match end_date with
       | Some d => hi = d
       | None => forall r, In r (r0 :: rest) -> Pandas.date_leb (Date r) hi = true
       end.
Proof.
  unfold filter_data_by_date, Pandas.col.
  set (rows := r0 :: rest).
  destruct (fold_date_min (map Date rows) (Date r0)) as (_ & Lmin).
  destruct (fold_date_max (map Date rows) (Date r0)) as (_ & Lmax).
  eexists; eexists; split; [|split].
  - rewrite !map_map, map2_map; apply loc_mask_filter.
  - destruct start_date; [reflexivity|].
    intros r Hr; apply Lmin; right; now apply in_map.
  - destruct end_date; [reflexivity|].
    intros r Hr; apply Lmax; right; now apply in_map.
Qed.

(** The rows the filter returns are the rows of the frame inside the
    requested bounds; a bound that is not given excludes nothing. *)
Theorem filter_data_by_date_rows (df : list PriceBar)
    (start_date end_date : option date) (r : PriceBar) :
  In r (filter_data_by_date (Some df) start_date end_date)
  <-> In r df
      /\ (forall d, start_date = Some d -> Pandas.date_leb d (Date r) = true)
      /\ (forall d, end_date = Some d -> Pandas.date_leb (Date r) d = true).
Proof.
  destruct df as [|r0 rest]; [simpl; tauto|].
  destruct (filter_data_by_date_selection r0 rest start_date end_date)
    as (lo & hi & -> & Hlo & Hhi).
  rewrite filter_In, andb_true_iff; split.
  - intros (Hin & H1 & H2); split; [exact Hin|]; split; intros d E; subst.
    + now rewrite <- Hlo.
    + now rewrite <- Hhi.
  - intros (Hin & H1 & H2); split; [exact Hin|]; split.
    + destruct start_date as [d|]; [rewrite Hlo; now apply H1 | now apply Hlo].
    + destruct end_date as [d|]; [rewrite Hhi; now apply H2 | now apply Hhi].
Qed.

Lemma filter_all {A : Type} (p : A -> bool) (l : list A) :
  (forall x, In x l -> p x = true) -> filter p l = l.
Proof.
  induction l as [|x l IH]; intros H; [reflexivity|].
  simpl; rewrite (H x (or_introl eq_refl)), IH; auto.
  intros y Hy; apply H; now right.
Qed.

(** Without bounds the filter returns the frame as it is; a missing or
    empty frame gives the empty frame. *)
Theorem filter_data_by_date_defaults (df : list PriceBar) :
  filter_data_by_date (Some df) None None = df
  /\ (forall s e, filter_data_by_date None s e = [])
  /\ (forall s e, filter_data_by_date (Some []) s e = []).
Proof.
  split; [|split; reflexivity].
  destruct df as [|r0 rest]; [reflexivity|].
  destruct (filter_data_by_date_selection r0 rest None None)
    as (lo & hi & -> & Hlo & Hhi).
  apply filter_all; intros r Hr; now rewrite (Hlo r Hr), (Hhi r Hr).
Qed.

Lemma StronglySorted_filter {A : Type} (R : A -> A -> Prop) (p : A -> bool)
    (l : list A) :
  StronglySorted R l -> StronglySorted R (filter p l).
Proof.
  induction 1 as [|a l Hs IH Ha]; simpl; [constructor|].
  destruct (p a); [|exact IH].
  constructor; [exact IH|].
  rewrite Forall_forall in Ha |- *; intros x Hx.
  apply Ha; now apply filter_In in Hx.
Qed.

Lemma map_filter_comm {A B : Type} (f : A -> B) (p : B -> bool) (l : list A) :
  map f (filter (fun x => p (f x)) l) = filter p (map f l).
Proof.
  induction l as [|x l IH]; simpl; [reflexivity|].
  destruct (p (f x)); simpl; now rewrite IH.
Qed.

Lemma filter_length_le {A : Type} (p : A -> bool) (l : list A) :
  (List.length (filter p l) <= List.length l)%nat.
Proof.
  induction l as [|x l IH]; simpl; [lia|]; destruct (p x); simpl; lia.
Qed.

(** The filter never adds or reorders rows: the result is no longer than
    the frame, and its dates are ascending when the frame's are. *)
Theorem filter_data_by_date_keeps_order (df : list PriceBar)
    (start_date end_date : option date) :
  (List.length (filter_data_by_date (Some df) start_date end_date)
   <= List.length df)%nat
  /\ (dates_ascending (map Date df) ->
      dates_ascending (map Date (filter_data_by_date (Some df) start_date end_date))).
Proof.
  destruct df as [|r0 rest]; [split; [simpl; lia | auto]|].
  destruct (filter_data_by_date_selection r0 rest start_date end_date)
    as (lo & hi & -> & _ & _).
  split; [apply filter_length_le|].
  intros Hasc.
  rewrite (map_filter_comm Date
             (fun d => Pandas.date_leb lo d && Pandas.date_leb d hi)).
  now apply StronglySorted_filter.
Qed.

(** A start date after the end date selects nothing, and the engine then
    reports no statistics. *)
Theorem filter_data_by_date_inverted (df : list PriceBar) (s e : date)
    (pm : Q) (pd : Z) :
  Pandas.date_leb s e = false ->
  filter_data_by_date (Some df) (Some s) (Some e) = []
  /\ run_analysis (filter_data_by_date (Some df) (Some s) (Some e)) pm pd = ([], None).
Proof.
  intros Hinv.
  assert (E : filter_data_by_date (Some df) (Some s) (Some e) = []).
  { destruct (filter_data_by_date (Some df) (Some s) (Some e)) as [|r l] eqn:F;
      [reflexivity|].
    assert (Hr : In r (filter_data_by_date (Some df) (Some s) (Some e)))
      by (rewrite F; now left).
    apply filter_data_by_date_rows in Hr as (_ & H1 & H2).
    rewrite (date_leb_trans s (Date r) e (H1 s eq_refl) (H2 e eq_refl)) in Hinv.
    discriminate. }
  now rewrite E.
Qed.

Lemma filter_data_by_date_inverted_witness :
  Pandas.date_leb (mkDate 2024 1 9) (mkDate 2024 1 2) = false
  /\ filter_data_by_date (Some scenario_B) (Some (mkDate 2024 1 9))
       (Some (mkDate 2024 1 2)) = []
  /\ run_analysis (filter_data_by_date (Some scenario_B) (Some (mkDate 2024 1 9))
                     (Some (mkDate 2024 1 2))) 10 2 = ([], None).
Proof.
  split; [reflexivity|].
  exact (filter_data_by_date_inverted scenario_B (mkDate 2024 1 9) (mkDate 2024 1 2)
           10 2 eq_refl).
Defined.

(** Filtering a filtered frame again with the same bounds changes nothing. *)
Theorem filter_data_by_date_idempotent (df : list PriceBar)
    (start_date end_date : option date) :
  filter_data_by_date
    (Some (filter_data_by_date (Some df) start_date end_date)) start_date end_date
  = filter_data_by_date (Some df) start_date end_date.
Proof.
  set (once := filter_data_by_date (Some df) start_date end_date).
  destruct once as [|r0 rest] eqn:E; [reflexivity|].
  destruct (filter_data_by_date_selection r0 rest start_date end_date)
    as (lo & hi & -> & Hlo & Hhi).
  apply filter_all; intros r Hr.
  assert (Hin : In r (filter_data_by_date (Some df) start_date end_date))
    by (fold once; now rewrite E).
  apply filter_data_by_date_rows in Hin as (_ & H1 & H2).
  apply andb_true_iff; split.
  - destruct start_date as [d|]; [rewrite Hlo; now apply H1 | now apply Hlo].
  - destruct end_date as [d|]; [rewrite Hhi; now apply H2 | now apply Hhi].
Qed.



(** ** Dropping duplicates and sorting *)

Section Duplicates.

Context {R K : Type} (eqb : K -> K -> bool) (key : R -> K).

Hypothesis eqb_eq : forall a b, eqb a b = true <-> a = b.

Lemma seen_spec (k : K) (seen : list K) :
  existsb (eqb k) seen = true <-> In k seen.
Proof using eqb_eq.
  rewrite existsb_exists; split.
  - intros (x & Hx & E); apply eqb_eq in E; now subst.
  - intros H; exists k; split; [exact H | now apply eqb_eq].
Qed.

(** A row survives when its key is new and it is the first row of the
    frame with that key. *)
Lemma drop_duplicates_from_In (r : R) (df : list R) :
  forall seen,
    In r (Frame.drop_duplicates_from eqb key seen df)
    <-> ~ In (key r) seen
        /\ find (fun x => eqb (key x) (key r)) df = Some r.
Proof using eqb_eq.
  induction df as [|a df IH]; intros seen; cbn [Frame.drop_duplicates_from find].
  - split; [intros [] | intros (_ & H); discriminate].
  - destruct (existsb (eqb (key a)) seen) eqn:S.
    + apply seen_spec in S; rewrite IH.
      destruct (eqb (key a) (key r)) eqn:E.
      * apply eqb_eq in E; rewrite <- E; split; intros (H & _); contradiction.
      * tauto.
    + assert (Hnew : ~ In (key a) seen).
      { intros H; apply seen_spec in H; congruence. }
      cbn [In]; rewrite IH; cbn [In].
      destruct (eqb (key a) (key r)) eqn:E.
      * apply eqb_eq in E; split.
        -- intros [<- | (H & _)]; [split; [exact Hnew | reflexivity]|].
           exfalso; apply H; now left.
        -- intros (_ & H); injection H as ->; now left.
      * assert (key a <> key r) by (intros H; apply eqb_eq in H; congruence).
        split.
        -- intros [<- | (H1 & H2)]; [congruence|]. split; [tauto | exact H2].
        -- intros (H1 & H2); right; split; [intros [? | ?]; tauto | exact H2].
Qed.

Lemma drop_duplicates_from_NoDup (df : list R) :
  forall seen, NoDup (map key (Frame.drop_duplicates_from eqb key seen df)).
Proof using eqb_eq.
  induction df as [|a df IH]; intros seen; cbn [Frame.drop_duplicates_from map];
    [constructor|].
  destruct (existsb (eqb (key a)) seen); [apply IH|].
  cbn [map]; constructor; [|apply IH].
  intros H; apply in_map_iff in H as (x & E & Hx).
  apply drop_duplicates_from_In in Hx as (Hx & _).
  apply Hx; left; now symmetry.
Qed.

Lemma drop_duplicates_from_unique (df : list R) :
  forall seen,
    NoDup (map key df) ->
    (forall x, In x df -> ~ In (key x) seen) ->
    Frame.drop_duplicates_from eqb key seen df = df.
Proof using eqb_eq.
  induction df as [|a df IH]; intros seen Hnd Hseen; [reflexivity|].
  cbn [Frame.drop_duplicates_from].
  cbn [map] in Hnd; apply NoDup_cons_iff in Hnd as (Ha & Hnd).
  destruct (existsb (eqb (key a)) seen) eqn:S.
  - apply seen_spec in S; exfalso; apply (Hseen a); [now left | exact S].
  - f_equal; apply IH; [exact Hnd|].
    intros x Hx [E | H]; [|apply (Hseen x); [now right | exact H]].
    apply Ha; rewrite E; now apply in_map.
Qed.

End Duplicates.

Lemma cell_eqb_eq (a b : option date) : Frame.cell_eqb a b = true <-> a = b.
Proof.
  destruct a as [x|], b as [y|]; cbn [Frame.cell_eqb];
    try (split; [discriminate | discriminate]); [|tauto].
  rewrite date_eqb_eq; split; [intros -> | intros H; injection H]; auto.
Qed.

Section Sorting.

Context {R : Type} (key : R -> date).

Lemma insert_sorted_perm (r : R) (l : list R) :
  Permutation (Frame.insert_sorted key r l) (r :: l).
Proof.
  induction l as [|x l IH]; cbn [Frame.insert_sorted]; [reflexivity|].
  destruct (Pandas.date_leb (key r) (key x)); [reflexivity|].
  rewrite IH; apply perm_swap.
Qed.

Lemma sort_values_perm (l : list R) : Permutation (Frame.sort_values key l) l.
Proof.
  induction l as [|x l IH]; cbn [Frame.sort_values fold_right]; [reflexivity|].
  fold (Frame.sort_values key l); rewrite insert_sorted_perm; now constructor.
Qed.

Lemma insert_sorted_sorted (r : R) (l : list R) :
  StronglySorted (fun a b => Pandas.date_leb (key a) (key b) = true) l ->
  StronglySorted (fun a b => Pandas.date_leb (key a) (key b) = true)
                 (Frame.insert_sorted key r l).
Proof.
  induction 1 as [|x l Hs IH Hx]; cbn [Frame.insert_sorted]; [repeat constructor|].
  destruct (Pandas.date_leb (key r) (key x)) eqn:E.
  - constructor; [now constructor|].
    constructor; [exact E|].
    rewrite Forall_forall in Hx |- *; intros y Hy.
    eapply date_leb_trans; [exact E | now apply Hx].
  - constructor; [exact IH|].
    rewrite Forall_forall in Hx |- *; intros y Hy.
    apply (Permutation_in _ (insert_sorted_perm r l)) in Hy as [<- | Hy];
      [now apply date_leb_false | now apply Hx].
Qed.

Lemma sort_values_sorted (l : list R) :
  StronglySorted (fun a b => Pandas.date_leb (key a) (key b) = true)
                 (Frame.sort_values key l).
Proof.
  induction l as [|x l IH]; cbn [Frame.sort_values fold_right]; [constructor|].
  now apply insert_sorted_sorted.
Qed.

(** Sorting a frame whose dates are distinct leaves them strictly
    ascending. *)
Lemma sort_values_ascending (l : list R) :
  NoDup (map key l) -> dates_ascending (map key (Frame.sort_values key l)).
Proof.
  intros Hnd.
  assert (Hnd' : NoDup (map key (Frame.sort_values key l))).
  { eapply Permutation_NoDup; [|exact Hnd].
    apply Permutation_map, Permutation_sym, sort_values_perm. }
  pose proof (sort_values_sorted l) as Hs.
  induction Hs as [|x s Hs IH Hx]; [constructor|].
  cbn [map] in Hnd' |- *; apply NoDup_cons_iff in Hnd' as (Hx' & Hnd').
  constructor; [now apply IH|].
  rewrite Forall_forall in Hx |- *; intros d Hd.
  apply in_map_iff in Hd as (y & <- & Hy).
  split; [now apply Hx|].
  destruct (Pandas.date_leb (key y) (key x)) eqn:E; [|reflexivity].
  exfalso; apply Hx'.
  rewrite (date_leb_antisym _ _ (Hx y Hy) E); now apply in_map.
Qed.

(** Sorting a frame that is already in ascending date order changes
    nothing. *)
Lemma sort_values_of_sorted (l : list R) :
  dates_ascending (map key l) -> Frame.sort_values key l = l.
Proof.
  induction l as [|x l IH]; intros H; [reflexivity|].
  cbn [map] in H; apply StronglySorted_inv in H as (Hs & Hx).
  cbn [Frame.sort_values fold_right]; fold (Frame.sort_values key l).
  rewrite (IH Hs); destruct l as [|y l]; [reflexivity|].
  cbn [Frame.insert_sorted].
  apply Forall_inv in Hx; now rewrite (proj1 Hx).
Qed.

End Sorting.

(** ** Cleaning *)

Lemma Qgtb_lt (x y : Q) : Qgtb x y = true <-> (y < x)%Q.
Proof.
  unfold Qgtb; rewrite negb_true_iff; split.
  - intros H; apply Qnot_le_lt; intros L.
    apply Qle_bool_iff in L; congruence.
  - intros H; destruct (Qle_bool x y) eqn:E; [|reflexivity].
    apply Qle_bool_iff in E; exfalso; exact (Qlt_not_le _ _ H E).
Qed.

Lemma engineer_direction_spec (o c : Q) :
  (engineer_direction o c = "UP"%string <-> (o < c)%Q)
  /\ (engineer_direction o c = "DOWN"%string <-> (c < o)%Q)
  /\ (engineer_direction o c = "Break Even"%string <-> (c == o)%Q).
Proof.
  unfold engineer_direction.
  destruct (Qgtb c o) eqn:U, (Qgtb o c) eqn:D;
    try (apply Qgtb_lt in U); try (apply Qgtb_lt in D).
  - exfalso; exact (Qlt_irrefl _ (Qlt_trans _ _ _ U D)).
  - repeat split; intros H; try discriminate H; auto.
    + exfalso; exact (Qlt_irrefl _ (Qlt_trans _ _ _ U H)).
    + rewrite H in U; exfalso; exact (Qlt_irrefl _ U).
  - repeat split; intros H; try discriminate H; auto.
    + exfalso; exact (Qlt_irrefl _ (Qlt_trans _ _ _ D H)).
    + rewrite H in D; exfalso; exact (Qlt_irrefl _ D).
  - assert (E : (c == o)%Q).
    { apply Qle_antisym; apply Qnot_lt_le; intros H; apply Qgtb_lt in H; congruence. }
    repeat split; intros H; try discriminate H; auto.
    + rewrite E in H; exfalso; exact (Qlt_irrefl _ H).
    + rewrite E in H; exfalso; exact (Qlt_irrefl _ H).
Qed.

Lemma engineer_direction_label (o c : Q) :
  In (engineer_direction o c) directions_order.
Proof.
  unfold engineer_direction, directions_order.
  destruct (Qgtb c o), (Qgtb o c); simpl; auto.
Qed.

Lemma find_filter {A : Type} (f p : A -> bool) (l : list A) :
  (forall x, f x = true -> p x = true) -> find f (filter p l) = find f l.
Proof.
  intros H; induction l as [|x l IH]; [reflexivity|].
  cbn [filter find]; destruct (p x) eqn:P; cbn [find].
  - now rewrite IH.
  - destruct (f x) eqn:F; [rewrite (H x F) in P; discriminate | exact IH].
Qed.

Section Selection.

Context {Row Key : Type} (key : Row -> Key) (keep : Row -> bool).

(** Selecting rows of a frame whose keys are distinct leaves them distinct. *)
Lemma selection_keeps_keys_distinct (df : list Row) :
  NoDup (map key df) -> NoDup (map key (filter keep df)).
Proof.
  induction df as [|x df IH]; cbn [map filter]; intros H; [constructor|].
  apply NoDup_cons_iff in H as (Hx & H).
  destruct (keep x); [|now apply IH].
  cbn [map]; constructor; [|now apply IH].
  intros Hin; apply Hx.
  apply in_map_iff in Hin as (y & E & Hy); apply filter_In in Hy as (Hy & _).
  rewrite <- E; now apply in_map.
Qed.

End Selection.

(** The raw rows that survive the four filtering steps, before the final
    frame is built and sorted. *)
Lemma clean_kept_rows (df : list RawBar) (r : RawBar) :
  In r (filter (fun r => forallb (fun c => ne_zero (c r)) price_cols)
          (filter (fun r => forallb (fun c => Frame.notna (c r)) price_cols)
             (Frame.drop_duplicates_first Frame.cell_eqb raw_Date
                (filter (fun r => Frame.notna (raw_Date r)) df))))
  <-> raw_row_ok r = true
      /\ find (fun x => Frame.cell_eqb (raw_Date x) (raw_Date r)) df = Some r.
Proof.
  unfold Frame.drop_duplicates_first, raw_row_ok.
  rewrite !filter_In, (drop_duplicates_from_In _ _ cell_eqb_eq), !andb_true_iff.
  split.
  - intros (((_ & Hfind) & Hna) & Hnz).
    pose proof (find_some _ _ Hfind) as (Hin & _).
    apply filter_In in Hin as (_ & Hdate).
    repeat split; try assumption.
    rewrite <- Hfind; symmetry; apply find_filter.
    intros x E; apply cell_eqb_eq in E; now rewrite E.
  - intros (((Hdate & Hna) & Hnz) & Hfind).
    repeat split; try assumption; [intros []|].
    rewrite <- Hfind; apply find_filter.
    intros x E; apply cell_eqb_eq in E; now rewrite E.
Qed.

Lemma clean_as_sort (df : list RawBar) (asset_name : string) :
  exists kept,
    clean_and_validate_data df asset_name = Frame.sort_values Date (map final_row kept)
    /\ (forall r, In r kept <->
          raw_row_ok r = true
          /\ find (fun x => Frame.cell_eqb (raw_Date x) (raw_Date r)) df = Some r)
    /\ NoDup (map raw_Date kept)
    /\ (List.length kept <= List.length df)%nat.
Proof.
  eexists; split; [reflexivity|]; split; [apply clean_kept_rows|]; split.
  - do 2 apply selection_keeps_keys_distinct.
    apply (drop_duplicates_from_NoDup _ _ cell_eqb_eq).
  - etransitivity; [apply filter_length_le|].
    etransitivity; [apply filter_length_le|].
    assert (Hdrop : forall (l : list RawBar) seen,
              (List.length (Frame.drop_duplicates_from Frame.cell_eqb raw_Date seen l)
               <= List.length l)%nat).
    { induction l as [|x l IH]; intros seen; cbn [Frame.drop_duplicates_from];
        [lia|].
      destruct (existsb _ seen); cbn [List.length];
        [specialize (IH seen) | specialize (IH (raw_Date x :: seen))]; lia. }
    etransitivity; [apply Hdrop | apply filter_length_le].
Qed.

Lemma raw_row_ok_date (r : RawBar) :
  raw_row_ok r = true -> raw_Date r = Some (date_value (raw_Date r)).
Proof.
  unfold raw_row_ok; destruct (raw_Date r); [reflexivity | discriminate].
Qed.

(** A cleaned row is the first raw row of its date, provided that row has
    every cell and no zero price; its values are the raw values. *)
Theorem clean_rows (df : list RawBar) (asset_name : string) (p : PriceBar) :
  In p (clean_and_validate_data df asset_name)
  <-> exists r,
        find (fun x => Frame.cell_eqb (raw_Date x) (raw_Date r)) df = Some r
        /\ raw_row_ok r = true
        /\ p = final_row r.
Proof.
  destruct (clean_as_sort df asset_name) as (kept & -> & Hkept & _).
  split.
  - intros Hp.
    apply (Permutation_in _ (sort_values_perm Date _)) in Hp.
    apply in_map_iff in Hp as (r & <- & Hr); apply Hkept in Hr as (Hok & Hfind).
    exists r; auto.
  - intros (r & Hfind & Hok & ->).
    apply (Permutation_in _ (Permutation_sym (sort_values_perm Date _))).
    apply in_map, Hkept; auto.
Qed.

(** A date is in the cleaned frame exactly when the first raw row carrying
    it is complete and free of zero prices: a later row of the same date
    never stands in for a rejected first one. *)
Theorem clean_first_row_decides (df : list RawBar) (asset_name : string) (d : date) :
  In d (map Date (clean_and_validate_data df asset_name))
  <-> exists r,
        find (fun x => Frame.cell_eqb (raw_Date x) (Some d)) df = Some r
        /\ raw_row_ok r = true.
Proof.
  rewrite in_map_iff; split.
  - intros (p & <- & Hp); apply clean_rows in Hp as (r & Hfind & Hok & ->).
    exists r; split; [|exact Hok].
    cbn [final_row Date]; now rewrite <- (raw_row_ok_date r Hok).
  - intros (r & Hfind & Hok).
    pose proof (find_some _ _ Hfind) as (_ & E); apply cell_eqb_eq in E.
    exists (final_row r); split; [cbn [final_row Date]; now rewrite E|].
    apply clean_rows; exists r; rewrite E; auto.
Qed.

Lemma ascending_NoDup (l : list date) : dates_ascending l -> NoDup l.
Proof.
  induction 1 as [|d l Hs IH Hd]; constructor; [|exact IH].
  intros Hin; rewrite Forall_forall in Hd.
  destruct (Hd d Hin) as (_ & H); rewrite date_leb_refl in H; discriminate.
Qed.

Lemma NoDup_map_Some {A : Type} (l : list A) : NoDup l -> NoDup (map Some l).
Proof.
  induction 1 as [|x l Hx Hl IH]; cbn [map]; constructor; [|exact IH].
  intros H; apply in_map_iff in H as (y & E & Hy); injection E as ->; contradiction.
Qed.

Lemma final_row_of_ok (r : RawBar) :
  raw_row_ok r = true ->
  raw_of (final_row r) = r
  /\ ~ (Open (final_row r) == 0)%Q /\ ~ (High (final_row r) == 0)%Q
  /\ ~ (Low (final_row r) == 0)%Q /\ ~ (Close (final_row r) == 0)%Q.
Proof.
  unfold raw_row_ok, price_cols; cbn [forallb].
  destruct r as [[d|] [o|] [h|] [l|] [c|]]; cbn [Frame.notna raw_Date raw_Open raw_High
    raw_Low raw_Close andb ne_zero]; try discriminate.
  rewrite !andb_true_iff, !negb_true_iff.
  intros (Ho & Hh & Hl & Hc & _).
  split; [reflexivity|].
  cbn [final_row Open High Low Close price_value].
  repeat split; now apply Qeq_bool_neq.
Qed.

(** The cleaned frame meets the engine's input contract: its dates are
    strictly ascending (so unique), every direction is one of the three
    labels and classifies close against open, no price is zero, and no row
    was invented. *)
Theorem clean_output_contract (df : list RawBar) (asset_name : string) :
  let out := clean_and_validate_data df asset_name in
  dates_ascending (map Date out)
  /\ directions_classified out
  /\ (forall p, In p out ->
        In (Direction p) ["UP"; "DOWN"; "Break Even"]%string
        /\ ~ (Open p == 0)%Q /\ ~ (High p == 0)%Q
        /\ ~ (Low p == 0)%Q /\ ~ (Close p == 0)%Q)
  /\ (List.length out <= List.length df)%nat.
Proof.
  intros out.
  assert (Hrow : forall p, In p out ->
            exists r, raw_row_ok r = true /\ p = final_row r).
  { intros p Hp; apply clean_rows in Hp as (r & _ & Hok & ->); eauto. }
  destruct (clean_as_sort df asset_name) as (kept & Hout & Hkept & Hnd & Hlen).
  fold out in Hout.
  split; [|split; [|split]].
  - rewrite Hout; apply sort_values_ascending.
    apply (NoDup_map_inv Some); rewrite !map_map.
    erewrite map_ext_in; [exact Hnd|].
    intros r Hr; apply Hkept in Hr as (Hok & _).
    cbn [final_row Date]; symmetry; now apply raw_row_ok_date.
  - intros p Hp; destruct (Hrow p Hp) as (r & _ & ->).
    cbn [final_row Direction Open Close]; apply engineer_direction_spec.
  - intros p Hp; destruct (Hrow p Hp) as (r & Hok & ->).
    split; [apply engineer_direction_label | now apply final_row_of_ok].
  - rewrite Hout, (Permutation_length (sort_values_perm Date _)), length_map.
    exact Hlen.
Qed.

(** Cleaning a frame that is already clean (the processed file read
    back) returns it unchanged. *)
Theorem clean_idempotent (df : list RawBar) (asset_name again : string) :
  clean_and_validate_data
    (map raw_of (clean_and_validate_data df asset_name)) again
  = clean_and_validate_data df asset_name.
Proof.
  destruct (clean_output_contract df asset_name) as (Hasc & _ & _ & _).
  assert (Hrow : forall p, In p (clean_and_validate_data df asset_name) ->
            raw_row_ok (raw_of p) = true /\ final_row (raw_of p) = p).
  { intros p Hp; apply clean_rows in Hp as (r & _ & Hok & ->).
    destruct (final_row_of_ok r Hok) as (-> & _); auto. }
  set (out := clean_and_validate_data df asset_name) in *.
  unfold clean_and_validate_data at 1.
  assert (Hok : forall x, In x (map raw_of out) -> raw_row_ok x = true).
  { intros x Hx; apply in_map_iff in Hx as (p & <- & Hp); now apply Hrow. }
  rewrite (filter_all (fun r => Frame.notna (raw_Date r))).
  2:{ intros x Hx; apply in_map_iff in Hx as (p & <- & _); reflexivity. }
  unfold Frame.drop_duplicates_first.
  rewrite (drop_duplicates_from_unique _ _ cell_eqb_eq).
  2:{ rewrite map_map; cbn [raw_of raw_Date].
      rewrite <- (map_map Date Some); now apply NoDup_map_Some, ascending_NoDup. }
  2:{ intros x _ []. }
  assert (Hside : forall x, In x (map raw_of out) ->
            forallb (fun c => Frame.notna (c x)) price_cols = true
            /\ forallb (fun c => ne_zero (c x)) price_cols = true).
  { intros x Hx; specialize (Hok x Hx); unfold raw_row_ok in Hok;
      rewrite !andb_true_iff in Hok; tauto. }
  rewrite (filter_all (fun r => forallb (fun c => Frame.notna (c r)) price_cols))
    by (intros x Hx; now apply Hside).
  rewrite (filter_all (fun r => forallb (fun c => ne_zero (c r)) price_cols))
    by (intros x Hx; now apply Hside).
  rewrite map_map, (map_ext_in _ (fun p => p)), map_id;
    [now apply sort_values_of_sorted|].
  intros p Hp; now apply Hrow.
Qed.

(** ** Cleaning, then analysing *)

(** On a cleaned frame the summary is consistent: [break_even_days]
    counts exactly the 'Break Even' rows, the down total is the absolute
    value of the sum of the DOWN points, for a non-negative multiplier
    every row's points are what it adds to the up total minus what it adds
    to the down total, and the day-of-week table accounts for every
    weekday row. *)
Theorem cleaned_frame_analysis (df : list RawBar) (asset_name : string)
    (pm : Q) (pd : Z) :
  let frame := clean_and_validate_data df asset_name in
  let out := fst (run_analysis frame pm pd) in
  frame <> [] ->
  exists s,
    snd (run_analysis frame pm pd) = Some s
    /\ break_even_days s
       = count (fun r => (Direction r =? "Break Even")%string) frame
    /\ (total_down_points_display s
        == Qabs (Pandas.sum (map Points_Display (filter is_down out))))%Q
    /\ ((0 <= pm)%Q ->
        forall a, In a out ->
          (Points_Display a
           == (if is_up a then Points_Display a else 0)
              - (if is_down a then Qabs (Points_Display a) else 0))%Q)
    /\ table_total (calculate_day_of_week_distribution out) = count is_weekday out.
Proof.
  intros frame out Hne.
  destruct (clean_output_contract df asset_name) as (_ & Hclass & Hlabel & _).
  fold frame in Hclass, Hlabel.
  destruct (run_analysis_counts frame pm pd Hne) as (s & Hs & Ht & Hu & Hd & Hb & _).
  destruct (run_analysis_points frame pm pd Hne) as (s' & Hs' & Hup & Hdn & Hnet).
  assert (s' = s) by congruence; subst s'; fold out in Hup, Hdn, Hnet.
  destruct (run_analysis_columns frame pm pd) as (Hbar & _); fold out in Hbar.
  destruct (down_points_same_sign frame pm pd Hclass) as (Hpos & Hneg).
  fold out in Hpos, Hneg.
  assert (Hdn' : total_down_points_display s
                 = Pandas.sum (map Qabs (map Points_Display (filter is_down out))))
    by now rewrite map_map.
  exists s; split; [exact Hs|]; split; [|split; [|split]].
  - pose proof (up_down_disjoint frame) as Hsum.
    replace (break_even_days s)
      with (count (fun r => negb (Direction r =? "UP")%string
                            && negb (Direction r =? "DOWN")%string) frame) by lia.
    apply count_ext; intros r Hr.
    destruct (Hlabel r Hr) as ([E | [E | [E | []]]] & _); rewrite <- E; reflexivity.
  - rewrite Hdn'; apply sum_abs_same_sign.
    destruct (Qlt_le_dec pm 0) as [L | L];
      [right; apply Hneg; now apply Qlt_le_weak | left; now apply Hpos].
  - intros Hpm a Ha.
    now apply (classified_points_by_direction frame pm pd a Hclass Ha).
  - assert (Hout : out <> []).
    { intros E; apply Hne; rewrite <- Hbar, E; reflexivity. }
    rewrite (distribution_total out Hout); apply count_ext; intros a Ha.
    assert (Hin : In (bar a) frame) by (rewrite <- Hbar; now apply in_map).
    destruct (Hlabel (bar a) Hin) as (Hl & _).
    unfold known_direction.
    replace (existsb (fun c => (Direction (bar a) =? c)%string) directions_order)
      with true; [now rewrite andb_true_r|].
    symmetry; apply existsb_exists; exists (Direction (bar a)); split;
      [exact Hl | apply String.eqb_refl].
Qed.

Lemma cleaned_frame_analysis_witness :
  let frame := clean_and_validate_data raw_sample "GOLD" in
  let out := fst (run_analysis frame 10 2) in
  frame <> []
  /\ exists s,
       snd (run_analysis frame 10 2) = Some s
       /\ break_even_days s
          = count (fun r => (Direction r =? "Break Even")%string) frame
       /\ (total_down_points_display s
           == Qabs (Pandas.sum (map Points_Display (filter is_down out))))%Q
       /\ ((0 <= 10)%Q ->
           forall a, In a out ->
             (Points_Display a
              == (if is_up a then Points_Display a else 0)
                 - (if is_down a then Qabs (Points_Display a) else 0))%Q)
       /\ table_total (calculate_day_of_week_distribution out) = count is_weekday out.
Proof.
  cbv zeta.
  assert (H : clean_and_validate_data raw_sample "GOLD" <> []) by discriminate.
  split; [exact H|].
  exact (cleaned_frame_analysis raw_sample "GOLD" 10 2 H).
Defined.

(** ** Period labels *)

Lemma digit_cases (n : Z) :
  exists k, 0 <= k < 10 /\ n mod 10 = k
            /\ digit n = nth (Z.to_nat k)
                 ["0"; "1"; "2"; "3"; "4"; "5"; "6"; "7"; "8"; "9"]%char "0"%char.
Proof.
  exists (n mod 10); split; [apply Z.mod_pos_bound; lia | split; reflexivity].
Qed.

Ltac digit_enum k Hk :=
  assert (k = 0 \/ k = 1 \/ k = 2 \/ k = 3 \/ k = 4 \/ k = 5 \/ k = 6 \/ k = 7
          \/ k = 8 \/ k = 9) as Hk by lia;
  destruct Hk as [-> | [-> | [-> | [-> | [-> | [-> | [-> | [-> | [-> | ->]]]]]]]]].

Lemma digit_inj (a b : Z) : digit a = digit b -> a mod 10 = b mod 10.
Proof.
  destruct (digit_cases a) as (i & Hi & -> & ->).
  destruct (digit_cases b) as (j & Hj & -> & ->).
  digit_enum i Hi'; digit_enum j Hj'; cbn; intros H;
    first [reflexivity | discriminate H].
Qed.

Lemma digit_is_digit (n : Z) :
  Ascii.eqb (digit n) " " = false /\ digit n <> "S"%char /\ digit n <> "E"%char.
Proof.
  destruct (digit_cases n) as (i & Hi & _ & ->).
  digit_enum i Hi'; cbn; repeat split; discriminate.
Qed.

Lemma strftime_Ymd_inj (a b : date) :
  date_in_range a -> date_in_range b -> strftime_Ymd a = strftime_Ymd b -> a = b.
Proof.
  destruct a as [y m d], b as [y' m' d']; unfold date_in_range, strftime_Ymd;
    cbn [year month day].
  intros (Hy & Hm & Hd) (Hy' & Hm' & Hd') H.
  injection H as H1 H2 H3 H4 H5 H6 H7 H8.
  apply digit_inj in H1, H2, H3, H4, H5, H6, H7, H8.
  assert (y = y') by (Z.div_mod_to_equations; lia).
  assert (m = m') by (Z.div_mod_to_equations; lia).
  assert (d = d') by (Z.div_mod_to_equations; lia).
  now subst.
Qed.

(** Two different periods never get the same label, so they never share
    an output directory or a file name. *)
Theorem get_period_label_injective (s e s' e' : option date) :
  bound_in_range s -> bound_in_range e ->
  bound_in_range s' -> bound_in_range e' ->
  get_period_label s e = get_period_label s' e' ->
  s = s' /\ e = e'.
Proof.
  intros Hs He Hs' He' H.
  assert (Hend : forall x y : option date,
            bound_in_range x -> bound_in_range y ->
            match x with Some t => strftime_Ymd t | None => "End"%string end
            = match y with Some t => strftime_Ymd t | None => "End"%string end ->
            x = y).
  { intros [x|] [y|] Hx Hy E; cbn in Hx, Hy.
    - f_equal; now apply strftime_Ymd_inj.
    - unfold strftime_Ymd in E; injection E as E _.
      now destruct (digit_is_digit (year x / 1000)) as (_ & _ & []).
    - unfold strftime_Ymd in E; injection E as E _.
      now destruct (digit_is_digit (year y / 1000)) as (_ & _ & []).
    - reflexivity. }
  unfold get_period_label in H.
  destruct s as [a|], s' as [b|]; cbn in Hs, Hs'.
  - unfold strftime_Ymd in H at 1 3; cbn [String.append] in H.
    injection H as H1 H2 H3 H4 H5 H6 H7 H8 Hrest.
    assert (E : strftime_Ymd a = strftime_Ymd b)
      by (unfold strftime_Ymd; congruence).
    split; [f_equal; now apply strftime_Ymd_inj | now apply Hend].
  - unfold strftime_Ymd in H at 1; cbn [String.append] in H.
    injection H as H1 _.
    now destruct (digit_is_digit (year a / 1000)) as (_ & [] & _).
  - unfold strftime_Ymd in H at 2; cbn [String.append] in H.
    injection H as H1 _.
    now destruct (digit_is_digit (year b / 1000)) as (_ & [] & _).
  - cbn [String.append] in H; injection H as Hrest.
    split; [reflexivity | now apply Hend].
Qed.

Lemma get_period_label_injective_witness :
  bound_in_range (Some (mkDate 2024 1 1))
  /\ bound_in_range None
  /\ get_period_label (Some (mkDate 2024 1 1)) None
     = get_period_label (Some (mkDate 2024 1 1)) None
  /\ Some (mkDate 2024 1 1) = Some (mkDate 2024 1 1)
  /\ @None date = None.
Proof.
  assert (H1 : bound_in_range (Some (mkDate 2024 1 1)))
    by (cbn; unfold date_in_range; cbn; lia).
  split; [exact H1|]; split; [exact I|]; split; [reflexivity|].
  exact (get_period_label_injective (Some (mkDate 2024 1 1)) None
           (Some (mkDate 2024 1 1)) None H1 I H1 I eq_refl).
Defined.

Lemma replace_space_app (s t : string) :
  replace_space (s ++ t) = (replace_space s ++ replace_space t)%string.
Proof.
  induction s as [|c s IH]; cbn [String.append replace_space];
    [reflexivity | now rewrite IH].
Qed.

Lemma replace_space_strftime (t : date) :
  replace_space (strftime_Ymd t) = strftime_Ymd t.
Proof.
  unfold strftime_Ymd; cbn [replace_space].
  now rewrite !(proj1 (digit_is_digit _)).
Qed.

(** A period label never contains a space, so the [replace(' ', '_')] of
    the file names leaves it as it is: the report, the data file and the
    plots of a run are all named [asset_label...]. *)
Theorem period_label_in_filenames (asset_name : string) (s e : option date) :
  let label := get_period_label s e in
  replace_space label = label
  /\ summary_report_filename asset_name label
     = (asset_name ++ "_" ++ label ++ "_SummaryReport.txt")%string
  /\ processed_data_filename asset_name label
     = (asset_name ++ "_" ++ label ++ "_DailyDirectionData.csv")%string
  /\ filename_suffix asset_name label = (asset_name ++ "_" ++ label)%string.
Proof.
  intros label.
  assert (E : replace_space label = label).
  { unfold label, get_period_label; rewrite !replace_space_app.
    destruct s, e; rewrite ?replace_space_strftime; reflexivity. }
  unfold summary_report_filename, processed_data_filename, filename_suffix.
  now rewrite E.
Qed.

(** ** The plotted series *)

Lemma last_default {A : Type} (l : list A) (d d' : A) :
  l <> [] -> last l d = last l d'.
Proof.
  induction l as [|a l IH]; intros H; [contradiction|].
  destruct l as [|b l]; [reflexivity | apply IH; discriminate].
Qed.

Lemma last_cumsum_from (p : string -> bool) (l : list string) :
  forall acc,
    last (Pandas.cumsum_from acc (map p l)) acc = acc + count p l.
Proof.
  induction l as [|x l IH]; intros acc; cbn [map Pandas.cumsum_from].
  - unfold count; simpl; lia.
  - rewrite count_cons.
    transitivity (last (Pandas.cumsum_from (acc + Z.b2z (p x)) (map p l))
                       (acc + Z.b2z (p x))); [|rewrite IH; lia].
    destruct (Pandas.cumsum_from (acc + Z.b2z (p x)) (map p l)) eqn:E;
      [reflexivity|].
    change (last (z :: l0) acc = last (z :: l0) (acc + Z.b2z (p x))).
    apply last_default; discriminate.
Qed.

Lemma nth_cumsum_from (p : string -> bool) (l : list string) :
  forall acc i v,
    nth_error (Pandas.cumsum_from acc (map p l)) i = Some v ->
    v = acc + count p (firstn (S i) l) /\ (i < List.length l)%nat.
Proof.
  induction l as [|x l IH]; intros acc i v; cbn [map Pandas.cumsum_from].
  - destruct i; discriminate.
  - destruct i as [|i]; cbn [nth_error].
    + intros H; injection H as <-; cbn [firstn List.length].
      rewrite count_cons; unfold count at 1; destruct l; simpl; lia.
    + intros H; apply IH in H as (-> & Hi).
      change (firstn (S (S i)) (x :: l)) with (x :: firstn (S i) l).
      rewrite count_cons; cbn [List.length]; lia.
Qed.

Lemma label_counts_le (l : list string) :
  0 <= count (fun d => (d =? "UP")%string) l
  /\ 0 <= count (fun d => (d =? "DOWN")%string) l
  /\ 0 <= count (fun d => (d =? "Break Even")%string) l
  /\ count (fun d => (d =? "UP")%string) l
     + count (fun d => (d =? "DOWN")%string) l
     + count (fun d => (d =? "Break Even")%string) l
     = count (fun d => existsb (String.eqb d) directions_order) l.
Proof.
  repeat split; try apply count_nonneg.
  induction l as [|x l IH]; [reflexivity|].
  rewrite !count_cons, <- IH; unfold directions_order; cbn [existsb].
  destruct (String.eqb_spec x "UP"), (String.eqb_spec x "DOWN"),
           (String.eqb_spec x "Break Even"); subst; try discriminate;
    cbn [orb Z.b2z]; lia.
Qed.

(** The labels of the enriched frame are those of the input frame. *)
Lemma enriched_label_count (df : list PriceBar) (pm : Q) (pd : Z)
    (p : string -> bool) :
  count p (map (fun a => Direction (bar a)) (fst (run_analysis df pm pd)))
  = count (fun r => p (Direction r)) df.
Proof.
  destruct (run_analysis_columns df pm pd) as (Hb & _).
  rewrite <- (map_map bar Direction), Hb; apply count_map.
Qed.

(** The stacked day counts end at the summary's counts: the UP and DOWN
    series at [up_days] and [down_days], the Break Even series at most at
    [break_even_days] (exactly there when every label is one of the three);
    at every row the three series add up to at most the number of rows so
    far. *)
Theorem days_trend_matches_summary (df : list PriceBar) (pm : Q) (pd : Z) :
  df <> [] ->
  let out := fst (run_analysis df pm pd) in
  let t := plot_cumulative_days_trend out in
  exists s,
    snd (run_analysis df pm pd) = Some s
    /\ last (UP_Cumulative t) 0 = up_days s
    /\ last (DOWN_Cumulative t) 0 = down_days s
    /\ last (BreakEven_Cumulative t) 0 <= break_even_days s
    /\ ((forall a, In a out -> known_direction a = true) ->
        last (BreakEven_Cumulative t) 0 = break_even_days s)
    /\ (forall i u d b,
          nth_error (UP_Cumulative t) i = Some u ->
          nth_error (DOWN_Cumulative t) i = Some d ->
          nth_error (BreakEven_Cumulative t) i = Some b ->
          0 <= u /\ 0 <= d /\ 0 <= b /\ u + d + b <= Z.of_nat (S i)).
Proof.
  intros Hne out t.
  destruct (run_analysis_counts df pm pd Hne) as (s & Hs & Ht & Hu & Hd & Hb & _).
  pose proof (up_down_disjoint df) as Hsum.
  set (labels := map (fun a => Direction (bar a)) out).
  assert (Hlast : forall p, last (Pandas.cumsum (map p labels)) 0
                            = count (fun r => p (Direction r)) df).
  { intros p; unfold Pandas.cumsum; rewrite last_cumsum_from.
    unfold labels, out; rewrite enriched_label_count; lia. }
  destruct (label_counts_le (map Direction df)) as (_ & _ & _ & Hthree).
  rewrite !count_map in Hthree.
  pose proof (count_le_length
                (fun r => existsb (String.eqb (Direction r)) directions_order) df) as Hle.
  exists s; split; [exact Hs|].
  unfold t, plot_cumulative_days_trend, Pandas.col;
    cbn [UP_Cumulative DOWN_Cumulative BreakEven_Cumulative]; fold labels.
  rewrite !Hlast.
  split; [now rewrite Hu|]; split; [now rewrite Hd|]; split; [lia|]; split.
  - intros Hknown.
    assert (count (fun r => existsb (String.eqb (Direction r)) directions_order) df
            = Z.of_nat (List.length df)); [|lia].
    destruct (run_analysis_columns df pm pd) as (Hbar & _); fold out in Hbar.
    rewrite <- Hbar at 1; rewrite count_map, <- Hbar, length_map.
    unfold count; rewrite filter_all; [reflexivity|].
    intros a Ha; exact (Hknown a Ha).
  - intros i u d b Hiu Hid Hib.
    apply nth_cumsum_from in Hiu as (-> & Hi), Hid as (-> & _), Hib as (-> & _).
    destruct (label_counts_le (firstn (S i) labels)) as (H1 & H2 & H3 & H4).
    pose proof (count_le_length
                  (fun d => existsb (String.eqb d) directions_order)
                  (firstn (S i) labels)) as H5.
    pose proof (firstn_le_length (S i) labels) as H6.
    rewrite length_firstn in H5.
    repeat split; lia.
Qed.

Lemma days_trend_matches_summary_witness :
  odd_label <> []
  /\ let out := fst (run_analysis odd_label 10 2) in
     let t := plot_cumulative_days_trend out in
     exists s,
       snd (run_analysis odd_label 10 2) = Some s
       /\ last (UP_Cumulative t) 0 = up_days s
       /\ last (DOWN_Cumulative t) 0 = down_days s
       /\ last (BreakEven_Cumulative t) 0 <= break_even_days s
       /\ ((forall a, In a out -> known_direction a = true) ->
           last (BreakEven_Cumulative t) 0 = break_even_days s)
       /\ (forall i u d b,
             nth_error (UP_Cumulative t) i = Some u ->
             nth_error (DOWN_Cumulative t) i = Some d ->
             nth_error (BreakEven_Cumulative t) i = Some b ->
             0 <= u /\ 0 <= d /\ 0 <= b /\ u + d + b <= Z.of_nat (S i)).
Proof.
  split; [discriminate | apply (days_trend_matches_summary odd_label 10 2); discriminate].
Defined.

Lemma where_fillna {R : Type} (p : R -> bool) (f : R -> Q) (g : Q -> Q) (l : list R) :
  Series.fillna 0%Q (map (option_map g) (Series.where_ (map p l) (map f l)))
  = map (fun a => if p a then g (f a) else 0%Q) l.
Proof.
  unfold Series.fillna, Series.where_.
  induction l as [|a l IH]; cbn [map Pandas.map2]; [reflexivity|].
  rewrite IH; destruct (p a); reflexivity.
Qed.

Lemma sum_masked {R : Type} (p : R -> bool) (f : R -> Q) (l : list R) :
  (Pandas.sum (map (fun a => if p a then f a else 0) l)
   == Pandas.sum (map f (filter p l)))%Q.
Proof.
  induction l as [|a l IH]; cbn [map filter Pandas.sum]; [reflexivity|].
  destruct (p a); cbn [map Pandas.sum]; rewrite IH; ring.
Qed.

Lemma lookup_count_label (k k' : string) (s : list (string * Z)) :
  Series.lookup k (Series.count_label k' s)
  = if (k =? k')%string
    then Some (count_of (Series.lookup k s) + 1)
    else Series.lookup k s.
Proof.
  induction s as [|[k0 n] s IH]; cbn [Series.count_label Series.lookup].
  - destruct (k =? k')%string; reflexivity.
  - destruct (String.eqb_spec k' k0) as [->|N]; cbn [Series.lookup].
    + destruct (k =? k0)%string; reflexivity.
    + rewrite IH.
      destruct (String.eqb_spec k k0) as [->|N0]; [|reflexivity].
      destruct (String.eqb_spec k0 k') as [E|_]; [congruence | reflexivity].
Qed.

Lemma lookup_value_counts (k : string) (l : list string) :
  count_of (Series.lookup k (Series.value_counts l)) = count (String.eqb k) l.
Proof.
  unfold Series.value_counts.
  assert (H : forall s,
            count_of (Series.lookup k (fold_left (fun acc x => Series.count_label x acc) l s))
            = count_of (Series.lookup k s) + count (String.eqb k) l).
  { induction l as [|x l IH]; intros s; cbn [fold_left].
    - unfold count; simpl; lia.
    - rewrite IH, lookup_count_label, count_cons.
      destruct (k =? x)%string; cbn [count_of Z.b2z]; lia. }
  rewrite H; cbn [Series.lookup count_of]; lia.
Qed.

(** The pie's slices are [up_days], [down_days] and the number of rows
    labelled 'Break Even'.  The last one is at most [break_even_days]: rows
    with any other label are in the report's break-even count but in no
    slice; the two agree when every label is one of the three. *)
Theorem pie_slices_match_summary (df : list PriceBar) (pm : Q) (pd : Z) :
  df <> [] ->
  let out := fst (run_analysis df pm pd) in
  exists s grey,
    snd (run_analysis df pm pd) = Some s
    /\ plot_overall_distribution_pie out = [up_days s; down_days s; grey]
    /\ grey = count (fun r => (Direction r =? "Break Even")%string) df
    /\ 0 <= grey <= break_even_days s
    /\ up_days s + down_days s + grey <= total_days s
    /\ ((forall a, In a out -> known_direction a = true) ->
        grey = break_even_days s
        /\ up_days s + down_days s + grey = total_days s).
Proof.
  intros Hne out.
  destruct (run_analysis_counts df pm pd Hne) as (s & Hs & Ht & Hu & Hd & Hb & _).
  pose proof (up_down_disjoint df) as Hsum.
  destruct (label_counts_le (map Direction df)) as (_ & _ & H0 & Hthree).
  rewrite !count_map in Hthree; rewrite !count_map in H0.
  pose proof (count_le_length
                (fun r => existsb (String.eqb (Direction r)) directions_order) df) as Hle.
  assert (Hslice : forall k,
            count_of (Series.lookup k
                        (Series.value_counts (map (fun a => Direction (bar a)) out)))
            = count (fun r => (Direction r =? k)%string) df).
  { intros k; rewrite lookup_value_counts; unfold out.
    rewrite enriched_label_count; apply count_ext; intros r _; apply String.eqb_sym. }
  exists s, (count (fun r => (Direction r =? "Break Even")%string) df).
  split; [exact Hs|]; split; [|split; [reflexivity|]].
  - unfold plot_overall_distribution_pie, Series.reindex, Series.fillna, Pandas.col;
      cbn [map].
    rewrite Hu, Hd, <- !Hslice; reflexivity.
  - split; [lia|]; split; [lia|].
    intros Hknown.
    assert (count (fun r => existsb (String.eqb (Direction r)) directions_order) df
            = Z.of_nat (List.length df)); [|lia].
    destruct (run_analysis_columns df pm pd) as (Hbar & _); fold out in Hbar.
    rewrite <- Hbar at 1; rewrite count_map, <- Hbar, length_map.
    unfold count; rewrite filter_all; [reflexivity|].
    intros a Ha; exact (Hknown a Ha).
Qed.

Lemma pie_slices_match_summary_witness :
  odd_label <> []
  /\ let out := fst (run_analysis odd_label 10 2) in
     exists s grey,
       snd (run_analysis odd_label 10 2) = Some s
       /\ plot_overall_distribution_pie out = [up_days s; down_days s; grey]
       /\ grey = count (fun r => (Direction r =? "Break Even")%string) odd_label
       /\ 0 <= grey <= break_even_days s
       /\ up_days s + down_days s + grey <= total_days s
       /\ ((forall a, In a out -> known_direction a = true) ->
           grey = break_even_days s
           /\ up_days s + down_days s + grey = total_days s).
Proof.
  split; [discriminate | apply (pie_slices_match_summary odd_label 10 2); discriminate].
Defined.

(** ** Backups *)

Lemma insert_by_mtime_perm (f : BackupFile) (l : list BackupFile) :
  Permutation (insert_by_mtime f l) (f :: l).
Proof.
  induction l as [|g l IH]; cbn [insert_by_mtime]; [reflexivity|].
  destruct (mtime f <=? mtime g); [reflexivity|].
  rewrite IH; apply perm_swap.
Qed.

Lemma sorted_by_mtime_perm (l : list BackupFile) : Permutation (sorted_by_mtime l) l.
Proof.
  induction l as [|f l IH]; cbn [sorted_by_mtime fold_right]; [reflexivity|].
  fold (sorted_by_mtime l); rewrite insert_by_mtime_perm; now constructor.
Qed.

Lemma sorted_by_mtime_sorted (l : list BackupFile) :
  StronglySorted (fun f g => mtime f <= mtime g) (sorted_by_mtime l).
Proof.
  induction l as [|f l IH]; cbn [sorted_by_mtime fold_right]; [constructor|].
  fold (sorted_by_mtime l); revert IH; generalize (sorted_by_mtime l); clear l.
  induction 1 as [|g l Hs IH Hg]; cbn [insert_by_mtime]; [repeat constructor|].
  pose proof (proj1 (Forall_forall _ _) Hg) as Hg'.
  destruct (mtime f <=? mtime g) eqn:E.
  - apply Z.leb_le in E; constructor; [now constructor|].
    constructor; [exact E|].
    apply Forall_forall; intros h Hh; specialize (Hg' h Hh); cbn beta in Hg'; lia.
  - apply Z.leb_gt in E; constructor; [exact IH|].
    apply Forall_forall; intros h Hh.
    apply (Permutation_in _ (insert_by_mtime_perm f l)) in Hh as [<- | Hh];
      [lia | now apply Hg'].
Qed.

Lemma delete_oldest_spec (existing : list BackupFile) (max_backups : Z) :
  match delete_oldest existing max_backups with
  | None => max_backups <= 0
  | Some remaining =>
      0 < max_backups
      /\ exists removed,
           existing = removed ++ remaining
           /\ Z.of_nat (List.length remaining)
              = Z.min (Z.of_nat (List.length existing)) (max_backups - 1)
  end.
Proof.
  induction existing as [|f rest IH]; cbn [delete_oldest].
  - destruct (0 >=? max_backups) eqn:E.
    + apply Z.geb_le in E; exact E.
    + rewrite Z.geb_leb in E; apply Z.leb_gt in E.
      split; [exact E|]; exists []; split; [reflexivity | simpl; lia].
  - destruct (Z.of_nat (List.length (f :: rest)) >=? max_backups) eqn:E.
    + apply Z.geb_le in E.
      destruct (delete_oldest rest max_backups) as [remaining|]; [|exact IH].
      destruct IH as (Hpos & removed & -> & Hlen).
      split; [exact Hpos|]; exists (f :: removed); split; [reflexivity|].
      rewrite Hlen; cbn [List.length app] in *; rewrite length_app in *; lia.
    + rewrite Z.geb_leb in E; apply Z.leb_gt in E.
      split; [cbn [List.length] in E; lia|].
      exists []; split; [reflexivity | lia].
Qed.

(** With a limit of at least one backup, the directory ends with at most
    that many files, one of them named for today; only the oldest files
    were deleted, just enough of them to make room for the new one; and
    the new backup is written exactly when no file that was kept already
    has today's name. *)
Theorem manage_backups_bounded (backup_dir : list BackupFile) (source_mtime : Z)
    (asset_name today_str : string) (config : BackupSettings) :
  enable_backups config = true ->
  1 <= max_backups_per_asset config ->
  let after := manage_backups backup_dir (Some source_mtime) asset_name today_str config in
  let backup_name := (asset_name ++ "_backup_" ++ today_str ++ ".csv")%string in
  Z.of_nat (List.length after) <= max_backups_per_asset config
  /\ (exists f, In f after /\ file_name f = backup_name)
  /\ exists removed kept,
       Permutation backup_dir (removed ++ kept)
       /\ (forall f g, In f removed -> In g kept -> mtime f <= mtime g)
       /\ Z.of_nat (List.length kept)
          = Z.min (Z.of_nat (List.length backup_dir)) (max_backups_per_asset config - 1)
       /\ ((exists f, In f kept /\ file_name f = backup_name) -> after = kept)
       /\ ((forall f, In f kept -> file_name f <> backup_name) ->
           after = kept ++ [mkFile backup_name source_mtime]).
Proof.
  intros Hen Hmax after backup_name.
  unfold after, manage_backups; rewrite Hen; cbn [negb].
  pose proof (delete_oldest_spec (sorted_by_mtime backup_dir)
                (max_backups_per_asset config)) as Hspec.
  destruct (delete_oldest (sorted_by_mtime backup_dir) (max_backups_per_asset config))
    as [kept|]; [|lia].
  destruct Hspec as (_ & removed & Hsplit & Hlen).
  rewrite (Permutation_length (sorted_by_mtime_perm backup_dir)) in Hlen.
  fold backup_name.
  assert (Hperm : Permutation backup_dir (removed ++ kept)).
  { rewrite <- Hsplit; apply Permutation_sym, sorted_by_mtime_perm. }
  assert (Hold : forall f g, In f removed -> In g kept -> mtime f <= mtime g).
  { pose proof (sorted_by_mtime_sorted backup_dir) as Hs; rewrite Hsplit in Hs.
    clear Hsplit Hlen Hperm; induction removed as [|r removed IH]; intros f g Hf Hg;
      [contradiction|].
    cbn [app] in Hs; apply StronglySorted_inv in Hs as (Hs & Hr).
    destruct Hf as [<- | Hf]; [|now apply IH].
    rewrite Forall_forall in Hr; apply (Hr g), in_or_app; now right. }
  destruct (existsb (fun f => (file_name f =? backup_name)%string) kept) eqn:E.
  - assert (Hex : exists f, In f kept /\ file_name f = backup_name).
    { apply existsb_exists in E as (f & Hf & En); apply String.eqb_eq in En; eauto. }
    split; [lia|]; split; [exact Hex|].
    exists removed, kept; repeat split; auto.
    intros Hno; destruct Hex as (f & Hf & En); now destruct (Hno f Hf).
  - assert (Hno : forall f, In f kept -> file_name f <> backup_name).
    { intros f Hf En.
      assert (T : existsb (fun f => (file_name f =? backup_name)%string) kept = true)
        by (apply existsb_exists; exists f; split; [exact Hf | now apply String.eqb_eq]).
      congruence. }
    split; [rewrite length_app; cbn [List.length]; lia|]; split.
    + exists (mkFile backup_name source_mtime); split;
        [apply in_or_app; right; now left | reflexivity].
    + exists removed, kept; repeat split; auto.
      intros (f & Hf & En); now destruct (Hno f Hf).
Qed.

Lemma manage_backups_bounded_witness :
  enable_backups (mkSettings true 3) = true
  /\ 1 <= max_backups_per_asset (mkSettings true 3)
  /\ let after := manage_backups backups_sample (Some 40) "GOLD" "2024-01-04"
                    (mkSettings true 3) in
     let backup_name := "GOLD_backup_2024-01-04.csv"%string in
     Z.of_nat (List.length after) <= 3
     /\ (exists f, In f after /\ file_name f = backup_name)
     /\ exists removed kept,
          Permutation backups_sample (removed ++ kept)
          /\ (forall f g, In f removed -> In g kept -> mtime f <= mtime g)
          /\ Z.of_nat (List.length kept)
             = Z.min (Z.of_nat (List.length backups_sample)) (3 - 1)
          /\ ((exists f, In f kept /\ file_name f = backup_name) -> after = kept)
          /\ ((forall f, In f kept -> file_name f <> backup_name) ->
              after = kept ++ [mkFile backup_name 40]).
Proof.
  split; [reflexivity|]; split; [cbn; lia|].
  apply (manage_backups_bounded backups_sample 40 "GOLD" "2024-01-04"
           (mkSettings true 3) eq_refl).
  cbn; lia.
Defined.

(** With a limit of zero (or less) the loop deletes every backup and then
    fails on the empty list, so no new backup is made: the directory is
    left empty.  With backups disabled, or without a raw file, the
    directory is left as it was. *)
Theorem manage_backups_edge_cases (backup_dir : list BackupFile)
    (asset_name today_str : string) (config : BackupSettings) :
  (enable_backups config = true -> max_backups_per_asset config <= 0 ->
   forall source_mtime,
     manage_backups backup_dir (Some source_mtime) asset_name today_str config = [])
  /\ (enable_backups config = false ->
      forall source_file,
        manage_backups backup_dir source_file asset_name today_str config = backup_dir)
  /\ manage_backups backup_dir None asset_name today_str config = backup_dir.
Proof.
  split; [|split].
  - intros Hen Hmax source_mtime; unfold manage_backups; rewrite Hen; cbn [negb].
    pose proof (delete_oldest_spec (sorted_by_mtime backup_dir)
                  (max_backups_per_asset config)) as Hspec.
    destruct (delete_oldest _ _); [lia | reflexivity].
  - intros Hen source_file; unfold manage_backups; now rewrite Hen.
  - unfold manage_backups; destruct (negb (enable_backups config)); reflexivity.
Qed.

Lemma manage_backups_edge_cases_witness :
  enable_backups (mkSettings true 0) = true
  /\ max_backups_per_asset (mkSettings true 0) <= 0
  /\ manage_backups backups_sample (Some 40) "GOLD" "2024-01-04" (mkSettings true 0) = [].
Proof.
  split; [reflexivity|]; split; [cbn; lia|].
  apply (proj1 (manage_backups_edge_cases backups_sample "GOLD" "2024-01-04"
                  (mkSettings true 0)) eq_refl).
  cbn; lia.
Defined.

(** ** Merging fetched data *)

Section Merge.

Context {R : Type} (Date_of : R -> date).

Lemma find_app (f : R -> bool) (a b : list R) :
  find f (a ++ b) = match find f a with
                    | Some x => Some x
                    | None => find f b
                    end.
Proof.
  induction a as [|x a IH]; cbn [app find]; [reflexivity|].
  destruct (f x); [reflexivity | exact IH].
Qed.

Lemma find_exists (f : R -> bool) (l : list R) (x : R) :
  In x l -> f x = true -> exists y, find f l = Some y.
Proof.
  induction l as [|z l IH]; intros Hx Hf; [contradiction|].
  cbn [find]; destruct (f z) eqn:E; [eauto|].
  destruct Hx as [-> | Hx]; [congruence | now apply IH].
Qed.

Lemma drop_duplicates_last_In (r : R) (l : list R) :
  In r (Frame.drop_duplicates_last Frame.date_eqb Date_of l)
  <-> last_of_date Date_of r l = Some r.
Proof.
  unfold Frame.drop_duplicates_last, Frame.drop_duplicates_first, last_of_date.
  rewrite <- in_rev, (drop_duplicates_from_In _ _ date_eqb_eq); cbn [In]; tauto.
Qed.

Lemma drop_duplicates_last_NoDup (l : list R) :
  NoDup (map Date_of (Frame.drop_duplicates_last Frame.date_eqb Date_of l)).
Proof.
  unfold Frame.drop_duplicates_last, Frame.drop_duplicates_first.
  rewrite map_rev; apply NoDup_rev.
  apply (drop_duplicates_from_NoDup _ _ date_eqb_eq).
Qed.

(** A row is in the merged frame when it is the last fetched row of its
    date, or the last stored row of a date that was not fetched: fetched
    data replaces stored data. *)
Theorem df_combined_rows (df_existing df_new : list R) (r : R) :
  In r (df_combined Date_of df_existing df_new)
  <-> last_of_date Date_of r df_new = Some r
      \/ (last_of_date Date_of r df_new = None
          /\ last_of_date Date_of r df_existing = Some r).
Proof.
  unfold df_combined.
  split.
  - intros H; apply (Permutation_in _ (sort_values_perm Date_of _)) in H.
    apply drop_duplicates_last_In in H.
    unfold last_of_date in *; rewrite rev_app_distr, find_app in H.
    destruct (find _ (rev df_new)); [left | right]; auto.
  - intros H.
    apply (Permutation_in _ (Permutation_sym (sort_values_perm Date_of _))).
    apply drop_duplicates_last_In.
    unfold last_of_date in *; rewrite rev_app_distr, find_app.
    destruct H as [-> | (-> & H)]; auto.
Qed.

Lemma df_combined_ascending (df_existing df_new : list R) :
  dates_ascending (map Date_of (df_combined Date_of df_existing df_new)).
Proof.
  apply sort_values_ascending, drop_duplicates_last_NoDup.
Qed.

Lemma last_of_date_exists (l : list R) (x : R) :
  In x l ->
  exists y, last_of_date Date_of x l = Some y /\ In y l /\ Date_of y = Date_of x.
Proof.
  intros Hx; unfold last_of_date.
  destruct (find_exists (fun z => Frame.date_eqb (Date_of z) (Date_of x)) (rev l) x)
    as (y & Hy); [now apply in_rev in Hx | now apply date_eqb_eq|].
  exists y; split; [exact Hy|].
  apply find_some in Hy as (Hin & E); apply date_eqb_eq in E.
  split; [now apply in_rev | exact E].
Qed.

Lemma last_of_date_same (l : list R) (x y : R) :
  Date_of x = Date_of y -> last_of_date Date_of x l = last_of_date Date_of y l.
Proof. unfold last_of_date; now intros ->. Qed.

(** The merged frame is sorted by strictly ascending date, and holds
    exactly the dates of the stored and of the fetched frame. *)
Theorem df_combined_dates (df_existing df_new : list R) :
  dates_ascending (map Date_of (df_combined Date_of df_existing df_new))
  /\ forall d,
       In d (map Date_of (df_combined Date_of df_existing df_new))
       <-> In d (map Date_of df_existing) \/ In d (map Date_of df_new).
Proof.
  split; [apply df_combined_ascending|].
  intros d; rewrite !in_map_iff; split.
  - intros (r & <- & Hr); apply df_combined_rows in Hr.
    destruct Hr as [H | (_ & H)]; apply find_some in H as (H & _);
      apply in_rev in H; [right | left]; eauto.
  - intros [(x & <- & Hx) | (x & <- & Hx)].
    + destruct (last_of_date Date_of x df_new) as [z|] eqn:N.
      * pose proof (find_some _ _ N) as (Hz & E); apply date_eqb_eq in E.
        exists z; split; [exact E|].
        apply df_combined_rows; left.
        now rewrite (last_of_date_same df_new z x E).
      * destruct (last_of_date_exists df_existing x Hx) as (y & Hy & _ & E).
        exists y; split; [exact E|].
        apply df_combined_rows; right.
        rewrite !(last_of_date_same _ y x E); auto.
    + destruct (last_of_date_exists df_new x Hx) as (y & Hy & _ & E).
      exists y; split; [exact E|].
      apply df_combined_rows; left.
      now rewrite (last_of_date_same _ y x E).
Qed.

Lemma distinct_dates_same_row (l : list R) (x y : R) :
  NoDup (map Date_of l) -> In x l -> In y l -> Date_of x = Date_of y -> x = y.
Proof.
  induction l as [|a l IH]; intros Hnd Hx Hy E; [contradiction|].
  cbn [map] in Hnd; apply NoDup_cons_iff in Hnd as (Ha & Hnd).
  destruct Hx as [<- | Hx], Hy as [<- | Hy]; auto.
  - exfalso; apply Ha; rewrite E; now apply in_map.
  - exfalso; apply Ha; rewrite <- E; now apply in_map.
Qed.

Lemma ascending_frames_equal (l1 l2 : list R) :
  dates_ascending (map Date_of l1) ->
  dates_ascending (map Date_of l2) ->
  (forall r, In r l1 <-> In r l2) ->
  l1 = l2.
Proof.
  revert l2; induction l1 as [|a l1 IH]; intros l2 H1 H2 Hsame.
  - destruct l2 as [|b l2]; [reflexivity|].
    exfalso; apply (proj2 (Hsame b)); now left.
  - destruct l2 as [|b l2]; [exfalso; apply (proj1 (Hsame a)); now left|].
    cbn [map] in H1, H2.
    pose proof (ascending_NoDup _ H1) as N1; pose proof (ascending_NoDup _ H2) as N2.
    apply StronglySorted_inv in H1 as (S1 & F1), H2 as (S2 & F2).
    rewrite Forall_forall in F1, F2.
    assert (a = b) as <-.
    { destruct (proj1 (Hsame a) (or_introl eq_refl)) as [E | Ha]; [now symmetry|].
      destruct (proj2 (Hsame b) (or_introl eq_refl)) as [E | Hb]; [exact E|].
      destruct (F2 (Date_of a) (in_map _ _ _ Ha)) as (_ & C).
      destruct (F1 (Date_of b) (in_map _ _ _ Hb)) as (C' & _).
      congruence. }
    f_equal; apply IH; auto.
    cbn [map] in N1, N2; apply NoDup_cons_iff in N1 as (A1 & _), N2 as (A2 & _).
    intros r; split; intros Hr.
    + destruct (proj1 (Hsame r) (or_intror Hr)) as [<- | H]; [|exact H].
      exfalso; apply A1; now apply in_map.
    + destruct (proj2 (Hsame r) (or_intror Hr)) as [<- | H]; [|exact H].
      exfalso; apply A2; now apply in_map.
Qed.

(** Merging the same fetched frame a second time changes nothing. *)
Theorem df_combined_idempotent (df_existing df_new : list R) :
  df_combined Date_of (df_combined Date_of df_existing df_new) df_new
  = df_combined Date_of df_existing df_new.
Proof.
  set (c := df_combined Date_of df_existing df_new).
  apply ascending_frames_equal; try apply df_combined_ascending.
  intros r; rewrite df_combined_rows; fold c.
  assert (Hc : last_of_date Date_of r c = Some r <-> In r c).
  { split.
    - intros H; apply find_some in H as (H & _); now apply in_rev.
    - intros H; destruct (last_of_date_exists c r H) as (y & Hy & Hin & E).
      rewrite Hy; f_equal.
      apply (distinct_dates_same_row c); auto.
      apply ascending_NoDup, df_combined_ascending. }
  pose proof (df_combined_rows df_existing df_new r) as Hr; fold c in Hr.
  rewrite Hc, Hr; tauto.
Qed.

(** When the stored frame has no duplicate date, the merge never loses a
    row count: [newly_added_count] is not negative. *)
Theorem newly_added_count_nonneg (df_existing df_new : list R) :
  NoDup (map Date_of df_existing) ->
  0 <= newly_added_count Date_of df_existing df_new.
Proof.
  intros Hnd; unfold newly_added_count.
  assert (List.length (map Date_of df_existing)
          <= List.length (map Date_of (df_combined Date_of df_existing df_new)))%nat.
  { apply NoDup_incl_length; [exact Hnd|].
    intros d Hd; apply df_combined_dates; now left. }
  rewrite !length_map in H; lia.
Qed.

End Merge.

Lemma newly_added_count_nonneg_witness :
  NoDup (map Date scenario_A)
  /\ 0 <= newly_added_count Date scenario_A scenario_B.
Proof.
  assert (H : NoDup (map Date scenario_A)).
  { repeat constructor; cbn; intuition discriminate. }
  split; [exact H | exact (newly_added_count_nonneg Date scenario_A scenario_B H)].
Defined.

(** * Binary64: what rounding does to the sums and the percentages *)

(** ** Powers of two *)

Lemma pow2_pos (k : Z) : (0 < 2 ^ k)%Q.
Proof. now apply Qpower_0_lt. Qed.

Lemma pow2_plus (a b : Z) : (2 ^ (a + b) == 2 ^ a * 2 ^ b)%Q.
Proof. now apply Qpower_plus. Qed.

Lemma pow2_le (a b : Z) : a <= b -> (2 ^ a <= 2 ^ b)%Q.
Proof. intros H; now apply Qpower_le_compat_l. Qed.

Lemma pow2_lt_inv (a b : Z) : (2 ^ a < 2 ^ b)%Q -> a < b.
Proof. intros H; now apply (Qpower_lt_compat_l_inv 2). Qed.

Lemma pow2_Z (k : Z) : 0 <= k -> (inject_Z (2 ^ k) == 2 ^ k)%Q.
Proof. intros H; now rewrite Zpower_Qpower. Qed.

Lemma pow2_split (a b : Z) : (2 ^ a == 2 ^ (a - b) * 2 ^ b)%Q.
Proof. rewrite <- pow2_plus; now replace (a - b + b) with a by ring. Qed.

(** ** The binary exponent *)

Lemma ilog2_spec (x : Q) :
  (0 < x)%Q ->
  (2 ^ Float64.ilog2 x <= x)%Q /\ (x < 2 ^ (Float64.ilog2 x + 1))%Q.
Proof.
  intros Hx; unfold Float64.ilog2.
  destruct x as [n d]; cbn [Qnum Qden].
  assert (Hn : 0 < n) by (unfold Qlt in Hx; cbn in Hx; lia).
  set (a := Z.log2 n); set (b := Z.log2 (Zpos d)).
  destruct (Z.log2_spec n Hn) as (Ha1 & Ha2); fold a in Ha1, Ha2.
  destruct (Z.log2_spec (Zpos d) (Pos2Z.is_pos d)) as (Hb1 & Hb2); fold b in Hb1, Hb2.
  assert (Ha0 : 0 <= a) by apply Z.log2_nonneg.
  assert (Hb0 : 0 <= b) by apply Z.log2_nonneg.
  rewrite Zle_Qle, pow2_Z in Ha1, Hb1 by assumption.
  rewrite Zlt_Qlt in Ha2, Hb2.
  replace (Z.succ a) with (a + 1) in Ha2 by lia.
  replace (Z.succ b) with (b + 1) in Hb2 by lia.
  rewrite pow2_Z in Ha2, Hb2 by lia.
  assert (Hq : (inject_Z n == (n # d) * inject_Z (Zpos d))%Q).
  { unfold Qeq, Qmult, inject_Z; cbn [Qnum Qden]; rewrite Pos.mul_1_r; ring. }
  set (x := (n # d)%Q) in *.
  destruct (Qle_bool (2 ^ (a - b)) x) eqn:E.
  - apply Qle_bool_iff in E; split; [exact E|].
    (* x * 2^b <= x * d = n < 2^(a+1) = 2^(a-b+1) * 2^b *)
    apply (Qmult_lt_r _ _ (2 ^ b)); [apply pow2_pos|].
    rewrite <- pow2_plus; replace (a - b + 1 + b) with (a + 1) by ring.
    apply Qle_lt_trans with (inject_Z n); [|exact Ha2].
    rewrite Hq; apply Qmult_le_l; assumption.
  - assert (L : (x < 2 ^ (a - b))%Q).
    { apply Qnot_le_lt; intros H; apply Qle_bool_iff in H; congruence. }
    split; [|now replace (a - b - 1 + 1) with (a - b) by ring].
    apply Qlt_le_weak.
    apply (Qmult_lt_r _ _ (2 ^ (b + 1))); [apply pow2_pos|].
    rewrite <- pow2_plus; replace (a - b - 1 + (b + 1)) with a by ring.
    apply Qle_lt_trans with (inject_Z n); [exact Ha1|].
    rewrite Hq; apply Qmult_lt_l; assumption.
Qed.

Lemma ilog2_unique (x : Q) (e : Z) :
  (2 ^ e <= x)%Q -> (x < 2 ^ (e + 1))%Q -> Float64.ilog2 x = e.
Proof.
  intros H1 H2.
  assert (Hx : (0 < x)%Q) by (eapply Qlt_le_trans; [apply (pow2_pos e) | exact H1]).
  destruct (ilog2_spec x Hx) as (S1 & S2).
  assert (A : Float64.ilog2 x < e + 1).
  { apply pow2_lt_inv; eapply Qle_lt_trans; eassumption. }
  assert (B : e < Float64.ilog2 x + 1).
  { apply pow2_lt_inv; eapply Qle_lt_trans; eassumption. }
  lia.
Qed.

Lemma ilog2_mono (x y : Q) :
  (0 < x)%Q -> (x <= y)%Q -> Float64.ilog2 x <= Float64.ilog2 y.
Proof.
  intros Hx Hxy.
  assert (Hy : (0 < y)%Q) by (eapply Qlt_le_trans; eassumption).
  destruct (ilog2_spec x Hx) as (S1 & _), (ilog2_spec y Hy) as (_ & T2).
  assert (A : Float64.ilog2 x < Float64.ilog2 y + 1); [|lia].
  apply pow2_lt_inv.
  eapply Qle_lt_trans; [exact S1|]; eapply Qle_lt_trans; eassumption.
Qed.

Lemma ilog2_compat (x y : Q) : (0 < x)%Q -> (x == y)%Q -> Float64.ilog2 x = Float64.ilog2 y.
Proof.
  intros Hx E; symmetry; apply ilog2_unique; rewrite <- E; now apply ilog2_spec.
Qed.

(** ** Rounding to an integer *)

Lemma rint_spec (x : Q) :
  (x - (1 # 2) <= inject_Z (rint x))%Q /\ (inject_Z (rint x) <= x + (1 # 2))%Q
  /\ ((inject_Z (rint x) == x + (1 # 2))%Q \/ (inject_Z (rint x) == x - (1 # 2))%Q ->
      Z.even (rint x) = true).
Proof.
  unfold rint.
  pose proof (Qfloor_le x) as Hlo; pose proof (Qlt_floor x) as Hhi.
  rewrite inject_Z_plus in Hhi; change (inject_Z 1) with 1%Q in Hhi.
  destruct ((x - inject_Z (Qfloor x)) ?= (1 # 2))%Q eqn:C.
  - apply Qeq_alt in C.
    destruct (Z.even (Qfloor x)) eqn:Ev.
    + repeat split; try lra; intros _; exact Ev.
    + rewrite inject_Z_plus; change (inject_Z 1) with 1%Q.
      repeat split; try lra; intros _.
      rewrite Z.even_add, Ev; reflexivity.
  - apply Qlt_alt in C; repeat split; try lra; intros [H | H]; lra.
  - apply Qgt_alt in C; rewrite inject_Z_plus; change (inject_Z 1) with 1%Q.
    repeat split; try lra; intros [H | H]; lra.
Qed.

Lemma Z_of_Q_lt (a b : Z) : (inject_Z a < inject_Z b + 1)%Q -> a <= b.
Proof.
  intros H; change 1%Q with (inject_Z 1) in H.
  rewrite <- inject_Z_plus, <- Zlt_Qlt in H; lia.
Qed.

Lemma rint_unique (x : Q) (z : Z) :
  (x - (1 # 2) <= inject_Z z)%Q -> (inject_Z z <= x + (1 # 2))%Q ->
  ((inject_Z z == x + (1 # 2))%Q \/ (inject_Z z == x - (1 # 2))%Q -> Z.even z = true) ->
  rint x = z.
Proof.
  intros L U T.
  destruct (rint_spec x) as (L' & U' & T').
  destruct (Z.lt_trichotomy (rint x) z) as [H | [H | H]]; [|exact H|]; exfalso.
  - assert (E : z = rint x + 1).
    { assert (z <= rint x + 1); [|lia].
      apply Z_of_Q_lt; rewrite inject_Z_plus; change (inject_Z 1) with 1%Q; lra. }
    assert (Ez : (inject_Z z == inject_Z (rint x) + 1)%Q).
    { rewrite E, inject_Z_plus; reflexivity. }
    assert (Z.even z = true) by (apply T; left; lra).
    assert (Z.even (rint x) = true) by (apply T'; right; lra).
    rewrite E, Z.even_add in *; destruct (Z.even (rint x)); discriminate.
  - assert (E : rint x = z + 1).
    { assert (rint x <= z + 1); [|lia].
      apply Z_of_Q_lt; rewrite inject_Z_plus; change (inject_Z 1) with 1%Q; lra. }
    assert (Ez : (inject_Z (rint x) == inject_Z z + 1)%Q).
    { rewrite E, inject_Z_plus; reflexivity. }
    assert (Z.even z = true) by (apply T; right; lra).
    assert (Z.even (rint x) = true) by (apply T'; left; lra).
    rewrite E, Z.even_add in *; destruct (Z.even z); discriminate.
Qed.

Lemma rint_Z (z : Z) : rint (inject_Z z) = z.
Proof. apply rint_unique; try lra; try (intros [H | H]; lra). Qed.

Lemma rint_compat (x y : Q) : (x == y)%Q -> rint x = rint y.
Proof.
  intros E; destruct (rint_spec x) as (L & U & T).
  symmetry; apply rint_unique; rewrite <- ?E; auto.
Qed.

Lemma rint_opp (x : Q) : rint (- x) = - rint x.
Proof.
  destruct (rint_spec x) as (L & U & T).
  apply rint_unique; rewrite ?inject_Z_opp; try lra.
  intros H; rewrite Z.even_opp; apply T; destruct H; [right | left]; lra.
Qed.

Lemma rint_mono (x y : Q) : (x <= y)%Q -> rint x <= rint y.
Proof.
  intros H.
  destruct (rint_spec x) as (Lx & Ux & Tx), (rint_spec y) as (Ly & Uy & Ty).
  destruct (Z_le_gt_dec (rint x) (rint y)) as [|G]; [assumption | exfalso].
  assert (E : rint x = rint y + 1).
  { assert (rint x <= rint y + 1); [|lia].
    apply Z_of_Q_lt; rewrite inject_Z_plus; change (inject_Z 1) with 1%Q; lra. }
  assert (Ez : (inject_Z (rint x) == inject_Z (rint y) + 1)%Q).
  { rewrite E, inject_Z_plus; reflexivity. }
  assert (Z.even (rint x) = true) by (apply Tx; left; lra).
  assert (Z.even (rint y) = true) by (apply Ty; right; lra).
  rewrite E, Z.even_add in *; destruct (Z.even (rint y)); discriminate.
Qed.

(** ** Rounding to binary64 *)

Lemma pow2_nonzero (k : Z) : ~ (2 ^ k == 0)%Q.
Proof. pose proof (pow2_pos k); lra. Qed.

Lemma Qabs_nonzero (x : Q) : ~ (x == 0)%Q -> (0 < Qabs x)%Q.
Proof.
  intros H; apply Qabs_case; intros; lra.
Qed.

Lemma rnd_zero (x : Q) : (x == 0)%Q -> Float64.rnd x = 0%Q.
Proof. intros E; unfold Float64.rnd; now rewrite (proj2 (Qeq_bool_iff x 0) E). Qed.

Lemma rnd_nonzero (x : Q) :
  ~ (x == 0)%Q ->
  Float64.rnd x
  = (inject_Z (rint (x / 2 ^ Float64.ulp_exp x)) * 2 ^ Float64.ulp_exp x)%Q.
Proof.
  intros N; unfold Float64.rnd.
  destruct (Qeq_bool x 0) eqn:E; [apply Qeq_bool_iff in E; contradiction | reflexivity].
Qed.

Lemma ulp_exp_compat (x y : Q) :
  ~ (x == 0)%Q -> (x == y)%Q -> Float64.ulp_exp x = Float64.ulp_exp y.
Proof.
  intros N E; unfold Float64.ulp_exp.
  rewrite (ilog2_compat (Qabs x) (Qabs y)); [reflexivity | now apply Qabs_nonzero |].
  now rewrite E.
Qed.

Lemma rnd_compat (x y : Q) : (x == y)%Q -> Float64.rnd x = Float64.rnd y.
Proof.
  intros E.
  destruct (Qeq_dec x 0) as [Z0 | N].
  - rewrite (rnd_zero x Z0), (rnd_zero y); [reflexivity | now rewrite <- E].
  - assert (N' : ~ (y == 0)%Q) by now rewrite <- E.
    rewrite (rnd_nonzero x N), (rnd_nonzero y N'), <- (ulp_exp_compat x y N E).
    rewrite (rint_compat (x / 2 ^ Float64.ulp_exp x) (y / 2 ^ Float64.ulp_exp x));
      [reflexivity | unfold Qdiv; apply Qmult_comp; [exact E | reflexivity]].
Qed.

#[global] Instance rnd_Proper : Proper (Qeq ==> Qeq) Float64.rnd.
Proof. intros x y E; now rewrite (rnd_compat x y E). Qed.

(** The scaled value is below [2^53] in magnitude. *)
Lemma ulp_exp_spec (x : Q) :
  ~ (x == 0)%Q ->
  let E := Float64.ulp_exp x in
  -1074 <= E /\ Float64.ilog2 (Qabs x) - 52 <= E
  /\ (E = -1074 \/ E = Float64.ilog2 (Qabs x) - 52)
  /\ (Qabs x < 2 ^ 53 * 2 ^ E)%Q.
Proof.
  intros N E.
  assert (H1 : -1074 <= E) by (unfold E, Float64.ulp_exp; lia).
  assert (H2 : Float64.ilog2 (Qabs x) - 52 <= E) by (unfold E, Float64.ulp_exp; lia).
  assert (H3 : E = -1074 \/ E = Float64.ilog2 (Qabs x) - 52)
    by (unfold E, Float64.ulp_exp; lia).
  repeat split; try assumption.
  destruct (ilog2_spec (Qabs x) (Qabs_nonzero x N)) as (_ & U).
  eapply Qlt_le_trans; [exact U|].
  rewrite <- pow2_plus; apply pow2_le; lia.
Qed.

Lemma rnd_opp (x : Q) : (Float64.rnd (- x) == - Float64.rnd x)%Q.
Proof.
  destruct (Qeq_dec x 0) as [Z0 | N].
  - rewrite (rnd_zero x Z0), (rnd_zero (- x)); [reflexivity | lra].
  - assert (N' : ~ (- x == 0)%Q) by lra.
    rewrite (rnd_nonzero x N), (rnd_nonzero _ N').
    assert (E : Float64.ulp_exp (- x) = Float64.ulp_exp x).
    { unfold Float64.ulp_exp.
      rewrite (ilog2_compat (Qabs (- x)) (Qabs x));
        [reflexivity | now apply Qabs_nonzero | apply Qabs_opp]. }
    rewrite E.
    rewrite (rint_compat (- x / 2 ^ Float64.ulp_exp x) (- (x / 2 ^ Float64.ulp_exp x)))
      by (field; apply pow2_nonzero).
    rewrite rint_opp, inject_Z_opp; ring.
Qed.

Lemma rnd_nonneg (x : Q) : (0 <= x)%Q -> (0 <= Float64.rnd x)%Q.
Proof.
  intros H.
  destruct (Qeq_dec x 0) as [Z0 | N]; [rewrite (rnd_zero x Z0); lra|].
  rewrite (rnd_nonzero x N).
  apply Qmult_le_0_compat; [|apply Qlt_le_weak, pow2_pos].
  change 0%Q with (inject_Z 0); rewrite <- Zle_Qle, <- (rint_Z 0).
  apply rint_mono.
  apply Qle_shift_div_l; [apply pow2_pos|].
  change (inject_Z 0) with 0%Q; rewrite Qmult_0_l; exact H.
Qed.

Lemma Qabs_inject_Z (m : Z) : (Qabs (inject_Z m) == inject_Z (Z.abs m))%Q.
Proof. destruct m; reflexivity. Qed.

(** A multiple [m * 2^t] of a power of two, with [|m| <= 2^53] and
    [t >= -1074], is a double: rounding leaves it unchanged. *)
Lemma rnd_exact (x : Q) (m t : Z) :
  (x == inject_Z m * 2 ^ t)%Q -> -1074 <= t -> Z.abs m <= 2 ^ 53 ->
  (Float64.rnd x == x)%Q.
Proof.
  intros Hx Ht Hm.
  destruct (Qeq_dec x 0) as [Z0 | N]; [rewrite (rnd_zero x Z0), Z0; reflexivity|].
  rewrite (rnd_nonzero x N).
  destruct (ulp_exp_spec x N) as (E1 & E2 & E3 & _).
  destruct (ilog2_spec (Qabs x) (Qabs_nonzero x N)) as (L & _).
  set (E := Float64.ulp_exp x) in *.
  set (e := Float64.ilog2 (Qabs x)) in *.
  clearbody E e.
  assert (Habs : (Qabs x == inject_Z (Z.abs m) * 2 ^ t)%Q).
  { rewrite Hx, Qabs_Qmult, Qabs_inject_Z, (Qabs_pos (2 ^ t));
      [reflexivity | apply Qlt_le_weak, pow2_pos]. }
  rewrite Habs in L.
  assert (Hm' : (inject_Z (Z.abs m) <= 2 ^ 53)%Q).
  { rewrite <- pow2_Z by lia; now rewrite <- Zle_Qle. }
  assert (He : e - t <= 53).
  { apply (Qpower_le_compat_l_inv 2); [|reflexivity].
    apply (Qmult_le_r _ _ (2 ^ t)); [apply pow2_pos|].
    rewrite <- pow2_split.
    eapply Qle_trans; [exact L|]; apply Qmult_le_compat_r;
      [exact Hm' | apply Qlt_le_weak, pow2_pos]. }
  assert (Hk : exists k, (x / 2 ^ E == inject_Z k)%Q).
  { destruct (Z_le_gt_dec E t) as [Le | Gt].
    - exists (m * 2 ^ (t - E)).
      rewrite inject_Z_mult, pow2_Z by lia.
      rewrite Hx, (pow2_split t E); field; apply pow2_nonzero.
    - assert (E = t + 1) by lia.
      assert (Hge : (2 ^ 53 <= inject_Z (Z.abs m))%Q).
      { apply (Qmult_le_r _ _ (2 ^ t)); [apply pow2_pos|].
        rewrite <- pow2_plus; replace (53 + t) with e by lia; exact L. }
      rewrite <- pow2_Z, <- Zle_Qle in Hge by lia.
      exists (m / 2).
      assert (Hm2 : m = 2 * (m / 2)).
      { assert (Hc : m = 2 ^ 53 \/ m = - 2 ^ 53) by lia.
        destruct Hc as [-> | ->]; reflexivity. }
      rewrite Hx; subst E; rewrite pow2_plus.
      rewrite Hm2 at 1; rewrite inject_Z_mult.
      change (2 ^ 1)%Q with 2%Q; change (inject_Z 2) with 2%Q.
      field; apply pow2_nonzero. }
  destruct Hk as (k & Hk).
  rewrite (rint_compat _ _ Hk), rint_Z, <- Hk; field; apply pow2_nonzero.
Qed.

Lemma rnd_Z (z : Z) : Z.abs z <= 2 ^ 53 -> (Float64.rnd (inject_Z z) == inject_Z z)%Q.
Proof.
  intros H; apply (rnd_exact _ z 0); [|lia | exact H].
  change (2 ^ 0)%Q with 1%Q; ring.
Qed.

(** The result of a rounding is a double. *)
Lemma rnd_idem (x : Q) : (Float64.rnd (Float64.rnd x) == Float64.rnd x)%Q.
Proof.
  destruct (Qeq_dec x 0) as [Z0 | N].
  - rewrite (rnd_zero x Z0); reflexivity.
  - destruct (ulp_exp_spec x N) as (E1 & _ & _ & B).
    apply (rnd_exact _ (rint (x / 2 ^ Float64.ulp_exp x)) (Float64.ulp_exp x));
      [now rewrite (rnd_nonzero x N) | exact E1 |].
    set (E := Float64.ulp_exp x) in *.
    apply Qabs_Qlt_condition in B; destruct B as (B1 & B2).
    assert (U : (x / 2 ^ E <= inject_Z (2 ^ 53))%Q).
    { rewrite pow2_Z by lia; apply Qle_shift_div_r; [apply pow2_pos | lra]. }
    assert (L : (inject_Z (- 2 ^ 53) <= x / 2 ^ E)%Q).
    { rewrite inject_Z_opp, pow2_Z by lia.
      apply Qle_shift_div_l; [apply pow2_pos | lra]. }
    apply rint_mono in U, L; rewrite rint_Z in U, L; lia.
Qed.

Lemma rnd_pos_mono (x y : Q) :
  (0 < x)%Q -> (x <= y)%Q -> (Float64.rnd x <= Float64.rnd y)%Q.
Proof.
  intros Hx Hxy.
  assert (Hy : (0 < y)%Q) by lra.
  assert (Nx : ~ (x == 0)%Q) by lra.
  assert (Ny : ~ (y == 0)%Q) by lra.
  rewrite (rnd_nonzero x Nx), (rnd_nonzero y Ny).
  destruct (ulp_exp_spec x Nx) as (X1 & X2 & X3 & _).
  destruct (ulp_exp_spec y Ny) as (Y1 & Y2 & Y3 & _).
  rewrite (ilog2_compat _ _ (Qabs_nonzero x Nx) (Qabs_pos x (Qlt_le_weak _ _ Hx))) in X2, X3.
  rewrite (ilog2_compat _ _ (Qabs_nonzero y Ny) (Qabs_pos y (Qlt_le_weak _ _ Hy))) in Y2, Y3.
  pose proof (ilog2_mono x y Hx Hxy) as Hm.
  destruct (ilog2_spec x Hx) as (_ & Sx), (ilog2_spec y Hy) as (Sy & _).
  set (Ex := Float64.ulp_exp x) in *; set (Ey := Float64.ulp_exp y) in *.
  set (ex := Float64.ilog2 x) in *; set (ey := Float64.ilog2 y) in *.
  destruct (Z.eq_dec Ex Ey) as [Eq | Ne].
  - rewrite Eq; apply Qmult_le_compat_r; [|apply Qlt_le_weak, pow2_pos].
    rewrite <- Zle_Qle; apply rint_mono.
    apply Qmult_le_compat_r; [exact Hxy | apply Qlt_le_weak, Qinv_lt_0_compat, pow2_pos].
  - assert (Hlt : Ex < Ey) by lia.
    assert (Hey : Ey = ey - 52) by lia.
    assert (Hex : ex + 1 <= ey) by lia.
    apply Qle_trans with (2 ^ ey)%Q.
    + (* rnd x <= 2^ey *)
      rewrite (pow2_split ey Ex), <- (pow2_Z (ey - Ex)) by lia.
      apply Qmult_le_compat_r; [|apply Qlt_le_weak, pow2_pos].
      rewrite <- Zle_Qle, <- (rint_Z (2 ^ (ey - Ex))).
      apply rint_mono; rewrite pow2_Z by lia.
      apply Qle_shift_div_r; [apply pow2_pos|].
      rewrite <- pow2_split.
      apply Qlt_le_weak; eapply Qlt_le_trans; [exact Sx | apply pow2_le; lia].
    + rewrite (pow2_split ey Ey), <- (pow2_Z (ey - Ey)) by lia.
      apply Qmult_le_compat_r; [|apply Qlt_le_weak, pow2_pos].
      rewrite <- Zle_Qle.
      pose proof (rint_mono (inject_Z (2 ^ (ey - Ey))) (y / 2 ^ Ey)) as R.
      rewrite rint_Z in R; apply R; rewrite pow2_Z by lia.
      apply Qle_shift_div_l; [apply pow2_pos|].
      rewrite <- pow2_split; exact Sy.
Qed.

(** Rounding is monotone. *)
Lemma rnd_mono (x y : Q) : (x <= y)%Q -> (Float64.rnd x <= Float64.rnd y)%Q.
Proof.
  intros H.
  destruct (Qlt_le_dec 0 x) as [Px | Nx]; [now apply rnd_pos_mono|].
  destruct (Qlt_le_dec y 0) as [Ny | Py].
  - assert (H' : (Float64.rnd (- y) <= Float64.rnd (- x))%Q)
      by (apply rnd_pos_mono; lra).
    rewrite !rnd_opp in H'; lra.
  - pose proof (rnd_nonneg y Py) as A.
    assert (B : (0 <= Float64.rnd (- x))%Q) by (apply rnd_nonneg; lra).
    rewrite rnd_opp in B; lra.
Qed.

(** On the sample operands, the rounding and the four operations agree
    with the IEEE 754 specification of the standard library. *)
Lemma agrees_with_reference :
  forallb (fun '(n, d) =>
             Qeq_bool (spec_to_Q (spec_ratio n d)) (Float64.rnd (n # Z.to_pos d)))
          reference_ratios = true
  /\ forallb (fun '(x, y) =>
                agree (SpecFloat.SFadd 53 1024) Float64.add x y
                && agree (SpecFloat.SFsub 53 1024) Float64.sub x y
                && agree (SpecFloat.SFmul 53 1024) Float64.mul x y
                && agree (SpecFloat.SFdiv 53 1024) Float64.div x y)
             (let doubles := map (fun '(n, d) => spec_ratio n d) reference_ratios in
              list_prod doubles doubles) = true.
Proof. split; vm_compute; reflexivity. Qed.

(** ** Sums in binary64 *)

Lemma sum_from_sums (a l0 : list Q) (res : Q) :
  sums_to l0 res -> sums_to (l0 ++ a) (Float64.sum_from res a).
Proof.
  revert l0 res; induction a as [|x a IH]; intros l0 res H; cbn [Float64.sum_from].
  - now rewrite app_nil_r.
  - replace (l0 ++ x :: a) with ((l0 ++ [x]) ++ a) by (now rewrite <- app_assoc).
    apply IH, sums_add; [exact H | apply sums_one].
Qed.

Lemma lanes_step (ls : list (list Q)) (r : list Q) :
  Forall2 sums_to ls r ->
  forall b, List.length b = List.length r ->
  Forall2 sums_to (Pandas.map2 (fun l x => l ++ [x]) ls b) (Pandas.map2 Float64.add r b)
  /\ Permutation (List.concat (Pandas.map2 (fun l x => l ++ [x]) ls b)) (List.concat ls ++ b).
Proof.
  induction 1 as [|l v ls r Hl Hrest IH]; intros b Hb.
  - destruct b; [split; constructor | discriminate].
  - destruct b as [|x b]; [discriminate|].
    injection Hb as Hb; destruct (IH b Hb) as (F & P).
    cbn [Pandas.map2 List.concat]; split.
    + constructor; [apply sums_add; [exact Hl | apply sums_one] | exact F].
    + rewrite P, <- !app_assoc; apply Permutation_app_head.
      cbn [app]; apply Permutation_middle.
Qed.

Lemma map2_length_same {A B C : Type} (f : A -> B -> C) (s : list A) (t : list B) :
  List.length t = List.length s -> List.length (Pandas.map2 f s t) = List.length s.
Proof.
  revert t; induction s as [|x s IH]; intros [|y t] H; try discriminate; cbn; auto.
Qed.

Lemma accumulate_sums (blocks : nat) :
  forall (r a : list Q) (ls : list (list Q)),
    Forall2 sums_to ls r -> List.length r = 8%nat ->
    (8 * blocks <= List.length a)%nat ->
    exists ls',
      Forall2 sums_to ls' (fst (Float64.accumulate r a blocks))
      /\ List.length (fst (Float64.accumulate r a blocks)) = 8%nat
      /\ Permutation (List.concat ls' ++ snd (Float64.accumulate r a blocks)) (List.concat ls ++ a).
Proof.
  induction blocks as [|k IH]; intros r a ls F Hr Ha; cbn [Float64.accumulate].
  - exists ls; repeat split; auto.
  - assert (Hb : List.length (firstn 8 a) = List.length r)
      by (rewrite length_firstn, Hr; lia).
    destruct (lanes_step ls r F (firstn 8 a) Hb) as (F1 & P1).
    destruct (IH _ (skipn 8 a) _ F1) as (ls' & F' & L' & P').
    + now rewrite map2_length_same.
    + rewrite length_skipn; lia.
    + exists ls'; repeat split; auto.
      rewrite P', P1, <- app_assoc, firstn_skipn; reflexivity.
Qed.

Lemma combine8_sums (ls : list (list Q)) (r : list Q) :
  Forall2 sums_to ls r -> List.length r = 8%nat ->
  sums_to (List.concat ls) (Float64.combine8 r).
Proof.
  intros F Hr.
  do 8 (destruct r as [|? r]; [discriminate|]); destruct r; [|discriminate].
  do 8 (inversion F as [|? ? ? ? ? F']; subst; clear F; rename F' into F).
  inversion F; subst.
  cbn [List.concat Float64.combine8]; rewrite app_nil_r.
  match goal with
  | |- sums_to (?a ++ ?b ++ ?c ++ ?d ++ ?e ++ ?f ++ ?g ++ ?h) _ =>
      replace (a ++ b ++ c ++ d ++ e ++ f ++ g ++ h)
        with (((a ++ b) ++ (c ++ d)) ++ ((e ++ f) ++ (g ++ h)))
        by (now rewrite <- !app_assoc)
  end.
  repeat apply sums_add; assumption.
Qed.

Lemma unrolled_sum_sums (a : list Q) :
  (8 <= List.length a)%nat -> sums_to a (Float64.unrolled_sum a).
Proof.
  intros Hn; unfold Float64.unrolled_sum.
  set (r0 := firstn 8 a); set (a' := skipn 8 a).
  assert (F0 : Forall2 sums_to (map (fun x => [x]) r0) r0).
  { generalize r0; intros l; induction l; constructor; [apply sums_one | assumption]. }
  assert (C0 : List.concat (map (fun x => [x]) r0) = r0).
  { generalize r0; intros l; induction l as [|x l IH]; cbn [map List.concat app];
      [reflexivity | now rewrite IH]. }
  assert (L0 : List.length r0 = 8%nat) by (unfold r0; rewrite length_firstn; lia).
  assert (Hb : (8 * (List.length a / 8 - 1) <= List.length a')%nat).
  { unfold a'; rewrite length_skipn.
    pose proof (Nat.Div0.mul_div_le (List.length a) 8); lia. }
  destruct (accumulate_sums _ r0 a' _ F0 L0 Hb) as (ls' & F' & L' & P').
  destruct (Float64.accumulate r0 a' (List.length a / 8 - 1)) as [r rest].
  cbn [fst snd] in *.
  apply sums_perm with (List.concat ls' ++ rest).
  - rewrite P', C0; unfold r0, a'; now rewrite firstn_skipn.
  - apply sum_from_sums, combine8_sums; assumption.
Qed.

Lemma pairwise_sum_sums (fuel : nat) :
  forall a, sums_to a (Float64.pairwise_sum fuel a).
Proof.
  assert (Seq : forall a, sums_to a (Float64.sum_from 0 a))
    by (intros a; apply (sum_from_sums a [] 0%Q), sums_nil).
  induction fuel as [|f IH]; intros a; cbn [Float64.pairwise_sum];
    destruct (Nat.ltb_spec (List.length a) 8); try apply Seq;
    destruct (Nat.leb_spec (List.length a) 128);
    try (now apply unrolled_sum_sums); try apply Seq.
  set (n2 := (List.length a / 2 - (List.length a / 2) mod 8)%nat).
  rewrite <- (firstn_skipn n2 a) at 1.
  apply sums_add; apply IH.
Qed.

(** Whatever its grouping, [Series.sum()] adds the values of the column. *)
Lemma sum_sums (a : list Q) : sums_to a (Float64.sum a).
Proof.
  unfold Float64.sum; apply (sums_add [] a), pairwise_sum_sums; apply sums_nil.
Qed.

(** The fuel is not exhausted: any amount from the number of values on
    gives the same result. *)
Lemma pairwise_sum_fuel (f1 : nat) :
  forall (f2 : nat) (a : list Q),
    (List.length a <= f1)%nat -> (List.length a <= f2)%nat ->
    Float64.pairwise_sum f1 a = Float64.pairwise_sum f2 a.
Proof.
  induction f1 as [|f1 IH]; intros f2 a H1 H2.
  - destruct a; [|cbn in H1; lia]. destruct f2; reflexivity.
  - destruct f2 as [|f2].
    + destruct a; [reflexivity | cbn in H2; lia].
    + cbn [Float64.pairwise_sum].
      destruct (Nat.ltb_spec (List.length a) 8); [reflexivity|].
      destruct (Nat.leb_spec (List.length a) 128); [reflexivity|].
      set (n := List.length a) in *.
      set (n2 := (n / 2 - (n / 2) mod 8)%nat).
      assert (Hn2 : (0 < n2 < n)%nat).
      { unfold n2.
        pose proof (Nat.mod_upper_bound (n / 2) 8 ltac:(discriminate)).
        pose proof (Nat.Div0.mul_div_le n 2).
        assert (64 <= n / 2)%nat by (apply Nat.div_le_lower_bound; lia).
        lia. }
      f_equal; apply IH; rewrite ?length_firstn, ?length_skipn; fold n; lia.
Qed.

(** *** The exact sum *)

Lemma sum_app (l1 l2 : list Q) :
  (Pandas.sum (l1 ++ l2) == Pandas.sum l1 + Pandas.sum l2)%Q.
Proof.
  induction l1 as [|x l1 IH]; cbn [app Pandas.sum]; [ring | rewrite IH; ring].
Qed.

Lemma sum_permutation (l l' : list Q) :
  Permutation l l' -> (Pandas.sum l == Pandas.sum l')%Q.
Proof.
  induction 1 as [|x l l' _ IH|x y l|l l' l'' _ IH1 _ IH2]; cbn [Pandas.sum].
  - reflexivity.
  - now rewrite IH.
  - ring.
  - now rewrite IH1.
Qed.

Lemma sum_abs_bound (l : list Q) : (Qabs (Pandas.sum l) <= Pandas.sum (map Qabs l))%Q.
Proof.
  induction l as [|x l IH]; cbn [map Pandas.sum]; [discriminate|].
  eapply Qle_trans; [apply Qabs_triangle|]; lra.
Qed.

Lemma sum_abs_ge0 (l : list Q) : (0 <= Pandas.sum (map Qabs l))%Q.
Proof.
  induction l as [|x l IH]; cbn [map Pandas.sum]; [discriminate|].
  pose proof (Qabs_nonneg x); lra.
Qed.

(** *** Values on a grid *)

Lemma on_grid_zero (t : Z) : on_grid t 0.
Proof. exists 0; unfold Qeq; cbn; lia. Qed.

Lemma on_grid_plus (t : Z) (x y : Q) : on_grid t x -> on_grid t y -> on_grid t (x + y).
Proof.
  intros (m & Hm) (k & Hk); exists (m + k).
  rewrite inject_Z_plus, Hm, Hk; ring.
Qed.

Lemma on_grid_sum (t : Z) (l : list Q) : Forall (on_grid t) l -> on_grid t (Pandas.sum l).
Proof.
  induction 1; cbn [Pandas.sum]; [apply on_grid_zero | now apply on_grid_plus].
Qed.

Lemma on_grid_compat (t : Z) (x y : Q) : (x == y)%Q -> on_grid t x -> on_grid t y.
Proof. intros E (m & Hm); exists m; now rewrite <- E. Qed.

(** A grid value of bounded magnitude is a double. *)
Lemma on_grid_double (t : Z) (x : Q) :
  -1074 <= t -> on_grid t x -> (Qabs x <= 2 ^ 53 * 2 ^ t)%Q -> is_double x.
Proof.
  intros Ht (m & Hm) B.
  apply (rnd_exact x m t Hm Ht).
  rewrite Hm, Qabs_Qmult, Qabs_inject_Z, (Qabs_pos (2 ^ t)) in B
    by apply Qlt_le_weak, pow2_pos.
  apply Qmult_le_r in B; [|apply pow2_pos].
  rewrite <- (pow2_Z 53), <- Zle_Qle in B by lia; exact B.
Qed.

(** On a grid, when the magnitudes add up to at most [2^53] grid steps, no
    addition rounds: every way of adding the values gives their exact
    sum. *)
Lemma sums_to_exact (t : Z) (l : list Q) (v : Q) :
  sums_to l v ->
  -1074 <= t -> Forall (on_grid t) l ->
  (Pandas.sum (map Qabs l) <= 2 ^ 53 * 2 ^ t)%Q ->
  (v == Pandas.sum l)%Q.
Proof.
  intros H Ht; induction H as [|x|l1 l2 v1 v2 H1 IH1 H2 IH2|l l' v P H IH];
    intros G B.
  - reflexivity.
  - cbn [Pandas.sum]; ring.
  - apply Forall_app in G as (G1 & G2).
    rewrite map_app, sum_app in B.
    pose proof (sum_abs_ge0 l1); pose proof (sum_abs_ge0 l2).
    specialize (IH1 G1 ltac:(lra)); specialize (IH2 G2 ltac:(lra)).
    unfold Float64.add; rewrite IH1, IH2, <- sum_app.
    apply (on_grid_double t); [exact Ht | |].
    + apply on_grid_sum, Forall_app; now split.
    + eapply Qle_trans; [apply sum_abs_bound|]; now rewrite map_app, sum_app.
  - rewrite <- (sum_permutation l l' P); apply IH.
    + eapply Permutation_Forall; [apply Permutation_sym, P | exact G].
    + now rewrite (sum_permutation _ _ (Permutation_map Qabs P)).
Qed.

Lemma sums_to_nonneg (l : list Q) (v : Q) :
  sums_to l v -> Forall (fun x => (0 <= x)%Q) l -> (0 <= v)%Q.
Proof.
  induction 1 as [|x|l1 l2 v1 v2 H1 IH1 H2 IH2|l l' v P H IH]; intros G.
  - discriminate.
  - now inversion G.
  - apply Forall_app in G as (G1 & G2).
    apply rnd_nonneg; specialize (IH1 G1); specialize (IH2 G2); lra.
  - apply IH; eapply Permutation_Forall; [apply Permutation_sym, P | exact G].
Qed.

(** *** The rounding error *)

(** Below [2^k] in magnitude, a rounding moves a value by at most
    [2^(k-53)]. *)
Lemma rnd_error (x : Q) (k : Z) :
  -1022 <= k -> (Qabs x <= 2 ^ k)%Q -> (Qabs (Float64.rnd x - x) <= 2 ^ (k - 53))%Q.
Proof.
  intros Hk B.
  destruct (Qeq_dec x 0) as [Z0 | N].
  - rewrite (rnd_zero x Z0), Z0; apply Qlt_le_weak, pow2_pos.
  - rewrite (rnd_nonzero x N).
    destruct (ulp_exp_spec x N) as (E1 & E2 & E3 & _).
    destruct (ilog2_spec (Qabs x) (Qabs_nonzero x N)) as (L & _).
    set (E := Float64.ulp_exp x) in *; set (e := Float64.ilog2 (Qabs x)) in *.
    clearbody E e.
    assert (He : e <= k).
    { apply (Qpower_le_compat_l_inv 2); [|reflexivity].
      eapply Qle_trans; [exact L | exact B]. }
    assert (HE : E <= k - 52) by lia.
    destruct (rint_spec (x / 2 ^ E)) as (R1 & R2 & _).
    set (m := inject_Z (rint (x / 2 ^ E))) in *.
    assert (Hx : (x == x / 2 ^ E * 2 ^ E)%Q) by (field; apply pow2_nonzero).
    set (y := (x / 2 ^ E)%Q) in *.
    pose proof (pow2_pos E) as PE.
    assert (Hhalf : (2 ^ (k - 53) == 2 ^ (k - 53 - E) * 2 ^ E)%Q) by apply pow2_split.
    assert (Hge : (1 # 2 <= 2 ^ (k - 53 - E))%Q).
    { change (1 # 2)%Q with (2 ^ (-1))%Q; apply pow2_le; lia. }
    rewrite Hhalf.
    setoid_replace (m * 2 ^ E - x)%Q with ((m - y) * 2 ^ E)%Q by (unfold y; field; apply pow2_nonzero).
    rewrite Qabs_Qmult, (Qabs_pos (2 ^ E)) by lra.
    apply Qmult_le_compat_r; [|lra].
    apply Qabs_Qle_condition; split; lra.
Qed.

(** *** Doubles *)

Lemma is_double_rnd (x : Q) : is_double (Float64.rnd x).
Proof. apply rnd_idem. Qed.

Lemma is_double_zero : is_double 0.
Proof. reflexivity. Qed.

Lemma is_double_abs (x : Q) : is_double x -> is_double (Qabs x).
Proof.
  unfold is_double; intros H; apply Qabs_case; intros _; [exact H|].
  now rewrite rnd_opp, H.
Qed.

Lemma add_zero_r (x : Q) : is_double x -> (Float64.add x 0 == x)%Q.
Proof.
  unfold Float64.add, is_double; intros H.
  now rewrite (rnd_compat (x + 0) x) by ring.
Qed.

Lemma add_nonneg_r (x y : Q) : is_double x -> (0 <= y)%Q -> (x <= Float64.add x y)%Q.
Proof.
  unfold Float64.add, is_double; intros H Hy.
  rewrite <- H at 1; apply rnd_mono; lra.
Qed.

(** *** Running sums *)

Lemma cumsum_after_length (s : list Q) (acc : Q) :
  List.length (Float64.cumsum_after acc s) = List.length s.
Proof.
  revert acc; induction s as [|x s IH]; intros acc; cbn; auto.
Qed.

Lemma cumsum_length (s : list Q) : List.length (Float64.cumsum s) = List.length s.
Proof.
  destruct s as [|x s]; [reflexivity|].
  cbn [Float64.cumsum List.length]; now rewrite cumsum_after_length.
Qed.

(** Every value of a running sum is the one before plus the next value of
    the column, rounded. *)
Lemma cumsum_step (s : list Q) (i : nat) (c c' x : Q) :
  nth_error (Float64.cumsum s) i = Some c ->
  nth_error (Float64.cumsum s) (S i) = Some c' ->
  nth_error s (S i) = Some x ->
  c' = Float64.add c x.
Proof.
  destruct s as [|x0 s]; [destruct i; discriminate|].
  cbn [Float64.cumsum].
  change (nth_error (x0 :: s) (S i)) with (nth_error s i).
  change (nth_error (x0 :: Float64.cumsum_after x0 s) (S i))
    with (nth_error (Float64.cumsum_after x0 s) i).
  revert x0 i; induction s as [|y s IH]; intros acc i Hc Hc' Hx.
  - destruct i; discriminate.
  - destruct i as [|i]; cbn in Hc, Hc', Hx.
    + congruence.
    + exact (IH (Float64.add acc y) i Hc Hc' Hx).
Qed.

Lemma cumsum_head (s : list Q) : nth_error (Float64.cumsum s) 0 = nth_error s 0.
Proof. destruct s; reflexivity. Qed.

Lemma cumsum_doubles (s : list Q) :
  Forall is_double s -> Forall is_double (Float64.cumsum s).
Proof.
  intros H; destruct s as [|x s]; [constructor|].
  inversion H as [|? ? Hx _]; subst.
  cbn [Float64.cumsum]; constructor; [exact Hx|].
  generalize x; clear; induction s as [|y s IH]; intros acc; cbn [Float64.cumsum_after];
    constructor; [apply is_double_rnd | apply IH].
Qed.

Lemma last_cons {A : Type} (z : A) (l : list A) (d : A) : last (z :: l) d = last l z.
Proof.
  revert z d; induction l as [|y l IH]; intros z d; [reflexivity|].
  change (last (z :: y :: l) d) with (last (y :: l) d).
  now rewrite (IH y d), (IH y z).
Qed.

(** The last value of a running sum is one way of adding the column. *)
Lemma cumsum_after_sums (s : list Q) :
  forall l0 acc, sums_to l0 acc ->
    sums_to (l0 ++ s) (last (Float64.cumsum_after acc s) acc).
Proof.
  induction s as [|x s IH]; intros l0 acc H; cbn [Float64.cumsum_after].
  - now rewrite app_nil_r.
  - replace (l0 ++ x :: s) with ((l0 ++ [x]) ++ s) by (now rewrite <- app_assoc).
    rewrite last_cons; apply IH, sums_add; [exact H | apply sums_one].
Qed.

Lemma cumsum_sums (s : list Q) : sums_to s (last (Float64.cumsum s) 0%Q).
Proof.
  destruct s as [|x s]; [apply sums_nil|].
  cbn [Float64.cumsum]; rewrite last_cons.
  apply (cumsum_after_sums s [x] x (sums_one x)).
Qed.

(** ** The point totals in binary64 *)

Lemma on_grid_opp (t : Z) (x : Q) : on_grid t x -> on_grid t (- x).
Proof. intros (m & Hm); exists (- m); rewrite inject_Z_opp, Hm; ring. Qed.

Lemma on_grid_minus (t : Z) (x y : Q) : on_grid t x -> on_grid t y -> on_grid t (x - y).
Proof. intros Hx Hy; apply on_grid_plus; [exact Hx | now apply on_grid_opp]. Qed.

Lemma on_grid_abs (t : Z) (x : Q) : on_grid t x -> on_grid t (Qabs x).
Proof. intros H; apply Qabs_case; intros _; [exact H | now apply on_grid_opp]. Qed.

Lemma on_grid_mult (t1 t2 : Z) (x y : Q) :
  on_grid t1 x -> on_grid t2 y -> on_grid (t1 + t2) (x * y).
Proof.
  intros (m & Hm) (k & Hk); exists (m * k).
  rewrite inject_Z_mult, Hm, Hk, pow2_plus; ring.
Qed.

(** On a grid, the subtraction and the multiplication of lines 22-23 do
    not round. *)
Lemma points_exact (tp tm : Z) (o c pm : Q) :
  -1074 <= tp -> -1074 <= tp + tm ->
  on_grid tp o -> on_grid tp c -> on_grid tm pm ->
  (Qabs (c - o) <= 2 ^ 53 * 2 ^ tp)%Q ->
  (Qabs ((c - o) * pm) <= 2 ^ 53 * 2 ^ (tp + tm))%Q ->
  (Float64.sub c o == c - o)%Q
  /\ (Float64.mul (Float64.sub c o) pm == (c - o) * pm)%Q
  /\ on_grid (tp + tm) ((c - o) * pm).
Proof.
  intros Hp Hpm Ho Hc Hm B1 B2.
  assert (G1 : on_grid tp (c - o)) by now apply on_grid_minus.
  assert (G2 : on_grid (tp + tm) ((c - o) * pm)) by now apply on_grid_mult.
  assert (E1 : (Float64.sub c o == c - o)%Q) by exact (on_grid_double tp _ Hp G1 B1).
  split; [exact E1|]; split; [|exact G2].
  unfold Float64.mul.
  rewrite (rnd_compat (Float64.sub c o * pm) ((c - o) * pm)) by now rewrite E1.
  exact (on_grid_double (tp + tm) _ Hpm G2 B2).
Qed.

Lemma sum_ext_Qeq {A : Type} (f g : A -> Q) (l : list A) :
  (forall a, In a l -> (f a == g a)%Q) ->
  (Pandas.sum (map f l) == Pandas.sum (map g l))%Q.
Proof.
  induction l as [|a l IH]; intros H; cbn [map Pandas.sum]; [reflexivity|].
  rewrite (H a (or_introl eq_refl)), IH; [reflexivity|].
  intros b Hb; apply H; now right.
Qed.

Lemma sum_abs_filter {A : Type} (p : A -> bool) (f : A -> Q) (l : list A) :
  (Pandas.sum (map (fun a => Qabs (f a)) (filter p l))
   <= Pandas.sum (map (fun a => Qabs (f a)) l))%Q.
Proof.
  induction l as [|a l IH]; cbn [filter map Pandas.sum]; [apply Qle_refl|].
  pose proof (Qabs_nonneg (f a)).
  destruct (p a); cbn [map Pandas.sum]; lra.
Qed.

Lemma sum_abs_member {A : Type} (f : A -> Q) (l : list A) (a : A) :
  In a l -> (Qabs (f a) <= Pandas.sum (map (fun b => Qabs (f b)) l))%Q.
Proof.
  induction l as [|b l IH]; intros H; [contradiction|]; cbn [map Pandas.sum].
  pose proof (sum_abs_ge0 (map f l)) as P; rewrite map_map in P.
  destruct H as [-> | H]; [lra|].
  specialize (IH H); pose proof (Qabs_nonneg (f b)); lra.
Qed.

(** Every way of adding a column of grid values of bounded total magnitude
    gives the exact sum. *)
Lemma sum_on_grid {A : Type} (t : Z) (f : A -> Q) (l : list A) (v : Q) :
  -1074 <= t ->
  (forall a, In a l -> on_grid t (f a)) ->
  (Pandas.sum (map (fun a => Qabs (f a)) l) <= 2 ^ 53 * 2 ^ t)%Q ->
  sums_to (map f l) v ->
  (v == Pandas.sum (map f l))%Q.
Proof.
  intros Ht G B S.
  apply (sums_to_exact t _ _ S Ht).
  - apply Forall_forall; intros x Hx; apply in_map_iff in Hx as (a & <- & Ha); auto.
  - now rewrite map_map.
Qed.

Lemma point_totals_spec (out : list AnalyzedBar) :
  total_up_points (point_totals out) = Float64.sum (map Points_Display (filter is_up out))
  /\ total_down_points (point_totals out)
     = Float64.sum (map (fun a => Qabs (Points_Display a)) (filter is_down out))
  /\ net_points (point_totals out) = Float64.sum (map Points_Display out).
Proof.
  unfold point_totals, Pandas.col;
    cbn [total_up_points total_down_points net_points].
  rewrite !loc_map_filter, map_map; repeat split; reflexivity.
Qed.

Lemma binary64_frame (df : list PriceBar) (pm : Q) (pd : Z) :
  let out := df_analysis_binary64 df pm pd in
  map bar out = df
  /\ List.length out = List.length df
  /\ forall a, In a out ->
       Raw_Points a = Float64.sub (Close (bar a)) (Open (bar a))
       /\ Points_Display a = Float64.mul (Float64.sub (Close (bar a)) (Open (bar a))) pm.
Proof.
  unfold df_analysis_binary64.
  destruct (run_analysis_columns df pm pd) as (Hb & _).
  split; [|split].
  - rewrite map_map; exact Hb.
  - rewrite length_map; apply enriched_length.
  - intros a Ha; apply in_map_iff in Ha as (a0 & <- & _); split; reflexivity.
Qed.

(** In exact arithmetic the net is the up total minus the down total for a
    non-negative multiplier, and their sum for a non-positive one. *)
Lemma exact_sums_by_direction (df : list PriceBar) (pm : Q) (pd : Z) :
  directions_classified df ->
  let out := fst (run_analysis df pm pd) in
  let up := Pandas.sum (map Points_Display (filter is_up out)) in
  let down := Pandas.sum (map (fun a => Qabs (Points_Display a)) (filter is_down out)) in
  let net := Pandas.sum (map Points_Display out) in
  ((0 <= pm)%Q -> (net == up - down)%Q) /\ ((pm <= 0)%Q -> (net == up + down)%Q).
Proof.
  intros Hc out up down net.
  assert (Hsplit : (net == up + Pandas.sum (map Points_Display (filter is_down out)))%Q).
  { apply sum_by_direction; intros a Ha; now apply (classified_row df pm pd a Hc Ha). }
  destruct (down_points_same_sign df pm pd Hc) as (Hpos & Hneg).
  fold out in Hpos, Hneg.
  assert (Hd : down = Pandas.sum (map Qabs (map Points_Display (filter is_down out))))
    by (unfold down; now rewrite map_map).
  split; intros Hpm; rewrite Hsplit, Hd.
  - rewrite (sum_abs_nonpos _ (Hpos Hpm)); ring.
  - rewrite (sum_abs_nonneg _ (Hneg Hpm)); ring.
Qed.

(** When the prices are multiples of [2^tp], the multiplier is a multiple of
    [2^tm] and the magnitudes of the points add up to at most [2^53] steps
    of [2^(tp + tm)], binary64 (within its range) rounds nowhere: the two float columns and
    the three totals are those of [run_analysis], and the net is the up
    total minus the down total (plus, for a non-positive multiplier)
    whenever the directions are classified. *)
Theorem point_totals_on_grid (df : list PriceBar) (pm : Q) (pd : Z) (tp tm : Z) :
  df <> [] ->
  no_overflow df pm ->
  -1074 <= tp -> -1074 <= tp + tm ->
  (forall r, In r df ->
     on_grid tp (Open r) /\ on_grid tp (Close r)
     /\ (Qabs (Close r - Open r) <= 2 ^ 53 * 2 ^ tp)%Q) ->
  on_grid tm pm ->
  (Pandas.sum (map (fun r => Qabs ((Close r - Open r) * pm)) df)
   <= 2 ^ 53 * 2 ^ (tp + tm))%Q ->
  let out := df_analysis_binary64 df pm pd in
  let T := point_totals out in
  exists s,
    snd (run_analysis df pm pd) = Some s
    /\ (forall a, In a out ->
          (Raw_Points a == Close (bar a) - Open (bar a))%Q
          /\ (Points_Display a == (Close (bar a) - Open (bar a)) * pm)%Q)
    /\ (total_up_points T == total_up_points_display s)%Q
    /\ (total_down_points T == total_down_points_display s)%Q
    /\ (net_points T == net_points_display s)%Q
    /\ (directions_classified df -> (0 <= pm)%Q ->
        (net_points T == total_up_points T - total_down_points T)%Q)
    /\ (directions_classified df -> (pm <= 0)%Q ->
        (net_points T == total_up_points T + total_down_points T)%Q).
Proof.
  intros Hne _ Hp Hpm Hrows Hm Hmass out T.
  set (g := fun r : PriceBar => ((Close r - Open r) * pm)%Q).
  set (W := with_binary64_points pm).
  set (l := fst (run_analysis df pm pd)).
  destruct (run_analysis_columns df pm pd) as (Hbar & _ & _ & Hdisp & _).
  fold l in Hbar, Hdisp.
  assert (Hq : forall a, In a l -> Points_Display a = g (bar a) /\ In (bar a) df).
  { intros a Ha; split.
    - exact (columns_rowwise Points_Display bar g l df Hbar Hdisp a Ha).
    - rewrite <- Hbar; now apply in_map. }
  assert (Hmass' : (Pandas.sum (map (fun a => Qabs (Points_Display a)) l)
                    <= 2 ^ 53 * 2 ^ (tp + tm))%Q).
  { replace (map (fun a => Qabs (Points_Display a)) l)
      with (map (fun r => Qabs (g r)) df); [exact Hmass|].
    rewrite <- (map_map Points_Display Qabs l), Hdisp, map_map; reflexivity. }
  assert (Hrow : forall a, In a l ->
            (Raw_Points (W a) == Close (bar a) - Open (bar a))%Q
            /\ (Points_Display (W a) == Points_Display a)%Q
            /\ on_grid (tp + tm) (Points_Display a)).
  { intros a Ha; destruct (Hq a Ha) as (Ea & Hin).
    destruct (Hrows _ Hin) as (Go & Gc & B1).
    assert (B2 : (Qabs (g (bar a)) <= 2 ^ 53 * 2 ^ (tp + tm))%Q).
    { eapply Qle_trans; [|exact Hmass'].
      rewrite <- Ea; exact (sum_abs_member Points_Display l a Ha). }
    destruct (points_exact tp tm _ _ pm Hp Hpm Go Gc Hm B1 B2) as (E1 & E2 & G).
    rewrite Ea; repeat split; assumption. }
  (* a sum over the selected rows of the binary64 frame is exact *)
  assert (Hsum : forall (p : AnalyzedBar -> bool) (h : Q -> Q) (v : Q),
            (forall a, p (W a) = p a) ->
            (forall x y, (x == y)%Q -> (h x == h y)%Q) ->
            (forall x, on_grid (tp + tm) x -> on_grid (tp + tm) (h x)) ->
            (forall x, (Qabs (h x) == Qabs x)%Q) ->
            sums_to (map (fun a => h (Points_Display a)) (filter p out)) v ->
            (v == Pandas.sum (map (fun a => h (Points_Display a)) (filter p l)))%Q).
  { intros p h v Hp' Hh Hg Habs S.
    unfold out, df_analysis_binary64 in S; fold l W in S.
    rewrite <- (map_filter_comm W p l) in S.
    rewrite (filter_ext _ p Hp'), map_map in S.
    assert (Hin : forall a, In a (filter p l) -> In a l)
      by (intros a Ha; now apply filter_In in Ha).
    assert (Ev : (v == Pandas.sum (map (fun a => h (Points_Display (W a))) (filter p l)))%Q).
    { apply (sum_on_grid (tp + tm) (fun a => h (Points_Display (W a))) (filter p l) v Hpm);
        [| |exact S].
      - intros a Ha; apply Hg.
        destruct (Hrow a (Hin a Ha)) as (_ & E & G).
        exact (on_grid_compat _ _ _ (Qeq_sym _ _ E) G).
      - eapply Qle_trans; [|exact Hmass'].
        eapply Qle_trans; [|apply (sum_abs_filter p Points_Display l)].
        apply Qle_lteq; right; apply sum_ext_Qeq; intros a Ha.
        rewrite Habs; apply Qabs_wd.
        now destruct (Hrow a (Hin a Ha)) as (_ & E & _). }
    rewrite Ev; apply sum_ext_Qeq; intros a Ha; apply Hh.
    now destruct (Hrow a (Hin a Ha)) as (_ & E & _). }
  destruct (run_analysis_points df pm pd Hne) as (s & Hs & Hu & Hd & Hn).
  fold l in Hu, Hd, Hn.
  destruct (point_totals_spec out) as (Tu & Td & Tn); fold T in Tu, Td, Tn.
  assert (Eu : (total_up_points T == total_up_points_display s)%Q).
  { rewrite Tu, Hu.
    apply (Hsum is_up (fun x => x)); auto; try reflexivity.
    apply sum_sums. }
  assert (Ed : (total_down_points T == total_down_points_display s)%Q).
  { rewrite Td, Hd.
    apply (Hsum is_down Qabs); auto.
    - intros x y E; now rewrite E.
    - intros x G; now apply on_grid_abs.
    - intros x; apply Qabs_pos, Qabs_nonneg.
    - apply sum_sums. }
  assert (En : (net_points T == net_points_display s)%Q).
  { rewrite Tn, Hn.
    rewrite <- (filter_all (fun _ => true) out), <- (filter_all (fun _ => true) l) by auto.
    apply (Hsum (fun _ => true) (fun x => x)); auto; try reflexivity.
    apply sum_sums. }
  exists s; split; [exact Hs|]; split; [|split; [exact Eu|split; [exact Ed|split; [exact En|]]]].
  - intros a' Ha'; unfold out, df_analysis_binary64 in Ha'; fold l W in Ha'.
    apply in_map_iff in Ha' as (a & <- & Ha).
    destruct (Hrow a Ha) as (E1 & E2 & _); destruct (Hq a Ha) as (Ea & _).
    split; [exact E1 | now rewrite E2, Ea].
  - split; intros Hc Hsign; rewrite Eu, Ed, En, Hu, Hd, Hn;
      now apply (exact_sums_by_direction df pm pd Hc).
Qed.

Lemma on_grid_Z (z : Z) : on_grid 0 (inject_Z z).
Proof. exists z; change (2 ^ 0)%Q with 1%Q; ring. Qed.

Lemma scenario_A_no_overflow : no_overflow scenario_A 10.
Proof.
  split; [|vm_compute; discriminate].
  intros r [<- | [<- | [<- | []]]]; split; vm_compute; discriminate.
Qed.

Lemma point_totals_on_grid_witness :
  scenario_A <> []
  /\ no_overflow scenario_A 10
  /\ directions_classified scenario_A
  /\ let T := point_totals (df_analysis_binary64 scenario_A 10 2) in
     exists s,
       snd (run_analysis scenario_A 10 2) = Some s
       /\ (total_up_points T == total_up_points_display s)%Q
       /\ (total_down_points T == total_down_points_display s)%Q
       /\ (net_points T == net_points_display s)%Q
       /\ (net_points T == total_up_points T - total_down_points T)%Q.
Proof.
  split; [discriminate|]; split; [exact scenario_A_no_overflow|].
  split; [exact scenario_A_classified|].
  assert (Hrows : forall r, In r scenario_A ->
            on_grid 0 (Open r) /\ on_grid 0 (Close r)
            /\ (Qabs (Close r - Open r) <= 2 ^ 53 * 2 ^ 0)%Q).
  { intros r [<- | [<- | [<- | []]]]; repeat split;
      try apply (on_grid_Z 100); try apply (on_grid_Z 105); discriminate. }
  assert (Hne : scenario_A <> []) by discriminate.
  assert (Hmass : (Pandas.sum (map (fun r => Qabs ((Close r - Open r) * 10)) scenario_A)
                   <= 2 ^ 53 * 2 ^ (0 + 0))%Q) by (vm_compute; discriminate).
  destruct (point_totals_on_grid scenario_A 10 2 0 0 Hne scenario_A_no_overflow
              ltac:(lia) ltac:(lia) Hrows
              (on_grid_Z 10) Hmass) as (s & Hs & _ & Eu & Ed & En & Hge & _).
  exists s; split; [exact Hs|]; split; [exact Eu|]; split; [exact Ed|];
    split; [exact En|].
  apply Hge; [exact scenario_A_classified | discriminate].
Defined.

Lemma rounding_sample_classified : directions_classified rounding_sample.
Proof.
  intros r [<- | [<- | [<- | []]]]; cbn [Direction Open Close];
    repeat split; intros H; vm_compute in H |- *;
    first [ reflexivity | discriminate H ].
Qed.

(** Off the grid the three sums round on their own.  On three correctly
    classified rows with prices 1.0, 1.1 and 0.7 and multiplier 10, the
    binary64 net is [-2^-51] while the up total minus the down total
    is 0. *)
Theorem net_points_rounding :
  exists (df : list PriceBar) (pm : Q),
    df <> [] /\ directions_classified df /\ (0 <= pm)%Q
    /\ let T := point_totals (df_analysis_binary64 df pm 2) in
       (net_points T == - (1 # 2251799813685248))%Q
       /\ (total_up_points T - total_down_points T == 0)%Q
       /\ ~ (net_points T == total_up_points T - total_down_points T)%Q.
Proof.
  exists rounding_sample, 10%Q.
  split; [discriminate|]; split; [exact rounding_sample_classified|].
  split; [discriminate|].
  assert (En : (net_points (point_totals (df_analysis_binary64 rounding_sample 10 2))
                == - (1 # 2251799813685248))%Q) by (vm_compute; reflexivity).
  assert (Ed : (total_up_points (point_totals (df_analysis_binary64 rounding_sample 10 2))
                - total_down_points (point_totals (df_analysis_binary64 rounding_sample 10 2))
                == 0)%Q) by (vm_compute; reflexivity).
  cbv zeta; split; [exact En|]; split; [exact Ed|].
  rewrite En, Ed; discriminate.
Qed.

Lemma binary64_points_double (df : list PriceBar) (pm : Q) (pd : Z) (a : AnalyzedBar) :
  In a (df_analysis_binary64 df pm pd) -> is_double (Points_Display a).
Proof.
  intros Ha; destruct (binary64_frame df pm pd) as (_ & _ & H).
  rewrite (proj2 (H a Ha)); apply is_double_rnd.
Qed.

(** ** The rounding of a sum *)

Lemma double_on_grid (x : Q) : is_double x -> on_grid (-1074) x.
Proof.
  unfold is_double; intros H.
  destruct (Qeq_dec x 0) as [Z0 | N].
  - apply (on_grid_compat _ 0 x); [now rewrite Z0 | apply on_grid_zero].
  - destruct (ulp_exp_spec x N) as (E1 & _).
    rewrite (rnd_nonzero x N) in H.
    exists (rint (x / 2 ^ Float64.ulp_exp x) * 2 ^ (Float64.ulp_exp x + 1074)).
    rewrite inject_Z_mult, pow2_Z by lia.
    rewrite <- H at 1.
    rewrite <- Qmult_assoc, <- pow2_plus.
    now replace (Float64.ulp_exp x + 1074 + -1074) with (Float64.ulp_exp x) by ring.
Qed.

(** From [2^-1022] on, a rounding moves a value by at most [2^-53] of its
    magnitude. *)
Lemma rnd_relative_error (x : Q) :
  (2 ^ (-1022) <= Qabs x)%Q ->
  (Qabs (Float64.rnd x - x) <= unit_roundoff * Qabs x)%Q.
Proof.
  intros B.
  assert (N : ~ (x == 0)%Q).
  { intros Z0; rewrite Z0 in B; revert B; apply Qlt_not_le, pow2_pos. }
  rewrite (rnd_nonzero x N).
  destruct (ulp_exp_spec x N) as (E1 & E2 & E3 & _).
  destruct (ilog2_spec (Qabs x) (Qabs_nonzero x N)) as (L & U).
  set (E := Float64.ulp_exp x) in *; set (e := Float64.ilog2 (Qabs x)) in *.
  clearbody E e.
  assert (He : -1022 <= e).
  { assert (-1022 < e + 1); [|lia].
    apply pow2_lt_inv; eapply Qle_lt_trans; [exact B | exact U]. }
  assert (HE : E = e - 52) by lia.
  destruct (rint_spec (x / 2 ^ E)) as (R1 & R2 & _).
  set (m := inject_Z (rint (x / 2 ^ E))) in *.
  set (y := (x / 2 ^ E)%Q) in *.
  pose proof (pow2_pos E) as PE.
  setoid_replace (m * 2 ^ E - x)%Q with ((m - y) * 2 ^ E)%Q
    by (unfold y; field; apply pow2_nonzero).
  rewrite Qabs_Qmult, (Qabs_pos (2 ^ E)) by lra.
  apply Qle_trans with ((1 # 2) * 2 ^ E)%Q.
  - apply Qmult_le_compat_r; [|lra].
    apply Qabs_Qle_condition; split; lra.
  - apply Qle_trans with (unit_roundoff * 2 ^ e)%Q.
    + rewrite (pow2_split e E).
      replace (e - E) with 52 by lia.
      change (2 ^ 52)%Q with 4503599627370496%Q; unfold unit_roundoff.
      apply Qle_lteq; right; ring.
    + apply Qmult_le_l; [reflexivity | exact L].
Qed.

(** The sum of two doubles is rounded with a relative error of at most
    [2^-53], however small it is. *)
Lemma add_relative_error (x y : Q) :
  is_double x -> is_double y ->
  (Qabs (Float64.add x y - (x + y)) <= unit_roundoff * Qabs (x + y))%Q.
Proof.
  intros Dx Dy; unfold Float64.add.
  destruct (Qlt_le_dec (Qabs (x + y)) (2 ^ (-1022))) as [Small | Big];
    [|now apply rnd_relative_error].
  assert (G : on_grid (-1074) (x + y))
    by (apply on_grid_plus; now apply double_on_grid).
  assert (E : is_double (x + y)).
  { apply (on_grid_double (-1074)); [lia | exact G |].
    apply Qlt_le_weak; eapply Qlt_le_trans; [exact Small|].
    rewrite <- pow2_plus; apply pow2_le; lia. }
  unfold is_double in E; rewrite E.
  setoid_replace (x + y - (x + y))%Q with 0%Q by ring.
  apply Qmult_le_0_compat; [discriminate | apply Qabs_nonneg].
Qed.

Lemma growth_nonneg (n : nat) : (0 <= growth n)%Q.
Proof.
  induction n as [|n IH]; cbn [growth]; [apply Qle_refl|].
  unfold unit_roundoff; nra.
Qed.

Lemma growth_mono (n m : nat) : (n <= m)%nat -> (growth n <= growth m)%Q.
Proof.
  induction 1 as [|m _ IH]; [apply Qle_refl|].
  cbn [growth]; pose proof (growth_nonneg m); unfold unit_roundoff; nra.
Qed.

(** Up to [2^52] roundings, the accumulated relative error is at most
    [n * 2^-52]. *)
Lemma growth_bound (n : nat) :
  Z.of_nat n <= 2 ^ 52 ->
  (growth n <= inject_Z (Z.of_nat n) * (1 # 4503599627370496))%Q.
Proof.
  induction n as [|n IH]; intros H; cbn [growth]; [discriminate|].
  assert (Hn : Z.of_nat n <= 2 ^ 52) by lia.
  specialize (IH Hn).
  rewrite Nat2Z.inj_succ; unfold Z.succ; rewrite inject_Z_plus.
  change (inject_Z 1) with 1%Q.
  rewrite Zle_Qle in Hn; change (inject_Z (2 ^ 52)) with 4503599627370496%Q in Hn.
  pose proof (growth_nonneg n).
  unfold unit_roundoff in *; lra.
Qed.

Lemma sum_abs_app (l1 l2 : list Q) :
  (Pandas.sum (map Qabs (l1 ++ l2))
   == Pandas.sum (map Qabs l1) + Pandas.sum (map Qabs l2))%Q.
Proof. rewrite map_app; apply sum_app. Qed.

Lemma Qmult_le_left (x y z : Q) : (0 <= z)%Q -> (x <= y)%Q -> (z * x <= z * y)%Q.
Proof.
  intros Hz H; rewrite (Qmult_comm z x), (Qmult_comm z y).
  now apply Qmult_le_compat_r.
Qed.

Lemma error_combine (u G M1 M2 e1 e2 w1 w2 r : Q) :
  (0 <= u)%Q -> (0 <= G)%Q -> (0 <= M1)%Q -> (0 <= M2)%Q ->
  (e1 <= G * M1)%Q -> (e2 <= G * M2)%Q ->
  (0 <= w1)%Q -> (0 <= w2)%Q ->
  (w1 <= M1 + e1)%Q -> (w2 <= M2 + e2)%Q ->
  (r <= u * (w1 + w2))%Q ->
  (r + e1 + e2 <= (G + u * (1 + G)) * (M1 + M2))%Q.
Proof.
  intros Hu HG H1 H2 He1 He2 Hw1 Hw2 W1 W2 Hr.
  assert (A : (u * (w1 + w2) <= u * ((1 + G) * (M1 + M2)))%Q).
  { apply Qmult_le_left; [exact Hu|]. nra. }
  lra.
Qed.

(** However the doubles of a list are added, the result is a double within
    [growth (n - 1)] of the exact sum, relative to the sum of the
    magnitudes. *)
Lemma sums_to_error (l : list Q) (v : Q) :
  sums_to l v -> Forall is_double l ->
  is_double v
  /\ (Qabs (v - Pandas.sum l)
      <= growth (List.length l - 1) * Pandas.sum (map Qabs l))%Q.
Proof.
  induction 1 as [|x|l1 l2 v1 v2 H1 IH1 H2 IH2|l l' v P H IH]; intros D.
  - split; [apply is_double_zero | cbn; discriminate].
  - split; [now inversion D|].
    cbn [Pandas.sum map List.length Nat.sub growth].
    setoid_replace (x - (x + 0))%Q with 0%Q by ring.
    cbn [Qabs]; rewrite Qmult_0_l; apply Qle_refl.
  - apply Forall_app in D as (D1 & D2).
    destruct (IH1 D1) as (Dv1 & B1), (IH2 D2) as (Dv2 & B2).
    split; [apply is_double_rnd|].
    destruct l1 as [|a1 l1].
    { (* nothing on the left: the addition of 0 is exact *)
      cbn [Pandas.sum map List.length Nat.sub growth] in B1.
      rewrite Qmult_0_l in B1.
      assert (Z1 : (v1 == 0)%Q).
      { apply Qabs_Qle_condition in B1; lra. }
      cbn [app]; unfold Float64.add.
      rewrite (rnd_compat (v1 + v2) v2) by (rewrite Z1; ring).
      unfold is_double in Dv2; rewrite Dv2; exact B2. }
    destruct l2 as [|a2 l2].
    { cbn [Pandas.sum map List.length Nat.sub growth] in B2.
      rewrite Qmult_0_l in B2.
      assert (Z2 : (v2 == 0)%Q).
      { apply Qabs_Qle_condition in B2; lra. }
      rewrite app_nil_r; unfold Float64.add.
      rewrite (rnd_compat (v1 + v2) v1) by (rewrite Z2; ring).
      unfold is_double in Dv1; rewrite Dv1; exact B1. }
    pose proof (add_relative_error v1 v2 Dv1 Dv2) as R.
    set (L1 := a1 :: l1) in *; set (L2 := a2 :: l2) in *.
    set (n1 := List.length L1) in *; set (n2 := List.length L2) in *.
    assert (Hn1 : (1 <= n1)%nat) by (unfold n1, L1; cbn; lia).
    assert (Hn2 : (1 <= n2)%nat) by (unfold n2, L2; cbn; lia).
    rewrite length_app; fold n1 n2.
    set (G := growth (n1 + n2 - 2)).
    assert (HG : (growth (n1 + n2 - 1) == G + unit_roundoff * (1 + G))%Q).
    { replace (n1 + n2 - 1)%nat with (S (n1 + n2 - 2)) by lia; reflexivity. }
    assert (G1 : (growth (n1 - 1) <= G)%Q) by (apply growth_mono; lia).
    assert (G2 : (growth (n2 - 1) <= G)%Q) by (apply growth_mono; lia).
    pose proof (growth_nonneg (n1 + n2 - 2)) as G0; fold G in G0.
    pose proof (sum_abs_ge0 L1) as M1; pose proof (sum_abs_ge0 L2) as M2.
    pose proof (sum_abs_bound L1) as A1; pose proof (sum_abs_bound L2) as A2.
    rewrite HG, sum_abs_app, sum_app.
    set (S1 := Pandas.sum L1) in *; set (S2 := Pandas.sum L2) in *.
    set (m1 := Pandas.sum (map Qabs L1)) in *; set (m2 := Pandas.sum (map Qabs L2)) in *.
    set (v := Float64.add v1 v2) in *.
    assert (B1' : (Qabs (v1 - S1) <= G * m1)%Q).
    { eapply Qle_trans; [exact B1 | now apply Qmult_le_compat_r]. }
    assert (B2' : (Qabs (v2 - S2) <= G * m2)%Q).
    { eapply Qle_trans; [exact B2 | now apply Qmult_le_compat_r]. }
    assert (W1 : (Qabs v1 <= m1 + Qabs (v1 - S1))%Q).
    { setoid_replace v1 with (S1 + (v1 - S1))%Q at 1 by ring.
      eapply Qle_trans; [apply Qabs_triangle|]; lra. }
    assert (W2 : (Qabs v2 <= m2 + Qabs (v2 - S2))%Q).
    { setoid_replace v2 with (S2 + (v2 - S2))%Q at 1 by ring.
      eapply Qle_trans; [apply Qabs_triangle|]; lra. }
    assert (R' : (Qabs (v - (v1 + v2)) <= unit_roundoff * (Qabs v1 + Qabs v2))%Q).
    { eapply Qle_trans; [exact R|].
      apply Qmult_le_left; [discriminate | apply Qabs_triangle]. }
    eapply Qle_trans;
      [|apply (error_combine unit_roundoff G m1 m2 _ _ _ _ _
                 ltac:(discriminate) G0 M1 M2 B1' B2'
                 (Qabs_nonneg v1) (Qabs_nonneg v2) W1 W2 R')].
    setoid_replace (v - (S1 + S2))%Q with ((v - (v1 + v2)) + (v1 - S1) + (v2 - S2))%Q
      by ring.
    eapply Qle_trans; [apply Qabs_triangle|].
    apply Qplus_le_compat; [apply Qabs_triangle | apply Qle_refl].
  - split; [apply IH; eapply Permutation_Forall; [apply Permutation_sym, P | exact D]|].
    rewrite <- (Permutation_length P), <- (sum_permutation l l' P),
      <- (sum_permutation _ _ (Permutation_map Qabs P)).
    apply IH; eapply Permutation_Forall; [apply Permutation_sym, P | exact D].
Qed.

(** ** The net and the two totals, up to rounding *)

Lemma rnd_nonpos (x : Q) : (x <= 0)%Q -> (Float64.rnd x <= 0)%Q.
Proof.
  intros H.
  assert (P : (0 <= Float64.rnd (- x))%Q) by (apply rnd_nonneg; lra).
  rewrite rnd_opp in P; lra.
Qed.

(** The signs of the binary64 points of a classified row. *)
Lemma binary64_classified_row (df : list PriceBar) (pm : Q) (pd : Z) (a : AnalyzedBar) :
  directions_classified df ->
  In a (df_analysis_binary64 df pm pd) ->
  ((0 <= pm)%Q ->
   (is_up a = true -> (0 <= Points_Display a)%Q)
   /\ (is_down a = true -> (Points_Display a <= 0)%Q))
  /\ ((pm <= 0)%Q ->
      (is_up a = true -> (Points_Display a <= 0)%Q)
      /\ (is_down a = true -> (0 <= Points_Display a)%Q))
  /\ (is_up a = false -> is_down a = false -> (Points_Display a == 0)%Q).
Proof.
  intros Hc Ha.
  destruct (binary64_frame df pm pd) as (Hbar & _ & Hrow).
  destruct (Hrow a Ha) as (_ & ->).
  assert (Hin : In (bar a) df) by (rewrite <- Hbar; now apply in_map).
  destruct (Hc _ Hin) as (Hu & Hd & He).
  set (c := Close (bar a)) in *; set (o := Open (bar a)) in *.
  unfold is_up, is_down, Float64.mul, Float64.sub.
  assert (Up : (Direction (bar a) =? "UP")%string = true -> (0 <= Float64.rnd (c - o))%Q).
  { intros U; apply String.eqb_eq, Hu in U; apply rnd_nonneg; lra. }
  assert (Dn : (Direction (bar a) =? "DOWN")%string = true -> (Float64.rnd (c - o) <= 0)%Q).
  { intros D; apply String.eqb_eq, Hd in D; apply rnd_nonpos; lra. }
  split; [|split].
  - intros Hpm; split; intros H.
    + apply rnd_nonneg, Qmult_le_0_compat; auto.
    + apply rnd_nonpos, Qmult_nonpos_nonneg; auto.
  - intros Hpm; split; intros H.
    + apply rnd_nonpos.
      rewrite Qmult_comm; apply Qmult_nonpos_nonneg; auto.
    + apply rnd_nonneg, Qmult_nonpos_nonpos; auto.
  - intros U D; apply String.eqb_neq in U, D.
    assert (E : (c == o)%Q).
    { destruct (Q_dec c o) as [[L | L] | E]; [| |exact E]; exfalso.
      - apply D; now apply Hd.
      - apply U; now apply Hu. }
    rewrite (rnd_zero (c - o)) by (rewrite E; ring).
    rewrite (rnd_zero (0 * pm)) by ring; reflexivity.
Qed.

Lemma up_down_mass (l : list AnalyzedBar) :
  (Pandas.sum (map (fun a => Qabs (Points_Display a)) (filter is_up l))
   + Pandas.sum (map (fun a => Qabs (Points_Display a)) (filter is_down l))
   <= Pandas.sum (map (fun a => Qabs (Points_Display a)) l))%Q.
Proof.
  induction l as [|a l IH]; cbn [filter map Pandas.sum]; [discriminate|].
  pose proof (Qabs_nonneg (Points_Display a)) as P.
  destruct (is_up a) eqn:U, (is_down a) eqn:D; cbn [map Pandas.sum]; try lra.
  exfalso; unfold is_up, is_down in U, D.
  apply String.eqb_eq in U; rewrite U in D; discriminate.
Qed.

(** Adding a selection of the points column in binary64, in any order:
    the error is at most [growth (n - 1)] times the magnitudes selected. *)
Lemma selected_sum_error (out : list AnalyzedBar) (p : AnalyzedBar -> bool)
    (h : Q -> Q) (v : Q) :
  (forall a, In a out -> is_double (h (Points_Display a))) ->
  (forall x, (Qabs (h x) == Qabs x)%Q) ->
  sums_to (map (fun a => h (Points_Display a)) (filter p out)) v ->
  (Qabs (v - Pandas.sum (map (fun a => h (Points_Display a)) (filter p out)))
   <= growth (List.length out - 1)
      * Pandas.sum (map (fun a => Qabs (Points_Display a)) (filter p out)))%Q.
Proof.
  intros Hd Habs S.
  destruct (sums_to_error _ _ S) as (_ & B).
  { apply Forall_forall; intros x Hx; apply in_map_iff in Hx as (a & <- & Ha).
    apply Hd; now apply filter_In in Ha. }
  eapply Qle_trans; [exact B|].
  rewrite map_map, length_map.
  assert (E : (Pandas.sum (map (fun a => Qabs (h (Points_Display a))) (filter p out))
               == Pandas.sum (map (fun a => Qabs (Points_Display a)) (filter p out)))%Q)
    by (apply sum_ext_Qeq; intros a _; apply Habs).
  rewrite E.
  apply Qmult_le_compat_r.
  - apply growth_mono; pose proof (filter_length_le p out); lia.
  - pose proof (sum_abs_ge0 (map Points_Display (filter p out))) as P.
    now rewrite map_map in P.
Qed.

(** In binary64 the net is the up total minus the down total up to the
    rounding of the three sums: with classified directions, a non-negative
    multiplier and [n <= 2^52] rows, whatever the order in which each sum
    adds its values, the two differ by at most [n * 2^-51] times the sum of
    the magnitudes of the points (and the net differs by as much from the
    sum of the two totals when the multiplier is non-positive).  The totals
    of the summary are three such sums. *)
Theorem net_points_within_rounding (df : list PriceBar) (pm : Q) (pd : Z) :
  no_overflow df pm ->
  directions_classified df ->
  Z.of_nat (List.length df) <= 2 ^ 52 ->
  let out := df_analysis_binary64 df pm pd in
  let T := point_totals out in
  let bound := (inject_Z (Z.of_nat (List.length df)) * (1 # 2251799813685248)
                * Pandas.sum (map (fun a => Qabs (Points_Display a)) out))%Q in
  (forall up down net,
     sums_to (map Points_Display (filter is_up out)) up ->
     sums_to (map (fun a => Qabs (Points_Display a)) (filter is_down out)) down ->
     sums_to (map Points_Display out) net ->
     ((0 <= pm)%Q -> (Qabs (net - (up - down)) <= bound)%Q)
     /\ ((pm <= 0)%Q -> (Qabs (net - (up + down)) <= bound)%Q))
  /\ ((0 <= pm)%Q ->
      (Qabs (net_points T - (total_up_points T - total_down_points T)) <= bound)%Q)
  /\ ((pm <= 0)%Q ->
      (Qabs (net_points T - (total_up_points T + total_down_points T)) <= bound)%Q).
Proof.
  intros _ Hc Hn out T bound.
  destruct (binary64_frame df pm pd) as (_ & Hlen & _); fold out in Hlen.
  pose proof (binary64_points_double df pm pd) as Hdbl; fold out in Hdbl.
  set (M := Pandas.sum (map (fun a => Qabs (Points_Display a)) out)) in *.
  set (Mu := Pandas.sum (map (fun a => Qabs (Points_Display a)) (filter is_up out))).
  set (Md := Pandas.sum (map (fun a => Qabs (Points_Display a)) (filter is_down out))).
  set (g := growth (List.length out - 1)).
  assert (Hany : forall up down net,
            sums_to (map Points_Display (filter is_up out)) up ->
            sums_to (map (fun a => Qabs (Points_Display a)) (filter is_down out)) down ->
            sums_to (map Points_Display out) net ->
            ((0 <= pm)%Q -> (Qabs (net - (up - down)) <= bound)%Q)
            /\ ((pm <= 0)%Q -> (Qabs (net - (up + down)) <= bound)%Q)).
  { intros up down net Su Sd Sn.
    pose proof (selected_sum_error out is_up (fun x => x) up Hdbl
                  (fun x => Qeq_refl _) Su) as Eu.
    pose proof (selected_sum_error out is_down Qabs down
                  (fun a Ha => is_double_abs _ (Hdbl a Ha))
                  (fun x => Qabs_pos _ (Qabs_nonneg x)) Sd) as Ed.
    assert (Sn' : sums_to (map (fun a => Points_Display a) (filter (fun _ => true) out)) net)
      by (rewrite filter_all by auto; exact Sn).
    pose proof (selected_sum_error out (fun _ => true) (fun x => x) net Hdbl
                  (fun x => Qeq_refl _) Sn') as En.
    rewrite filter_all in En by auto.
    fold Mu in Eu; fold Md in Ed; fold M in En; fold g in Eu, Ed, En.
    pose proof (up_down_mass out) as Hmass; fold Mu Md M in Hmass.
    assert (Mu0 : (0 <= Mu)%Q).
    { pose proof (sum_abs_ge0 (map Points_Display (filter is_up out))) as P.
      now rewrite map_map in P. }
    assert (Md0 : (0 <= Md)%Q).
    { pose proof (sum_abs_ge0 (map Points_Display (filter is_down out))) as P.
      now rewrite map_map in P. }
    assert (Hg : (g <= inject_Z (Z.of_nat (List.length df)) * (1 # 4503599627370496))%Q).
    { unfold g; rewrite Hlen.
      eapply Qle_trans; [apply (growth_mono _ (List.length df)); lia|].
      now apply growth_bound. }
    assert (G0 : (0 <= g)%Q) by apply growth_nonneg.
    assert (Hb : (g * (M + Mu + Md) <= bound)%Q).
    { unfold bound; fold M.
      apply Qle_trans with (g * (2 * M))%Q; [apply Qmult_le_left; [exact G0 | lra]|].
      set (n := inject_Z (Z.of_nat (List.length df))) in *.
      assert (M0 : (0 <= M)%Q) by lra.
      setoid_replace (n * (1 # 2251799813685248) * M)%Q
        with ((n * (1 # 4503599627370496)) * (2 * M))%Q by ring.
      apply Qmult_le_compat_r; [exact Hg | lra]. }
    assert (Hsplit : (Pandas.sum (map Points_Display out)
                      == Pandas.sum (map Points_Display (filter is_up out))
                         + Pandas.sum (map Points_Display (filter is_down out)))%Q).
    { apply sum_by_direction; intros a Ha.
      now apply (binary64_classified_row df pm pd a Hc Ha). }
    assert (Hdown : forall a, In a (filter is_down out) ->
              In a out /\ is_down a = true) by (intros a Ha; now apply filter_In in Ha).
    set (S := Pandas.sum (map Points_Display out)) in *.
    set (Su' := Pandas.sum (map Points_Display (filter is_up out))) in *.
    set (Sd' := Pandas.sum (map Points_Display (filter is_down out))) in *.
    apply Qabs_Qle_condition in Eu, Ed, En.
    assert (Eu' : (g * Mu <= g * (M + Mu + Md) - g * M - g * Md)%Q) by (apply Qle_lteq; right; ring).
    split; intros Hpm.
    - assert (Ea : (Md == - Sd')%Q).
      { unfold Md, Sd'; rewrite <- (map_map Points_Display Qabs).
        apply sum_abs_nonpos; intros x Hx; apply in_map_iff in Hx as (a & <- & Ha).
        destruct (Hdown a Ha) as (Hin & D).
        destruct (binary64_classified_row df pm pd a Hc Hin) as (Hge & _).
        now apply (proj2 (Hge Hpm)). }
      apply Qabs_Qle_condition; split; lra.
    - assert (Ea : (Md == Sd')%Q).
      { unfold Md, Sd'; rewrite <- (map_map Points_Display Qabs).
        apply sum_abs_nonneg; intros x Hx; apply in_map_iff in Hx as (a & <- & Ha).
        destruct (Hdown a Ha) as (Hin & D).
        destruct (binary64_classified_row df pm pd a Hc Hin) as (_ & Hle & _).
        now apply (proj2 (Hle Hpm)). }
      apply Qabs_Qle_condition; split; lra. }
  split; [exact Hany|].
  destruct (point_totals_spec out) as (Tu & Td & Tn); fold T in Tu, Td, Tn.
  destruct (Hany (total_up_points T) (total_down_points T) (net_points T)) as (Hge & Hle);
    [rewrite Tu | rewrite Td | rewrite Tn | ]; try apply sum_sums.
  split; assumption.
Qed.

Lemma net_points_within_rounding_witness :
  no_overflow scenario_A 10
  /\ directions_classified scenario_A
  /\ Z.of_nat (List.length scenario_A) <= 2 ^ 52
  /\ let out := df_analysis_binary64 scenario_A 10 2 in
     let T := point_totals out in
     (Qabs (net_points T - (total_up_points T - total_down_points T))
      <= inject_Z (Z.of_nat (List.length scenario_A)) * (1 # 2251799813685248)
         * Pandas.sum (map (fun a => Qabs (Points_Display a)) out))%Q.
Proof.
  assert (Hn : Z.of_nat (List.length scenario_A) <= 2 ^ 52) by (cbn; lia).
  split; [exact scenario_A_no_overflow|]; split; [exact scenario_A_classified|].
  split; [exact Hn|].
  apply (proj1 (proj2 (net_points_within_rounding scenario_A 10 2
                         scenario_A_no_overflow scenario_A_classified Hn))).
  discriminate.
Defined.

(** ** The cumulative points chart *)

Lemma sum_le_pointwise {A : Type} (f g : A -> Q) (l : list A) :
  (forall a, In a l -> (f a <= g a)%Q) ->
  (Pandas.sum (map f l) <= Pandas.sum (map g l))%Q.
Proof.
  induction l as [|a l IH]; intros H; cbn [map Pandas.sum]; [apply Qle_refl|].
  pose proof (H a (or_introl eq_refl)).
  assert (Pandas.sum (map f l) <= Pandas.sum (map g l))%Q
    by (apply IH; intros b Hb; apply H; now right).
  lra.
Qed.

Lemma trend_columns (out : list AnalyzedBar) :
  let t := plot_cumulative_points_trend out in
  UP_Points t = map (fun a => if is_up a then Points_Display a else 0%Q) out
  /\ DOWN_Points t = map (fun a => if is_down a then Qabs (Points_Display a) else 0%Q) out
  /\ CUM_UP_Points t = Float64.cumsum (UP_Points t)
  /\ CUM_DOWN_Points t = Float64.cumsum (DOWN_Points t).
Proof.
  intros t; split; [|split; [|split; reflexivity]].
  - unfold t, plot_cumulative_points_trend, Pandas.col; cbn [UP_Points].
    rewrite map_map.
    rewrite <- (where_fillna is_up Points_Display (fun x => x) out).
    f_equal; symmetry; erewrite map_ext; [apply map_id|].
    intros [x|]; reflexivity.
  - unfold t, plot_cumulative_points_trend, Pandas.col, Series.abs; cbn [DOWN_Points].
    rewrite map_map; apply (where_fillna is_down Points_Display Qabs out).
Qed.

(** One step of a running sum over a masked column of doubles. *)
Lemma masked_cumsum_step (out : list AnalyzedBar) (p : AnalyzedBar -> bool)
    (h : Q -> Q) (i : nat) (a : AnalyzedBar) (c c' : Q) :
  (forall b, In b out -> is_double (h (Points_Display b))) ->
  let column := map (fun b => if p b then h (Points_Display b) else 0%Q) out in
  nth_error out (S i) = Some a ->
  nth_error (Float64.cumsum column) i = Some c ->
  nth_error (Float64.cumsum column) (S i) = Some c' ->
  c' = Float64.add c (if p a then h (Points_Display a) else 0%Q)
  /\ is_double c
  /\ (p a = false -> (c' == c)%Q).
Proof.
  intros Hd column Ha Hc Hc'.
  assert (Hx : nth_error column (S i) = Some (if p a then h (Points_Display a) else 0%Q))
    by (unfold column; now rewrite nth_error_map, Ha).
  assert (Hcol : Forall is_double column).
  { apply Forall_forall; intros x Hin.
    apply in_map_iff in Hin as (b & <- & Hb).
    destruct (p b); [now apply Hd | apply is_double_zero]. }
  assert (Dc : is_double c).
  { pose proof (cumsum_doubles column Hcol) as F.
    rewrite Forall_forall in F; apply F; eapply nth_error_In; exact Hc. }
  pose proof (cumsum_step column i c c' _ Hc Hc' Hx) as E.
  split; [exact E|]; split; [exact Dc|].
  intros Hp; rewrite E, Hp; now apply add_zero_r.
Qed.

(** The running sums the chart draws, as binary64 computes them (within
    its range): there is one value per row; a line starts at the first
    row's UP points (the magnitude of its DOWN points) and each further
    value is the previous one plus the row's, rounded; a line is flat on
    the rows of the other directions and the DOWN line never falls.  The
    last value of a line and the matching total of the report add the same
    numbers in different groupings: they are equal when the points lie on
    a grid [2^e] and their magnitudes add up to at most [2^53] steps. *)
Theorem points_trend_binary64 (df : list PriceBar) (pm : Q) (pd : Z) :
  no_overflow df pm ->
  let out := df_analysis_binary64 df pm pd in
  let t := plot_cumulative_points_trend out in
  let T := point_totals out in
  List.length (CUM_UP_Points t) = List.length df
  /\ List.length (CUM_DOWN_Points t) = List.length df
  /\ nth_error (CUM_UP_Points t) 0 = nth_error (UP_Points t) 0
  /\ nth_error (CUM_DOWN_Points t) 0 = nth_error (DOWN_Points t) 0
  /\ (forall i a c c',
        nth_error out (S i) = Some a ->
        nth_error (CUM_UP_Points t) i = Some c ->
        nth_error (CUM_UP_Points t) (S i) = Some c' ->
        c' = Float64.add c (if is_up a then Points_Display a else 0)
        /\ (is_up a = false -> (c' == c)%Q))
  /\ (forall i a c c',
        nth_error out (S i) = Some a ->
        nth_error (CUM_DOWN_Points t) i = Some c ->
        nth_error (CUM_DOWN_Points t) (S i) = Some c' ->
        c' = Float64.add c (if is_down a then Qabs (Points_Display a) else 0)
        /\ (is_down a = false -> (c' == c)%Q)
        /\ (c <= c')%Q)
  /\ (forall e,
        -1074 <= e ->
        (forall a, In a out -> on_grid e (Points_Display a)) ->
        (Pandas.sum (map (fun a => Qabs (Points_Display a)) out) <= 2 ^ 53 * 2 ^ e)%Q ->
        (last (CUM_UP_Points t) 0 == total_up_points T)%Q
        /\ (last (CUM_DOWN_Points t) 0 == total_down_points T)%Q).
Proof.
  intros _ out t T.
  destruct (trend_columns out) as (Eu & Ed & Cu & Cd); fold t in Eu, Ed, Cu, Cd.
  destruct (binary64_frame df pm pd) as (_ & Hlen & _); fold out in Hlen.
  pose proof (binary64_points_double df pm pd) as Hdbl; fold out in Hdbl.
  rewrite Cu, Cd, !cumsum_length, !cumsum_head, Eu, Ed, !length_map, Hlen.
  split; [reflexivity|]; split; [reflexivity|].
  split; [reflexivity|]; split; [reflexivity|]; split; [|split].
  - intros i a c c' Ha Hc Hc'.
    destruct (masked_cumsum_step out is_up (fun x => x) i a c c' Hdbl Ha Hc Hc')
      as (E & _ & F); auto.
  - intros i a c c' Ha Hc Hc'.
    destruct (masked_cumsum_step out is_down Qabs i a c c'
                (fun b Hb => is_double_abs _ (Hdbl b Hb)) Ha Hc Hc') as (E & Dc & F).
    split; [exact E|]; split; [exact F|].
    rewrite E; apply add_nonneg_r; [exact Dc|].
    destruct (is_down a); [apply Qabs_nonneg | apply Qle_refl].
  - intros e He Hg Hmass.
    destruct (point_totals_spec out) as (Tu & Td & _); fold T in Tu, Td.
    assert (Hsel : forall (p : AnalyzedBar -> bool) (h : Q -> Q),
              (forall x, on_grid e x -> on_grid e (h x)) ->
              (forall x, (Qabs (h x) == Qabs x)%Q) ->
              (last (Float64.cumsum
                       (map (fun a => if p a then h (Points_Display a) else 0%Q) out)) 0
               == Float64.sum (map (fun a => h (Points_Display a)) (filter p out)))%Q).
    { intros p h Hh Habs.
      set (u := fun a => if p a then h (Points_Display a) else 0%Q).
      set (g := fun a => h (Points_Display a)).
      assert (E1 : (last (Float64.cumsum (map u out)) 0 == Pandas.sum (map u out))%Q).
      { apply (sum_on_grid e u out _ He); [| |apply cumsum_sums].
        - intros a Ha; unfold u; destruct (p a); [now apply Hh, Hg | apply on_grid_zero].
        - eapply Qle_trans; [|exact Hmass].
          apply sum_le_pointwise; intros a _; unfold u.
          destruct (p a); [rewrite Habs; apply Qle_refl | apply Qabs_nonneg]. }
      assert (E2 : (Float64.sum (map g (filter p out))
                    == Pandas.sum (map g (filter p out)))%Q).
      { apply (sum_on_grid e g (filter p out) _ He); [| |apply sum_sums].
        - intros a Ha; apply Hh, Hg; now apply filter_In in Ha.
        - eapply Qle_trans; [|exact Hmass].
          eapply Qle_trans; [|apply (sum_abs_filter p Points_Display out)].
          apply Qle_lteq; right; apply sum_ext_Qeq; intros a _; apply Habs. }
      rewrite E1, E2; apply (sum_masked p g). }
    split.
    + rewrite Tu; apply (Hsel is_up (fun x => x)); [auto | reflexivity].
    + rewrite Td; apply (Hsel is_down Qabs);
        [intros x; apply on_grid_abs | intros x; apply Qabs_pos, Qabs_nonneg].
Qed.

Lemma points_trend_binary64_witness :
  let out := df_analysis_binary64 scenario_B 10 2 in
  let t := plot_cumulative_points_trend out in
  let T := point_totals out in
  no_overflow scenario_B 10
  /\ (forall a, In a out -> on_grid 0 (Points_Display a))
  /\ (Pandas.sum (map (fun a => Qabs (Points_Display a)) out) <= 2 ^ 53 * 2 ^ 0)%Q
  /\ (last (CUM_UP_Points t) 0 == total_up_points T)%Q
  /\ (last (CUM_DOWN_Points t) 0 == total_down_points T)%Q.
Proof.
  cbv zeta.
  assert (Hg : forall a, In a (df_analysis_binary64 scenario_B 10 2) ->
                 on_grid 0 (Points_Display a)).
  { intros a Ha; exists (Qfloor (Points_Display a)).
    repeat (destruct Ha as [<- | Ha]; [vm_compute; reflexivity|]); destruct Ha. }
  assert (Hm : (Pandas.sum (map (fun a => Qabs (Points_Display a))
                              (df_analysis_binary64 scenario_B 10 2))
                <= 2 ^ 53 * 2 ^ 0)%Q) by (vm_compute; discriminate).
  assert (Hr : no_overflow scenario_B 10).
  { split; [|vm_compute; discriminate].
    intros r Hin; repeat (destruct Hin as [<- | Hin]; [split; vm_compute; discriminate|]).
    destruct Hin. }
  split; [exact Hr|]; split; [exact Hg|]; split; [exact Hm|].
  apply (proj2 (proj2 (proj2 (proj2 (proj2 (proj2
           (points_trend_binary64 scenario_B 10 2 Hr)))))) 0);
    [lia | exact Hg | exact Hm].
Defined.

(** Off the grid the last value of a line and the total of the report can
    differ: on eight UP rows from 1.1 to 1.2 with multiplier 10 the chart
    ends one unit in the last place below the report's total. *)
Theorem points_trend_rounding :
  exists (df : list PriceBar) (pm : Q),
    let out := df_analysis_binary64 df pm 2 in
    (last (CUM_UP_Points (plot_cumulative_points_trend out)) 0
     < total_up_points (point_totals out))%Q.
Proof.
  exists steady_sample, 10%Q; vm_compute; reflexivity.
Qed.

(** ** The percentages of the report *)

Lemma rnd_between (lo hi : Z) (x : Q) :
  Z.abs lo <= 2 ^ 53 -> Z.abs hi <= 2 ^ 53 ->
  (inject_Z lo <= x)%Q -> (x <= inject_Z hi)%Q ->
  (inject_Z lo <= Float64.rnd x)%Q /\ (Float64.rnd x <= inject_Z hi)%Q.
Proof.
  intros Hlo Hhi L U; split.
  - rewrite <- (rnd_Z lo Hlo); now apply rnd_mono.
  - rewrite <- (rnd_Z hi Hhi); now apply rnd_mono.
Qed.

Lemma of_int_mono (a b : Z) : a <= b -> (Float64.of_int a <= Float64.of_int b)%Q.
Proof. intros H; apply rnd_mono; now rewrite <- Zle_Qle. Qed.

Lemma rint_between (lo hi : Z) (x : Q) :
  (inject_Z lo <= x)%Q -> (x <= inject_Z hi)%Q -> lo <= rint x <= hi.
Proof.
  intros L U; apply rint_mono in L, U; rewrite rint_Z in L, U; lia.
Qed.

Lemma round2_range (x : Q) :
  (0 <= x)%Q -> (x <= 100)%Q -> (0 <= round2 x)%Q /\ (round2 x <= 100)%Q.
Proof.
  intros H0 H1; unfold round2, Float64.div, Float64.mul.
  assert (S0 : Z.abs 0 <= 2 ^ 53) by (cbn; lia).
  assert (S1 : Z.abs 10000 <= 2 ^ 53) by (cbn; lia).
  assert (S2 : Z.abs 100 <= 2 ^ 53) by (cbn; lia).
  assert (X0 : (inject_Z 0 <= x * 100)%Q) by (change (inject_Z 0) with 0%Q; lra).
  assert (X1 : (x * 100 <= inject_Z 10000)%Q)
    by (change (inject_Z 10000) with 10000%Q; lra).
  destruct (rnd_between 0 10000 (x * 100) S0 S1 X0 X1) as (A & B).
  destruct (rint_between 0 10000 _ A B) as (C & D).
  rewrite Zle_Qle in C, D.
  change (inject_Z 0) with 0%Q in *; change (inject_Z 10000) with 10000%Q in *.
  apply (rnd_between 0 100 _ S0 S2);
    change (inject_Z 0) with 0%Q; change (inject_Z 100) with 100%Q;
    unfold Qdiv; change (/ 100)%Q with (1 # 100)%Q; lra.
Qed.

Lemma round2_error (x : Q) :
  (0 <= x)%Q -> (x <= 100)%Q ->
  (Qabs (round2 x - x) <= (1 # 200) + (3 # 70368744177664))%Q.
Proof.
  intros H0 H1; unfold round2, Float64.div, Float64.mul.
  assert (S0 : Z.abs 0 <= 2 ^ 53) by (cbn; lia).
  assert (S1 : Z.abs 10000 <= 2 ^ 53) by (cbn; lia).
  assert (S2 : Z.abs 100 <= 2 ^ 53) by (cbn; lia).
  assert (X0 : (inject_Z 0 <= x * 100)%Q) by (change (inject_Z 0) with 0%Q; lra).
  assert (X1 : (x * 100 <= inject_Z 10000)%Q)
    by (change (inject_Z 10000) with 10000%Q; lra).
  destruct (rnd_between 0 10000 (x * 100) S0 S1 X0 X1) as (A & B).
  destruct (rint_between 0 10000 _ A B) as (C & D).
  rewrite Zle_Qle in C, D.
  destruct (rint_spec (Float64.rnd (x * 100))) as (R1 & R2 & _).
  assert (E1 : (Qabs (Float64.rnd (x * 100) - x * 100) <= 2 ^ (14 - 53))%Q).
  { apply rnd_error; [lia|].
    change (2 ^ 14)%Q with 16384%Q; apply Qabs_Qle_condition; split; lra. }
  set (w := Float64.rnd (x * 100)) in *.
  set (k := inject_Z (rint w)) in *.
  change (inject_Z 0) with 0%Q in *; change (inject_Z 10000) with 10000%Q in *.
  assert (E2 : (Qabs (Float64.rnd (k / 100) - k / 100) <= 2 ^ (7 - 53))%Q).
  { apply rnd_error; [lia|].
    change (2 ^ 7)%Q with 128%Q; apply Qabs_Qle_condition.
    unfold Qdiv; change (/ 100)%Q with (1 # 100)%Q; split; lra. }
  set (v := Float64.rnd (k / 100)) in *.
  change (2 ^ (14 - 53))%Q with (1 # 549755813888)%Q in E1.
  change (2 ^ (7 - 53))%Q with (1 # 70368744177664)%Q in E2.
  apply Qabs_Qle_condition in E1, E2; destruct E1 as (E1 & E1'), E2 as (E2 & E2').
  unfold Qdiv in E2, E2'; change (/ 100)%Q with (1 # 100)%Q in E2, E2'.
  apply Qabs_Qle_condition; split; lra.
Qed.

(** What the report shows: the table and its percentage columns. *)

(** What the report shows for a count [c] out of a row total [t]. *)
Lemma share_spec (c t : Z) :
  0 <= c <= t ->
  (t = 0 -> (share c t == 0)%Q)
  /\ (0 <= share c t)%Q /\ (share c t <= 100)%Q
  /\ (c = 0 -> (share c t == 0)%Q)
  /\ (0 < t -> c = t -> (share c t == 100)%Q)
  /\ (0 < t -> t <= 2 ^ 53 ->
      (Qabs (share c t - inject_Z c / inject_Z t * 100)
       <= (1 # 200) + (1 # 10000000000000))%Q).
Proof.
  intros Hc; unfold share.
  assert (Zero : (round2 0 == 0)%Q) by (vm_compute; reflexivity).
  destruct (Z.eqb_spec t 0) as [->|Hn].
  - repeat split; try (intros; lia); try exact Zero;
      rewrite Zero; discriminate.
  - assert (Ht : 0 < t) by lia.
    assert (S0 : Z.abs 0 <= 2 ^ 53) by (cbn; lia).
    assert (S1 : Z.abs 1 <= 2 ^ 53) by (cbn; lia).
    assert (S2 : Z.abs 100 <= 2 ^ 53) by (cbn; lia).
    pose proof (of_int_mono 0 c ltac:(lia)) as C0.
    pose proof (of_int_mono c t ltac:(lia)) as Ct.
    pose proof (of_int_mono 1 t ltac:(lia)) as T1.
    unfold Float64.of_int in C0 at 1; rewrite (rnd_Z 0 S0) in C0.
    unfold Float64.of_int in T1 at 1; rewrite (rnd_Z 1 S1) in T1.
    change (inject_Z 0) with 0%Q in C0; change (inject_Z 1) with 1%Q in T1.
    set (fc := Float64.of_int c) in *; set (ft := Float64.of_int t) in *.
    assert (Q0 : (0 <= fc / ft)%Q) by (apply Qle_shift_div_l; lra).
    assert (Q1 : (fc / ft <= 1)%Q) by (apply Qle_shift_div_r; lra).
    unfold Float64.div, Float64.mul.
    destruct (rnd_between 0 1 (fc / ft) S0 S1 Q0 Q1) as (A0 & A1).
    change (inject_Z 0) with 0%Q in A0; change (inject_Z 1) with 1%Q in A1.
    set (q := Float64.rnd (fc / ft)) in *.
    assert (P0 : (inject_Z 0 <= q * 100)%Q) by (change (inject_Z 0) with 0%Q; lra).
    assert (P1 : (q * 100 <= inject_Z 100)%Q) by (change (inject_Z 100) with 100%Q; lra).
    destruct (rnd_between 0 100 (q * 100) S0 S2 P0 P1) as (B0 & B1).
    change (inject_Z 0) with 0%Q in B0; change (inject_Z 100) with 100%Q in B1.
    set (p := Float64.rnd (q * 100)) in *.
    destruct (round2_range p B0 B1) as (R0 & R1).
    split; [intros; lia|]; split; [exact R0|]; split; [exact R1|]; split; [|split].
    + intros ->.
      assert (E : (fc / ft == 0)%Q).
      { unfold fc, Float64.of_int; rewrite (rnd_Z 0 S0); unfold Qdiv.
        change (inject_Z 0) with 0%Q; ring. }
      unfold p, q; rewrite (rnd_compat _ _ E).
      vm_compute; reflexivity.
    + intros _ ->.
      assert (E : (fc / ft == 1)%Q) by (change fc with ft; field; lra).
      unfold p, q; rewrite (rnd_compat _ _ E).
      vm_compute; reflexivity.
    + intros _ Hbig.
      assert (Ec : (fc == inject_Z c)%Q) by (apply rnd_Z; lia).
      assert (Et : (ft == inject_Z t)%Q) by (apply rnd_Z; lia).
      assert (E1 : (Qabs (q - fc / ft) <= 2 ^ (0 - 53))%Q).
      { apply rnd_error; [lia|].
        change (2 ^ 0)%Q with 1%Q; apply Qabs_Qle_condition; split; lra. }
      assert (E2 : (Qabs (p - q * 100) <= 2 ^ (7 - 53))%Q).
      { apply rnd_error; [lia|].
        change (2 ^ 7)%Q with 128%Q; apply Qabs_Qle_condition; split; lra. }
      pose proof (round2_error p B0 B1) as E3.
      change (2 ^ (0 - 53))%Q with (1 # 9007199254740992)%Q in E1.
      change (2 ^ (7 - 53))%Q with (1 # 70368744177664)%Q in E2.
      rewrite <- Ec, <- Et.
      set (e := (fc / ft)%Q) in *.
      apply Qabs_Qle_condition in E1, E2, E3.
      apply Qabs_Qle_condition; split; lra.
Qed.

Lemma dist_with_pct_weekday_table (cell : string -> string -> Z) :
  let tot := fun d => fold_right Z.add 0 (map (cell d) directions_order) in
  dist_with_pct (weekday_table cell)
  = mkReport (weekday_table cell) (map tot days_order)
      (if 0 <? fold_right Z.add 0 (map tot days_order)
       then map (fun c => ((c ++ "_%")%string,
                           map (fun d => share (cell d c) (tot d)) days_order))
                directions_order
       else []).
Proof.
  intros tot.
  unfold dist_with_pct, table_column, weekday_table; cbn [Pandas.values Pandas.columns].
  rewrite map_map.
  change (map (fun x => fold_right Z.add 0 (map (fun c => cell x c) directions_order))
              days_order) with (map tot days_order).
  f_equal.
  cbn [fold_left].
  change (Pandas.position "UP" directions_order) with (Some 0%nat).
  change (Pandas.position "DOWN" directions_order) with (Some 1%nat).
  change (Pandas.position "Break Even" directions_order) with (Some 2%nat).
  destruct (0 <? fold_right Z.add 0 (map tot days_order)); [|reflexivity].
  assert (Hcol : forall (j : nat) (c : string),
            nth_error directions_order j = Some c ->
            map round2
              (Series.fillna 0%Q
                 (mul_series 100
                    (div_series
                       (map (fun row => nth j row 0)
                            (map (fun d => map (fun c => cell d c) directions_order)
                                 days_order))
                       (replace_zero (map tot days_order)))))
            = map (fun d => share (cell d c) (tot d)) days_order).
  { intros j c Hj.
    unfold Series.fillna, mul_series, div_series, replace_zero.
    rewrite !map_map.
    induction days_order as [|d l IH]; cbn [map Pandas.map2]; [reflexivity|].
    rewrite IH; f_equal.
    rewrite (nth_map_at _ directions_order j c 0 Hj).
    unfold share; destruct (tot d =? 0); reflexivity. }
  rewrite (Hcol 0%nat "UP"%string eq_refl), (Hcol 1%nat "DOWN"%string eq_refl),
    (Hcol 2%nat "Break Even"%string eq_refl).
  reflexivity.
Qed.

Lemma day_total_cells (d : string) (out : list AnalyzedBar) :
  fold_right Z.add 0 (map (fun c => cell_count d c out) directions_order)
  = day_total d out.
Proof.
  unfold directions_order, day_total; cbn [map fold_right].
  induction out as [|a out IH]; [reflexivity|].
  rewrite count_cons, <- IH, !cell_count_cons.
  unfold known_direction, directions_order; cbn [existsb].
  destruct (Day_Name a =? d)%string; cbn [andb Z.b2z]; [|lia].
  destruct (String.eqb_spec (Direction (bar a)) "UP"),
           (String.eqb_spec (Direction (bar a)) "DOWN"),
           (String.eqb_spec (Direction (bar a)) "Break Even");
    try congruence; cbn [orb Z.b2z]; lia.
Qed.

Lemma cell_within_day_total (d c : string) (out : list AnalyzedBar) :
  In c directions_order -> 0 <= cell_count d c out <= day_total d out.
Proof.
  intros Hc; split; [apply count_nonneg|].
  unfold cell_count, day_total.
  rewrite (count_split (fun a => (Day_Name a =? d)%string && known_direction a)
                       (fun a => (Direction (bar a) =? c)%string)).
  pose proof (count_nonneg
    (fun x => ((Day_Name x =? d)%string && known_direction x)
              && negb (Direction (bar x) =? c)%string) out) as H0.
  assert (E : count (fun a => (Day_Name a =? d)%string
                              && (Direction (bar a) =? c)%string) out
              = count (fun x => ((Day_Name x =? d)%string && known_direction x)
                                && (Direction (bar x) =? c)%string) out); [|lia].
  apply count_ext; intros a _.
  destruct (String.eqb_spec (Direction (bar a)) c) as [E|]; [|now rewrite !andb_false_r].
  replace (known_direction a) with true; [now rewrite !andb_true_r|].
  symmetry; apply existsb_exists; exists c; split; [exact Hc | now apply String.eqb_eq].
Qed.

(** The table the report prints for a non-empty frame: [Total] is, per
    weekday, the number of its rows with a recognised direction; the
    percentage columns are added only when the table is not all zero, one
    per direction; a weekday without rows shows 0 (no division by zero);
    every percentage is a binary64 value in [0, 100], it is 0 for a count
    of 0 and 100 for a count equal to the total, and it lies within
    0.005 + 1e-13 of the exact share. *)
Theorem report_percentages (out : list AnalyzedBar) :
  out <> [] ->
  let T := calculate_day_of_week_distribution out in
  let R := dist_with_pct T in
  Total R = map (fun d => day_total d out) days_order
  /\ (table_total T = 0 -> percent_columns R = [])
  /\ (0 < table_total T ->
      percent_columns R
      = map (fun c => ((c ++ "_%")%string,
                       map (fun d => share (cell_count d c out) (day_total d out))
                           days_order))
            directions_order)
  /\ (forall d c, In c directions_order ->
        let n := cell_count d c out in
        let t := day_total d out in
        let v := share n t in
        (t = 0 -> (v == 0)%Q)
        /\ (0 <= v)%Q /\ (v <= 100)%Q
        /\ (n = 0 -> (v == 0)%Q)
        /\ (0 < t -> n = t -> (v == 100)%Q)
        /\ (0 < t -> t <= 2 ^ 53 ->
            (Qabs (v - inject_Z n / inject_Z t * 100)
             <= (1 # 200) + (1 # 10000000000000))%Q)).
Proof.
  intros Hne T R.
  pose proof (dist_with_pct_weekday_table (fun d c => cell_count d c out)) as H.
  cbv zeta in H.
  rewrite <- (distribution_closed_form out Hne) in H; fold T in H; fold R in H.
  assert (Htot : map (fun d => fold_right Z.add 0
                                 (map (fun c => cell_count d c out) directions_order))
                     days_order
                 = map (fun d => day_total d out) days_order).
  { apply map_ext; intros d; apply day_total_cells. }
  assert (Hgrand : fold_right Z.add 0 (map (fun d => day_total d out) days_order)
                   = table_total T).
  { unfold T; rewrite (distribution_closed_form out Hne).
    unfold table_total, weekday_table; cbn [Pandas.values].
    rewrite map_map, <- Htot; reflexivity. }
  rewrite Htot, Hgrand in H.
  split; [now rewrite H|]; split; [|split].
  - intros E; rewrite H, E; reflexivity.
  - intros Hpos; rewrite H; cbn [percent_columns].
    apply Z.ltb_lt in Hpos; rewrite Hpos.
    apply map_ext; intros c; f_equal.
    apply map_ext; intros d; now rewrite day_total_cells.
  - intros d c Hc n t v.
    exact (share_spec _ _ (cell_within_day_total d c out Hc)).
Qed.

Lemma report_percentages_witness :
  let out := fst (run_analysis scenario_B 10 2) in
  out <> []
  /\ let T := calculate_day_of_week_distribution out in
     let R := dist_with_pct T in
     Total R = map (fun d => day_total d out) days_order
     /\ (table_total T = 0 -> percent_columns R = [])
     /\ (0 < table_total T ->
         percent_columns R
         = map (fun c => ((c ++ "_%")%string,
                          map (fun d => share (cell_count d c out) (day_total d out))
                              days_order))
               directions_order)
     /\ (forall d c, In c directions_order ->
           let n := cell_count d c out in
           let t := day_total d out in
           let v := share n t in
           (t = 0 -> (v == 0)%Q)
           /\ (0 <= v)%Q /\ (v <= 100)%Q
           /\ (n = 0 -> (v == 0)%Q)
           /\ (0 < t -> n = t -> (v == 100)%Q)
           /\ (0 < t -> t <= 2 ^ 53 ->
               (Qabs (v - inject_Z n / inject_Z t * 100)
                <= (1 # 200) + (1 # 10000000000000))%Q)).
Proof.
  cbv zeta.
  assert (H : fst (run_analysis scenario_B 10 2) <> []) by discriminate.
  split; [exact H|].
  exact (report_percentages (fst (run_analysis scenario_B 10 2)) H).
Defined.

(** The rounding is that of the binary64 product, not of the exact share:
    23 rows out of 160 are 14.375 percent, binary64 computes
    14.374999999999998 and the report shows 14.37. *)
Lemma share_rounds_the_product :
  (share 23 160 == Float64.rnd (1437 # 100))%Q
  /\ (Float64.mul (Float64.div (Float64.of_int 23) (Float64.of_int 160)) 100
      < 14375 # 1000)%Q.
Proof. split; vm_compute; reflexivity. Qed.
